(** * mysql-sniffer: a shallow embedding of [mysql-sniffer.go]

    The functions embedded are the frame carver ([carvePacket]), the
    tokenizer ([scanToken]), the canonicalizer ([cleanupQuery]), the latency
    summary ([calculateTimes]), the per-flow ingestion step
    ([processPacket]), the periodic report ([handleStatusUpdate]), the
    dispatch of a captured packet to its flow ([handlePacket]) with the loop
    of [main] that calls it, the parser of the aggregation format
    ([parseFormat]) and the three methods of [sortableSlice].

    Conventions.
    - A Go [[]byte] and a Go [string] are both sequences of bytes; the
      conversions [string(b)] and [[]byte(s)] copy and are the identity here.
      A slice that can be [nil] is an [option]: [None] is [nil].
    - Fixed-width integers are [Z] with the wrap-around written out
      ([uint32], [uint64], [int64]).
    - [float64] is IEEE-754 binary64, taken from the standard library's
      executable specification [SpecFloat] at precision 53, emax 1024.
    - A run-time panic (index or slice bound) and [log.Fatalf] are results
      of their own, so that "never raises" is a statement about the model. *)

From Stdlib Require Import ZArith List Lia Bool Strings.Byte Strings.String.
From Stdlib Require Import Sorting.Permutation Sorting.Sorted.
From Stdlib Require Import Floats.SpecFloat.
From stdpp Require Import base option list sorting gmap.
Import ListNotations.
Open Scope Z_scope.

(** ** Go run-time model *)

Inductive result (A : Type) : Type :=
| Ok (a : A)      (* normal return *)
| Panic           (* run-time panic: index or slice bound out of range *)
| Fatal           (* log.Fatalf: the process exits *)
| OutOfFuel.      (* a loop of the model ran out of its iteration budget *)
Arguments Ok {A} a.
Arguments Panic {A}.
Arguments Fatal {A}.
Arguments OutOfFuel {A}.

#[global] Instance result_bind : MBind result := fun A B k m =>
  match m with
  | Ok a => k a
  | Panic => Panic
  | Fatal => Fatal
  | OutOfFuel => OutOfFuel
  end.
#[global] Instance result_ret : MRet result := @Ok.

Definition gostring : Type := list byte.
Definition slice : Type := option (list byte).

#[global] Instance byte_eq_dec : EqDecision byte := Byte.byte_eq_dec.
#[global] Instance byte_countable : Countable byte :=
  inj_countable Byte.to_N Byte.of_N Byte.of_to_N.

(** The numeric value of a byte, [0 <= u8 b < 256]. *)
Definition u8 (b : byte) : Z := Z.of_N (Byte.to_N b).

(** A Go string literal. *)
Definition str (s : string) : gostring := list_byte_of_string s.

Definition uint32 (x : Z) : Z := x mod 2 ^ 32.
Definition uint64 (x : Z) : Z := x mod 2 ^ 64.
(** Conversion to a signed 64-bit [int] / [int64] (two's complement). *)
Definition int64 (x : Z) : Z := (x + 2 ^ 63) mod 2 ^ 64 - 2 ^ 63.

(** [len(s)]; the length of a nil slice is 0. *)
Definition bytes_of (s : slice) : list byte :=
  match s with Some l => l | None => [] end.
Definition len (s : slice) : Z := Z.of_nat (length (bytes_of s)).

(** [s[i]]: panics unless [0 <= i < len(s)]. *)
Definition index {A : Type} (l : list A) (i : Z) : result A :=
  if (0 <=? i) && (i <? Z.of_nat (length l)) then
    match l !! Z.to_nat i with Some x => Ok x | None => Panic end
  else Panic.

(** [s[lo:hi]]: Go panics unless [0 <= lo <= hi <= cap(s)].  Capacity is
    not modelled; the bound used here is [len(s)], which is at most
    [cap(s)], so the model panics at least whenever Go does. *)
Definition subslice {A : Type} (l : list A) (lo hi : Z) : result (list A) :=
  if (0 <=? lo) && (lo <=? hi) && (hi <=? Z.of_nat (length l)) then
    Ok (take (Z.to_nat (hi - lo)) (drop (Z.to_nat lo) l))
  else Panic.

(** *** The [strings] package, for a non-empty separator *)

Fixpoint has_prefix (p s : gostring) : bool :=
  match p, s with
  | [], _ => true
  | _ :: _, [] => false
  | a :: p', b :: s' => if decide (a = b) then has_prefix p' s' else false
  end.

(** [cut s sep]: the text before and after the first occurrence of [sep]
    in [s] ([strings.Index] followed by the two slicings). *)
Fixpoint cut (s sep : gostring) : option (gostring * gostring) :=
  if has_prefix sep s then Some ([], drop (length sep) s)
  else match s with
       | [] => None
       | c :: s' =>
           match cut s' sep with
           | Some (a, b) => Some (c :: a, b)
           | None => None
           end
       end.

(** [strings.Contains(s, substr)] *)
Definition Contains (s substr : gostring) : bool :=
  match cut s substr with Some _ => true | None => false end.

(** [strings.Join(a, sep)] *)
Fixpoint Join (a : list gostring) (sep : gostring) : gostring :=
  match a with
  | [] => []
  | [x] => x
  | x :: rest => x ++ sep ++ Join rest sep
  end.

(** [strings.SplitN(s, sep, n)] for [n > 0]: at most [n] substrings, the
    last one being the unsplit remainder. *)
Fixpoint SplitN (s sep : gostring) (n : nat) : list gostring :=
  match n with
  | O => []
  | S O => [s]
  | S n' =>
      match cut s sep with
      | Some (a, b) => a :: SplitN b sep n'
      | None => [s]
      end
  end.

(** [strings.Replace(s, old, new, -1)]: every non-overlapping instance of
    [old], found left to right, is replaced.  The number of instances is at
    most [len(s)], which is the iteration budget. *)
Fixpoint Replace_loop (budget : nat) (s old new : gostring) : gostring :=
  match budget with
  | O => s
  | S budget' =>
      match cut s old with
      | Some (a, b) => a ++ new ++ Replace_loop budget' b old new
      | None => s
      end
  end.

Definition Replace (s old new : gostring) : gostring :=
  Replace_loop (length s) s old new.

(** ** Constants *)

Definition TOKEN_WORD : Z := 0.
Definition TOKEN_QUOTE : Z := 1.
Definition TOKEN_NUMBER : Z := 2.
Definition TOKEN_WHITESPACE : Z := 3.
Definition TOKEN_OTHER : Z := 4.

Definition TIME_BUCKETS : nat := Z.to_nat 10000.
Definition COM_QUERY : Z := 3.

Inductive format_code : Type := F_NONE | F_QUERY | F_ROUTE | F_SOURCE | F_SOURCEIP.

(** An element of [format []interface{}]: an [int] code, a [string], or a
    value of any other dynamic type. *)
Inductive format_item : Type :=
| ItemInt (code : format_code)
| ItemIntOther (n : Z)
| ItemString (s : gostring)
| ItemOther.

(** The package-level variables set once in [main]. *)
Record config : Type := Config {
  verbose : bool;
  noclean : bool;
  dirty : bool;
  format : list format_item
}.

(** ** carvePacket *)

(** [carvePacket(buf *[]byte) (int, []byte)]: the result carries the two
    returned values and the new contents of [*buf]. *)
Definition carvePacket (buf : slice) : result (Z * slice * slice) :=
  let datalen := uint32 (len buf) in
  if datalen <? 5 then Ok (-1, None, buf)
  else
    b0 ← index (bytes_of buf) 0;
    b1 ← index (bytes_of buf) 1;
    b2 ← index (bytes_of buf) 2;
    let size := uint32 (uint32 (u8 b0 + uint32 (Z.shiftl (u8 b1) 8))
                        + uint32 (Z.shiftl (u8 b2) 16)) in
    if (size =? 0) || (datalen <? uint32 (size + 4)) then Ok (-1, None, buf)
    else
      let end_ := uint32 (size + 4) in
      b4 ← index (bytes_of buf) 4;
      let ptype := u8 b4 in
      data ← subslice (bytes_of buf) 5 (uint32 (size + 4));
      if end_ >=? datalen then Ok (ptype, Some data, None)
      else
        rest ← subslice (bytes_of buf) end_ (len buf);
        Ok (ptype, Some data, Some rest).

(** ** scanToken *)

Definition is_digit (c : Z) : bool := (48 <=? c) && (c <=? 57).
Definition is_space (c : Z) : bool := (c =? 32) || ((9 <=? c) && (c <=? 13)).
Definition is_alpha (c : Z) : bool :=
  ((65 <=? c) && (c <=? 90)) || ((97 <=? c) && (c <=? 122)).
Definition is_quote (c : Z) : bool := (c =? 39) || (c =? 34).

(** The four scanning loops [for i := 1; i < len(query); i++].  [rest] is
    [query[i:]], [n] is [len(query)]; the value is the returned length. *)
Fixpoint scan_quote (started_with : Z) (escaped : bool) (rest : list byte)
    (i n : nat) : nat :=
  match rest with
  | [] => n
  | c :: rest' =>
      if u8 c =? started_with then
        if escaped then scan_quote started_with false rest' (S i) n
        else (i + 1)%nat
      else if u8 c =? 92 then scan_quote started_with true rest' (S i) n
      else scan_quote started_with false rest' (S i) n
  end.

Fixpoint scan_number (rest : list byte) (i n : nat) : nat :=
  match rest with
  | [] => n
  | c :: rest' => if is_digit (u8 c) then scan_number rest' (S i) n else i
  end.

Fixpoint scan_space (rest : list byte) (i n : nat) : nat :=
  match rest with
  | [] => n
  | c :: rest' => if is_space (u8 c) then scan_space rest' (S i) n else i
  end.

Definition is_word_byte (c : Z) : bool :=
  if is_digit c then true
  else if is_alpha c then true
  else if (c =? 36) || (c =? 95) then true
  else false.

Fixpoint scan_word (rest : list byte) (i n : nat) : nat :=
  match rest with
  | [] => n
  | c :: rest' => if is_word_byte (u8 c) then scan_word rest' (S i) n else i
  end.

Definition scanToken (cfg : config) (query : list byte) : result (nat * Z) :=
  if (length query <? 1)%nat then Fatal
  else if verbose cfg && noclean cfg then Ok (length query, TOKEN_OTHER)
  else
    b0 ← index query 0;
    let b := u8 b0 in
    let rest := drop 1 query in
    let n := length query in
    if is_quote b then Ok (scan_quote b false rest 1 n, TOKEN_QUOTE)
    else if is_digit b then Ok (scan_number rest 1 n, TOKEN_NUMBER)
    else if is_space b then Ok (scan_space rest 1 n, TOKEN_WHITESPACE)
    else if is_alpha b then Ok (scan_word rest 1 n, TOKEN_WORD)
    else Ok (1%nat, TOKEN_OTHER).

(** ** cleanupQuery *)

(** What one token appends to [qspace]. *)
Definition emit_token (query : list byte) (i length_ : nat) (toktype : Z)
    : result gostring :=
  if (toktype =? TOKEN_WORD) || (toktype =? TOKEN_OTHER) then
    subslice query (Z.of_nat i) (Z.of_nat (i + length_))
  else if (toktype =? TOKEN_NUMBER) || (toktype =? TOKEN_QUOTE) then Ok (str "?")
  else if toktype =? TOKEN_WHITESPACE then Ok (str " ")
  else Fatal.

(** The loop [for i := 0; i < len(query); { ... i += length }]; [budget]
    bounds the number of iterations. *)
Fixpoint cleanup_loop (cfg : config) (budget : nat) (query : list byte)
    (i : nat) (qspace : list gostring) : result (list gostring) :=
  if (i <? length query)%nat then
    match budget with
    | O => OutOfFuel
    | S budget' =>
        '(length_, toktype) ← scanToken cfg (drop i query);
        piece ← emit_token query i length_ toktype;
        cleanup_loop cfg budget' query (i + length_) (qspace ++ [piece])
    end
  else Ok qspace.

(** The route rewrite after the loop: [/* hostname:route */] loses its
    hostname. *)
Definition strip_route_host (tmp : gostring) : result gostring :=
  let parts := SplitN tmp (str " ") 5 in
  if (5 <=? length parts)%nat then
    p1 ← index parts 1;
    if decide (p1 = str "/*") then
      p3 ← index parts 3;
      if decide (p3 = str "*/") then
        p2 ← index parts 2;
        if Contains p2 (str ":") then
          p0 ← index parts 0;
          route ← index (SplitN p2 (str ":") 2) 1;
          p4 ← index parts 4;
          Ok (p0 ++ str " /* " ++ route ++ str " */ " ++ p4)
        else Ok tmp
      else Ok tmp
    else Ok tmp
  else Ok tmp.

Definition cleanupQuery (cfg : config) (query : list byte) : result gostring :=
  qspace ← cleanup_loop cfg (length query) query 0 [];
  let tmp := Join qspace [] in
  tmp ← strip_route_host tmp;
  Ok (Replace tmp (str "?, ") []).

(** ** float64 *)

Definition float64 : Type := spec_float.

(** [float64(x)] for an integer [x]: rounding to nearest, ties to even. *)
Definition f64_of_Z (x : Z) : float64 := binary_normalize 53 1024 x 0 false.
Definition f64_div (x y : float64) : float64 := SFdiv 53 1024 x y.
Definition f64_lt (x y : float64) : bool := SFltb x y.

(** ** calculateTimes *)

(** The local variables of the loop of [calculateTimes]. *)
Record times_acc : Type := TimesAcc {
  counts : Z;
  total : Z;
  min_ : Z;
  max_ : Z;
  has_min : bool
}.

Definition times_init : times_acc := TimesAcc 0 0 0 0 false.

(** One iteration of [for _, val := range *timings]. *)
Definition times_step (a : times_acc) (val : Z) : times_acc :=
  if val =? 0 then a
  else
    let '(min1, has1) :=
      if (val <? min_ a) || negb (has_min a) then (val, true)
      else (min_ a, has_min a) in
    let max1 := if val >? max_ a then val else max_ a in
    TimesAcc (uint64 (counts a + 1)) (uint64 (total a + val)) min1 max1 has1.

Definition times_loop (timings : list Z) : times_acc :=
  fold_left times_step timings times_init.

(** [avg] after [if counts > 0 { avg = total / counts }]. *)
Definition times_avg (a : times_acc) : Z :=
  if counts a >? 0 then total a / counts a else 0.

(** [float64(x) / 1000000] *)
Definition to_millis (x : Z) : float64 := f64_div (f64_of_Z x) (f64_of_Z 1000000).

Definition calculateTimes (timings : list Z) : float64 * float64 * float64 :=
  let a := times_loop timings in
  (to_millis (min_ a), to_millis (times_avg a), to_millis (max_ a)).

(** ** Program state *)

(** [type queryData struct]; a zero value is [&queryData{}]. *)
Record queryData : Type := QueryData {
  count : Z;
  bytes : Z;
  times : list Z
}.

Definition queryData_zero : queryData := QueryData 0 0 (replicate TIME_BUCKETS 0).

(** [type source struct].  [reqSent] is a clock reading in nanoseconds.
    [qdata] points into [qbuf]: every [queryData] is stored in [qbuf]
    under exactly one key and never removed, so the pointer is that key. *)
Record source : Type := Source {
  src : gostring;
  srcip : gostring;
  synced : bool;
  reqbuffer : slice;
  resbuffer : slice;
  reqSent : option Z;
  reqTimes : list Z;
  qbytes : Z;
  qdata : option gostring;
  qtext : gostring
}.

(** [&source{src: src, srcip: srcip, synced: false}] in [handlePacket]. *)
Definition new_source (src0 srcip0 : gostring) : source :=
  Source src0 srcip0 false None None None (replicate TIME_BUCKETS 0) 0 None [].

(** The package-level variables that change while packets are processed:
    [qbuf], [querycount], [times] and the counters of [stats]. *)
Record globals : Type := Globals {
  qbuf : gmap gostring queryData;
  querycount : Z;
  gtimes : list Z;
  packets_rcvd : Z;
  packets_rcvd_sync : Z;
  desyncs : Z;
  streams : Z
}.

Definition set_synced (b : bool) (rs : source) : source :=
  Source (src rs) (srcip rs) b (reqbuffer rs) (resbuffer rs) (reqSent rs)
         (reqTimes rs) (qbytes rs) (qdata rs) (qtext rs).
Definition set_reqbuffer (b : slice) (rs : source) : source :=
  Source (src rs) (srcip rs) (synced rs) b (resbuffer rs) (reqSent rs)
         (reqTimes rs) (qbytes rs) (qdata rs) (qtext rs).
Definition set_resbuffer (b : slice) (rs : source) : source :=
  Source (src rs) (srcip rs) (synced rs) (reqbuffer rs) b (reqSent rs)
         (reqTimes rs) (qbytes rs) (qdata rs) (qtext rs).
Definition set_reqSent (t : option Z) (rs : source) : source :=
  Source (src rs) (srcip rs) (synced rs) (reqbuffer rs) (resbuffer rs) t
         (reqTimes rs) (qbytes rs) (qdata rs) (qtext rs).
Definition set_reqTimes (l : list Z) (rs : source) : source :=
  Source (src rs) (srcip rs) (synced rs) (reqbuffer rs) (resbuffer rs)
         (reqSent rs) l (qbytes rs) (qdata rs) (qtext rs).
Definition set_query (text : gostring) (key : option gostring) (plen : Z)
    (rs : source) : source :=
  Source (src rs) (srcip rs) (synced rs) (reqbuffer rs) (resbuffer rs)
         (reqSent rs) (reqTimes rs) plen key text.

Definition set_qbuf (m : gmap gostring queryData) (g : globals) : globals :=
  Globals m (querycount g) (gtimes g) (packets_rcvd g) (packets_rcvd_sync g)
          (desyncs g) (streams g).
Definition set_querycount (n : Z) (g : globals) : globals :=
  Globals (qbuf g) n (gtimes g) (packets_rcvd g) (packets_rcvd_sync g)
          (desyncs g) (streams g).
Definition set_gtimes (l : list Z) (g : globals) : globals :=
  Globals (qbuf g) (querycount g) l (packets_rcvd g) (packets_rcvd_sync g)
          (desyncs g) (streams g).
Definition set_packets_rcvd (n : Z) (g : globals) : globals :=
  Globals (qbuf g) (querycount g) (gtimes g) n (packets_rcvd_sync g)
          (desyncs g) (streams g).
Definition set_packets_rcvd_sync (n : Z) (g : globals) : globals :=
  Globals (qbuf g) (querycount g) (gtimes g) (packets_rcvd g) n
          (desyncs g) (streams g).
Definition set_desyncs (n : Z) (g : globals) : globals :=
  Globals (qbuf g) (querycount g) (gtimes g) (packets_rcvd g)
          (packets_rcvd_sync g) n (streams g).

(** [p.bytes += plen] through the pointer [rs.qdata], when it is not nil. *)
Definition add_bytes (plen : Z) (d : queryData) : queryData :=
  QueryData (count d) (uint64 (bytes d + plen)) (times d).
Definition set_time (randn : nat) (reqtime : Z) (d : queryData) : queryData :=
  QueryData (count d) (bytes d) (<[randn := reqtime]> (times d)).

(** ** processPacket *)

(** Lines 261-286: the packet counters, the desync test on a request that
    finds a response buffer, and the carving.  The value carries [ptype]
    and [pdata]. *)
Definition ingest (g : globals) (rs : source) (request : bool) (data : list byte)
    : result (globals * source * Z * slice) :=
  let g := set_packets_rcvd (uint64 (packets_rcvd g + 1)) g in
  let g := if synced rs
           then set_packets_rcvd_sync (uint64 (packets_rcvd_sync g + 1)) g
           else g in
  if request then
    let '(g, rs) :=
      match resbuffer rs with
      | Some _ =>
          (set_desyncs (uint64 (desyncs g + 1)) g,
           set_synced false (set_resbuffer None rs))
      | None => (g, rs)
      end in
    let rs := set_reqbuffer (Some data) rs in
    '(ptype, pdata, buf) ← carvePacket (reqbuffer rs);
    Ok (g, set_reqbuffer buf rs, ptype, pdata)
  else
    Ok (g, set_resbuffer None rs, 0, Some data).

(** [time.Since] of [rs.reqSent], in nanoseconds: a [Duration] is an [int64]
    and the subtraction saturates. *)
Definition Since (sent now : Z) : Z :=
  Z.max (- 2 ^ 63) (Z.min (2 ^ 63 - 1) (now - sent)).

(** Lines 308-339: a response on a synchronized flow. *)
Definition record_response (g : globals) (rs : source) (plen now : Z)
    (randn : nat) : globals * source :=
  match reqSent rs with
  | None =>
      match qdata rs with
      | Some key => (set_qbuf (alter (add_bytes plen) key (qbuf g)) g, rs)
      | None => (g, rs)
      end
  | Some sent =>
      let reqtime := uint64 (Since sent now) in
      let rs := set_reqTimes (<[randn := reqtime]> (reqTimes rs)) rs in
      let g := set_gtimes (<[randn := reqtime]> (gtimes g)) g in
      let g :=
        match qdata rs with
        | Some key =>
            set_qbuf (alter (fun d => add_bytes plen (set_time randn reqtime d))
                            key (qbuf g)) g
        | None => g
        end in
      (g, set_reqSent None rs)
  end.

(** The [F_ROUTE] case of the format loop. *)
Definition route_text (cfg : config) (pdata : list byte) : result gostring :=
  let parts := SplitN pdata (str " ") 5 in
  if (4 <=? length parts)%nat then
    p1 ← index parts 1;
    if decide (p1 = str "/*") then
      p3 ← index parts 3;
      if decide (p3 = str "*/") then
        p2 ← index parts 2;
        if Contains p2 (str ":") then index (SplitN p2 (str ":") 2) 1
        else Ok p2
      else q ← cleanupQuery cfg pdata; Ok (str "(unknown) " ++ q)
    else q ← cleanupQuery cfg pdata; Ok (str "(unknown) " ++ q)
  else q ← cleanupQuery cfg pdata; Ok (str "(unknown) " ++ q).

(** [for _, item := range format { ... }], accumulating [text]. *)
Fixpoint format_text (cfg : config) (rs : source) (pdata : list byte)
    (items : list format_item) (text : gostring) : result gostring :=
  match items with
  | [] => Ok text
  | item :: items' =>
      piece ←
        match item with
        | ItemInt F_NONE => Fatal
        | ItemInt F_QUERY =>
            if dirty cfg then Ok pdata else cleanupQuery cfg pdata
        | ItemInt F_ROUTE => route_text cfg pdata
        | ItemInt F_SOURCE => Ok (src rs)
        | ItemInt F_SOURCEIP => Ok (srcip rs)
        | ItemIntOther _ => Fatal
        | ItemString s => Ok s
        | ItemOther => Fatal
        end;
      format_text cfg rs pdata items' (text ++ piece)
  end.

(** Lines 341-399: a request on a synchronized flow. *)
Definition record_request (cfg : config) (g : globals) (rs : source)
    (pdata : list byte) (plen now : Z) : result (globals * source) :=
  let rs := set_reqSent (Some now) rs in
  let g := set_querycount (int64 (querycount g + 1)) g in
  text ← format_text cfg rs pdata (format cfg) [];
  let d := default queryData_zero (qbuf g !! text) in
  let d := QueryData (uint64 (count d + 1)) (uint64 (bytes d + plen)) (times d) in
  Ok (set_qbuf (<[text := d]> (qbuf g)) g, set_query text (Some text) plen rs).

(** [processPacket(rs *source, request bool, data []byte)].  [now] is the
    reading of the clock during the call and [randn] the value drawn by
    [rand.Intn(TIME_BUCKETS)], so [randn < TIME_BUCKETS]; the line printed in
    verbose mode is not part of the state. *)
Definition processPacket (cfg : config) (g : globals) (rs : source)
    (request : bool) (data : list byte) (now : Z) (randn : nat)
    : result (globals * source) :=
  '(g, rs, ptype, pdata) ← ingest g rs request data;
  if negb (synced rs) && negb (request && (ptype =? COM_QUERY)) then
    Ok (g, set_resbuffer None (set_reqbuffer None rs))
  else
    let rs := if negb (synced rs) then set_synced true rs else rs in
    if ptype =? -1 then Ok (g, rs)
    else
      let plen := uint64 (len pdata) in
      if negb request then Ok (record_response g rs plen now randn)
      else record_request cfg g rs (bytes_of pdata) plen now.

(** One call of [processPacket] as delivered by the capture loop. *)
Record event : Type := Event {
  ev_request : bool;
  ev_data : list byte;
  ev_now : Z;
  ev_randn : nat
}.

(** The calls for one flow, in order. *)
Fixpoint run (cfg : config) (g : globals) (rs : source) (evs : list event)
    : result (globals * source) :=
  match evs with
  | [] => Ok (g, rs)
  | e :: evs' =>
      '(g, rs) ← processPacket cfg g rs (ev_request e) (ev_data e) (ev_now e)
                               (ev_randn e);
      run cfg g rs evs'
  end.

(** ** handleStatusUpdate *)

(** [type sortable struct] *)
Record sortable : Type := Sortable {
  value : float64;
  line : gostring
}.

(** [sortableSlice.Less]: [self[i].value < self[j].value]. *)
Definition Less (a b : sortable) : bool := f64_lt (value a) (value b).

(** What [handleStatusUpdate] takes from the Go libraries and the
    platform.  [sort_Sort] is [sort.Sort] on a [sortableSlice] (through
    [Len], [Less] and [Swap]); [Sprintf_row] is the [fmt.Sprintf] call that
    renders one row from its arguments; [uint64_unrepresentable] is the
    implementation-dependent result of converting to [uint64] a float64
    that no [uint64] represents. *)
Record golib : Type := GoLib {
  sort_Sort : list sortable -> list sortable;
  Sprintf_row : Z -> float64 -> float64 -> float64 -> float64 -> Z -> Z
                -> gostring -> gostring;
  uint64_unrepresentable : float64 -> Z
}.

(** [uint64(x)] for a float64 [x]: truncation toward zero. *)
Definition f64_to_uint64 (lib : golib) (x : float64) : Z :=
  match x with
  | S754_zero _ => 0
  | S754_finite s m e =>
      let v := if 0 <=? e then Z.pos m * 2 ^ e else Z.pos m / 2 ^ (- e) in
      if v =? 0 then 0
      else if negb s && (v <? 2 ^ 64) then v
      else uint64_unrepresentable lib x
  | _ => uint64_unrepresentable lib x
  end.

(** The body of [for q, c := range qbuf]: [None] is [continue]. *)
Definition status_row (lib : golib) (elapsed : float64) (sortby : gostring)
    (cutoff : Z) (q : gostring) (c : queryData) : option sortable :=
  let qps := f64_div (f64_of_Z (count c)) elapsed in
  if f64_lt qps (f64_of_Z cutoff) then None
  else
    let '(qmin, qavg, qmax) := calculateTimes (times c) in
    let bavg := f64_to_uint64 lib (f64_div (f64_of_Z (bytes c))
                                           (f64_of_Z (count c))) in
    let sorted :=
      if decide (sortby = str "avg") then qavg
      else if decide (sortby = str "max") then qmax
      else if decide (sortby = str "maxbytes") then f64_of_Z (bytes c)
      else if decide (sortby = str "avgbytes") then f64_of_Z bavg
      else f64_of_Z (count c) in
    Some (Sortable sorted
            (Sprintf_row lib (count c) qps qmin qavg qmax (bytes c) bavg q)).

(** [for i := 1; i <= displaycount; i++ { log.Printf(tmp[len(tmp)-i].line) }];
    the value is the sequence of arguments passed to [log.Printf]. *)
Fixpoint print_rows (budget : nat) (tmp : list sortable) (i displaycount : Z)
    (out : list gostring) : result (list gostring) :=
  if i <=? displaycount then
    match budget with
    | O => OutOfFuel
    | S budget' =>
        s ← index tmp (Z.of_nat (length tmp) - i);
        print_rows budget' tmp (i + 1) displaycount (out ++ [line s])
    end
  else Ok out.

(** The loop [for q, c := range qbuf] that fills [tmp], and
    [handleStatusUpdate(displaycount int, sortby string, cutoff int)] from
    that loop on.  [start] is the package variable,
    [unix_now] the value of [UnixNow()], and [entries] the key/value pairs of
    [qbuf] in the order in which [range qbuf] yields them (Go leaves that
    order unspecified).  The status bar printed before the rows does not
    depend on them and is left out. *)
Definition collect_rows (lib : golib) (elapsed : float64) (sortby : gostring)
    (cutoff : Z) (entries : list (gostring * queryData)) : list sortable :=
  omap (fun '(q, c) => status_row lib elapsed sortby cutoff q c) entries.

Definition handleStatusUpdate (lib : golib) (start unix_now : Z)
    (entries : list (gostring * queryData)) (displaycount : Z)
    (sortby : gostring) (cutoff : Z) : result (list gostring) :=
  let elapsed := f64_of_Z (int64 (unix_now - start)) in
  let tmp := collect_rows lib elapsed sortby cutoff entries in
  let tmp := sort_Sort lib tmp in
  let displaycount :=
    if Z.of_nat (length tmp) <? displaycount then Z.of_nat (length tmp)
    else displaycount in
  print_rows (Z.to_nat displaycount) tmp 1 displaycount [].

(** ** handlePacket *)

Definition uint16 (x : Z) : Z := x mod 2 ^ 16.

(** [strings.Index(s, substr)]: the offset of the first instance, or -1. *)
Definition Index (s substr : gostring) : Z :=
  match cut s substr with
  | Some (a, _) => Z.of_nat (length a)
  | None => -1
  end.

(** The byte ['0' + k]. *)
Definition digit (k : Z) : byte :=
  match Byte.of_N (Z.to_N (48 + k)) with Some b => b | None => "0"%byte end.

(** An unsigned integer under [%d], as [fmt] writes it: the loop
    [for u >= 10 { buf[i] = '0' + u%10; u /= 10 }; buf[i] = '0' + u], which
    fills the buffer from its end.  A [uint64] has at most 20 digits. *)
Fixpoint decimal_loop (budget : nat) (u : Z) (buf : gostring) : gostring :=
  match budget with
  | O => buf
  | S budget' =>
      if 10 <=? u then decimal_loop budget' (u / 10) (digit (u mod 10) :: buf)
      else digit u :: buf
  end.

Definition decimal (u : Z) : gostring := decimal_loop 20 u [].

(** The address of an IPv4 layer: gopacket slices four bytes out of the
    header.  [IP_String] is [net.IP.String] on such an address. *)
Record IP : Type := IPv4addr {
  ip_a : byte;
  ip_b : byte;
  ip_c : byte;
  ip_d : byte
}.

Definition IP_String (ip : IP) : gostring :=
  decimal (u8 (ip_a ip)) ++ str "." ++ decimal (u8 (ip_b ip)) ++ str "."
  ++ decimal (u8 (ip_c ip)) ++ str "." ++ decimal (u8 (ip_d ip)).

(** What [handlePacket] reads of [layers.IPv4] and [layers.TCP]; a port is
    a [uint16]. *)
Record IPv4 : Type := IPv4Layer {
  SrcIP : IP;
  DstIP : IP
}.

Record TCP : Type := TCPLayer {
  SrcPort : Z;
  DstPort : Z;
  Payload : list byte
}.

(** A captured packet: the two layers [pkt.Layer] finds, [None] where it
    returns [nil]. *)
Record Packet : Type := CapturedPacket {
  ipLayer : option IPv4;
  tcpLayer : option TCP
}.

(** The package-level state [handlePacket] works on: the variables of
    [globals] and the flow table [chmap].  A flow is mutated through the
    pointer the table holds, so the table always holds its latest value. *)
Record program : Type := Program {
  vars : globals;
  chmap : gmap gostring source
}.

Definition set_streams (n : Z) (g : globals) : globals :=
  Globals (qbuf g) (querycount g) (gtimes g) (packets_rcvd g)
          (packets_rcvd_sync g) (desyncs g) n.

(** [fmt.Sprintf("%s:%d", ip, port)] *)
Definition Sprintf_addr (ip : IP) (p : Z) : gostring :=
  IP_String ip ++ str ":" ++ decimal p.

(** Lines 462-472: the key of the flow, always the remote end, and the
    direction. *)
Definition flow_of (port : Z) (ip : IPv4) (tcp : TCP) : result (gostring * bool) :=
  if uint16 (SrcPort tcp) =? port then
    Ok (Sprintf_addr (DstIP ip) (uint16 (DstPort tcp)), false)
  else if uint16 (DstPort tcp) =? port then
    Ok (Sprintf_addr (SrcIP ip) (uint16 (SrcPort tcp)), true)
  else Fatal.

(** Lines 475-481: the flow of a key, created on first sight. *)
Definition flow_lookup (p : program) (src_ : gostring) : result (globals * source) :=
  match chmap p !! src_ with
  | Some rs => Ok (vars p, rs)
  | None =>
      srcip_ ← subslice src_ 0 (Index src_ (str ":"));
      Ok (set_streams (uint64 (streams (vars p) + 1)) (vars p),
          new_source src_ srcip_)
  end.

(** [handlePacket(pkt gopacket.Packet)], with the package variable [port],
    and the clock reading and random draw that [processPacket] uses. *)
Definition handlePacket (cfg : config) (port : Z) (p : program) (pkt : Packet)
    (now : Z) (randn : nat) : result program :=
  match ipLayer pkt with
  | None => Ok p
  | Some ip =>
      match tcpLayer pkt with
      | None => Ok p
      | Some tcp =>
          if Z.of_nat (length (Payload tcp)) <=? 0 then Ok p
          else
            '(src_, request) ← flow_of port ip tcp;
            '(g, rs) ← flow_lookup p src_;
            '(g, rs) ← processPacket cfg g rs request (Payload tcp) now randn;
            Ok (Program g (<[src_ := rs]> (chmap p)))
      end
  end.

(** One iteration of [for pkt := range packetSource.Packets()] in [main]. *)
Record capture : Type := Capture {
  cap_pkt : Packet;
  cap_now : Z;
  cap_randn : nat
}.

(** The calls of [handlePacket] made by the loop of [main], in order; the
    periodic report in between reads the state and leaves it as it is. *)
Fixpoint handlePackets (cfg : config) (port : Z) (p : program)
    (caps : list capture) : result program :=
  match caps with
  | [] => Ok p
  | c :: caps' =>
      p ← handlePacket cfg port p (cap_pkt c) (cap_now c) (cap_randn c);
      handlePackets cfg port p caps'
  end.

(** ** parseFormat *)

(** The format string is taken to be ASCII, as the placeholders and the
    texts of the usage message are: [range formatstr] then yields its bytes
    one by one, [string(char)] is that byte, and [strings.TrimSpace] and
    [strings.ToLower] work byte by byte. *)
Definition ascii_text (s : gostring) : Prop := Forall (fun c => u8 c < 128) s.

(** [strings.TrimSpace]: the white space of ASCII is tab, newline,
    vertical tab, form feed, carriage return and space. *)
Fixpoint trim_left (s : gostring) : gostring :=
  match s with
  | [] => []
  | c :: s' => if is_space (u8 c) then trim_left s' else s
  end.

Definition TrimSpace (s : gostring) : gostring :=
  reverse (trim_left (reverse (trim_left s))).

(** [strings.ToLower] on one ASCII byte. *)
Definition to_lower (c : byte) : byte :=
  if (65 <=? u8 c) && (u8 c <=? 90)
  then match Byte.of_N (Z.to_N (u8 c + 32)) with Some b => b | None => c end
  else c.

(** The local variables of the loop, with [format] as far as it is built. *)
Record parse_state : Type := ParseState {
  ps_format : list format_item;
  is_special : bool;
  curstr : gostring
}.

(** The [switch strings.ToLower(string(char))]: the code to append, or
    [F_NONE] in the default case. *)
Definition placeholder (char : byte) : format_code :=
  let l := to_lower char in
  if decide (l = "s"%byte) then F_SOURCE
  else if decide (l = "i"%byte) then F_SOURCEIP
  else if decide (l = "r"%byte) then F_ROUTE
  else if decide (l = "q"%byte) then F_QUERY
  else F_NONE.

(** One iteration of [for _, char := range formatstr]. *)
Definition parse_step (st : parse_state) (char : byte) : parse_state :=
  if decide (char = "#"%byte) then
    if is_special st then ParseState (ps_format st) false (curstr st ++ [char])
    else ParseState (ps_format st) true (curstr st)
  else
    let '(do_append, cur) :=
      if is_special st then
        match placeholder char with
        | F_NONE => (F_NONE, curstr st ++ str "#" ++ [char])
        | code => (code, curstr st)
        end
      else (F_NONE, curstr st ++ [char]) in
    match do_append with
    | F_NONE => ParseState (ps_format st) false cur
    | code =>
        match cur with
        | [] => ParseState (ps_format st ++ [ItemInt code]) false cur
        | _ :: _ =>
            ParseState (ps_format st ++ [ItemString cur; ItemInt code]) false []
        end
    end.

(** What is appended after the loop: the text still held, unless empty. *)
Definition parse_finish (st : parse_state) : list format_item :=
  match curstr st with
  | [] => ps_format st
  | _ :: _ => ps_format st ++ [ItemString (curstr st)]
  end.

(** [parseFormat(formatstr string)]: [format0] is the package variable
    [format] before the call, the value the one after it. *)
Definition parseFormat (format0 : list format_item) (formatstr : gostring)
    : list format_item :=
  let formatstr := TrimSpace formatstr in
  let formatstr := match formatstr with [] => str "#b:#k" | _ :: _ => formatstr end in
  parse_finish (fold_left parse_step formatstr (ParseState format0 false [])).

(** Lines 129-133 of [main]: the package variables set from the flags. *)
Definition configure (doverbose nocleanquery ldirty : bool) (formatstr : gostring)
    : config :=
  Config doverbose nocleanquery ldirty (parseFormat [] formatstr).

(** ** sortableSlice *)

(** The three methods that make a [sortableSlice] a [sort.Interface]:
    [Len], [Less] on two indices, and [Swap], whose value is the slice after
    the exchange.  An index out of range panics. *)
Definition Len (self : list sortable) : Z := Z.of_nat (length self).

Definition Less_at (self : list sortable) (i j : Z) : result bool :=
  a ← index self i;
  b ← index self j;
  Ok (Less a b).

Definition Swap (self : list sortable) (i j : Z) : result (list sortable) :=
  a ← index self j;
  b ← index self i;
  Ok (<[Z.to_nat j := b]> (<[Z.to_nat i := a]> self)).

(** ** Definitions used to state the properties *)

(** The 3-byte little-endian length field at the front of a buffer. *)
Definition declared_length (buf : list byte) : Z :=
  match buf with
  | b0 :: b1 :: b2 :: _ => u8 b0 + 2 ^ 8 * u8 b1 + 2 ^ 16 * u8 b2
  | _ => 0
  end.

(** The payload as the framing sentence of the specification words it:
    the [L] bytes at offsets [5 .. 5+L-1]. *)
Definition payload_as_worded (buf : list byte) : list byte :=
  take (Z.to_nat (declared_length buf)) (drop 5 buf).

(** The new contents of the buffer variable after [n] bytes are consumed:
    [nil] when nothing is left. *)
Definition remainder (n : nat) (buf : list byte) : slice :=
  if (length buf <=? n)%nat then None else Some (drop n buf).

(** A request chunk that carves a frame whose command byte is [COM_QUERY]. *)
Definition carves_query (data : list byte) : bool :=
  match carvePacket (Some data) with
  | Ok (ptype, _, _) => ptype =? COM_QUERY
  | _ => false
  end.

(** The call that synchronizes an unsynchronized flow. *)
Definition sync_call (e : event) : bool := ev_request e && carves_query (ev_data e).

(** The items [parseFormat] can produce: the four placeholders and text. *)
Definition format_item_ok (item : format_item) : Prop :=
  match item with
  | ItemInt F_NONE => False
  | ItemInt _ => True
  | ItemString _ => True
  | _ => False
  end.

Definition format_ok (cfg : config) : Prop := Forall format_item_ok (format cfg).

(** Tokenization is on unless both [verbose] and [noclean] are set. *)
Definition tokenizing (cfg : config) : Prop := verbose cfg && noclean cfg = false.

(** The frame of the specification's example: length 3, sequence id 0,
    command 3, followed by the text. *)
Definition frame_SELECT : list byte :=
  [x03; x00; x00; x00; x03] ++ str "SELECT".

(** The tokens of a query: [scanToken] applied to what is left of the
    input, over and over.  Each token is its text and its type. *)
Fixpoint tokenize (cfg : config) (budget : nat) (q : list byte)
    : list (gostring * Z) :=
  match budget with
  | O => []
  | S budget' =>
      match q with
      | [] => []
      | _ :: _ =>
          match scanToken cfg q with
          | Ok (n, ty) => (take n q, ty) :: tokenize cfg budget' (drop n q)
          | _ => []
          end
      end
  end.

Definition tokens (cfg : config) (q : list byte) : list (gostring * Z) :=
  tokenize cfg (length q) q.

(** What the canonical text holds for a token: word and other tokens
    verbatim, [?] for a quoted or numeric literal, one space for a run of
    whitespace. *)
Definition canonical_piece (t : gostring * Z) : gostring :=
  let '(text, ty) := t in
  if (ty =? TOKEN_WORD) || (ty =? TOKEN_OTHER) then text
  else if (ty =? TOKEN_NUMBER) || (ty =? TOKEN_QUOTE) then str "?"
  else str " ".

Definition token_type (ty : Z) : Prop :=
  ty = TOKEN_WORD \/ ty = TOKEN_QUOTE \/ ty = TOKEN_NUMBER
  \/ ty = TOKEN_WHITESPACE \/ ty = TOKEN_OTHER.

(** The route rewrite as a function of the joined text. *)
Definition shorten_route (tmp : gostring) : gostring :=
  match SplitN tmp (str " ") 5 with
  | [p0; p1; p2; p3; p4] =>
      if decide (p1 = str "/*" /\ p3 = str "*/") then
        match cut p2 (str ":") with
        | Some (_, route) => p0 ++ str " /* " ++ route ++ str " */ " ++ p4
        | None => tmp
        end
      else tmp
  | _ => tmp
  end.

(** The end of a quoted literal when a backslash escapes exactly the next
    byte, whatever that byte is. *)
Fixpoint quote_end_escaping_next (delim : Z) (rest : list byte) (i n : nat) : nat :=
  match rest with
  | [] => n
  | c :: rest' =>
      if u8 c =? 92 then
        match rest' with
        | [] => n
        | _ :: rest'' => quote_end_escaping_next delim rest'' (S (S i)) n
        end
      else if u8 c =? delim then (i + 1)%nat
      else quote_end_escaping_next delim rest' (S i) n
  end.

(** Whether a backslash immediately follows a backslash; [after_bs] tells
    that the byte before was a backslash. *)
Fixpoint doubled_backslash_from (after_bs : bool) (l : list byte) : bool :=
  match l with
  | [] => false
  | c :: l' => (after_bs && (u8 c =? 92)) || doubled_backslash_from (u8 c =? 92) l'
  end.

(** The default configuration: no flag set, format [#s:#q]. *)
Definition default_config : config :=
  Config false false false [ItemInt F_SOURCE; ItemString (str ":"); ItemInt F_QUERY].

(** The filled slots of a sample array: zero means never filled. *)
Definition filled (timings : list Z) : list Z := filter (fun v : Z => v <> 0) timings.

Definition sumZ (l : list Z) : Z := foldr Z.add 0 l.

(** A value of type [[TIME_BUCKETS]uint64]. *)
Definition sample_array (timings : list Z) : Prop :=
  length timings = TIME_BUCKETS /\ Forall (fun v => 0 <= v < 2 ^ 64) timings.

(** What the accumulators of [calculateTimes] hold once the slots [nz]
    have been counted. *)
Definition summarizes (nz : list Z) (a : times_acc) : Prop :=
  counts a = uint64 (Z.of_nat (length nz)) /\
  total a = uint64 (sumZ nz) /\
  has_min a = negb (bool_decide (nz = [])) /\
  (nz = [] -> min_ a = 0 /\ max_ a = 0) /\
  (nz <> [] ->
   In (min_ a) nz /\ In (max_ a) nz /\ Forall (fun v => min_ a <= v <= max_ a) nz).

(** A sample array with one filled slot. *)
Definition one_sample : list Z := <[7%nat := 5000000]> (replicate TIME_BUCKETS 0).

(** [rs.reqbuffer, rs.resbuffer = nil, nil] *)
Definition clear_buffers (rs : source) : source :=
  set_resbuffer None (set_reqbuffer None rs).

(** The counters of [stats] after one call of [processPacket]: the packet
    is counted, once more when the flow was synchronized, and a desync is
    counted when a request found a response buffer. *)
Definition count_call (request : bool) (rs : source) (g : globals) : globals :=
  let g := set_packets_rcvd (uint64 (packets_rcvd g + 1)) g in
  let g := if synced rs
           then set_packets_rcvd_sync (uint64 (packets_rcvd_sync g + 1)) g
           else g in
  match resbuffer rs with
  | Some _ => if request then set_desyncs (uint64 (desyncs g + 1)) g else g
  | None => g
  end.

(** The flow after the first part of a request call: a response buffer
    found is dropped with the synchronization, and the request buffer holds
    what [carvePacket] left of the chunk. *)
Definition after_carve (buf : slice) (rs : source) : source :=
  set_reqbuffer buf
    match resbuffer rs with
    | Some _ => set_synced false (set_resbuffer None rs)
    | None => rs
    end.

(** The state before the first packet, and a flow just created. *)
Definition globals_zero : globals :=
  Globals ∅ 0 (replicate TIME_BUCKETS 0) 0 0 0 0.

Definition flow_zero : source := new_source (str "10.0.0.1:5000") (str "10.0.0.1").

(** A response chunk, then a request chunk too short to hold a frame. *)
Definition calls_before_sync : list event :=
  [Event false (str "x") 0 0; Event true (str "abc") 1 0].

Definition call_query : event := Event true frame_SELECT 2 0.

(** [elapsed := float64(UnixNow() - start)] *)
Definition elapsed_seconds (start unix_now : Z) : float64 :=
  f64_of_Z (int64 (unix_now - start)).

(** Requests per second of an aggregate: count divided by elapsed seconds. *)
Definition qps_of (elapsed : float64) (c : queryData) : float64 :=
  f64_div (f64_of_Z (count c)) elapsed.

(** Average bytes per request, as the [uint64] the report shows. *)
Definition bavg_of (lib : golib) (c : queryData) : Z :=
  f64_to_uint64 lib (f64_div (f64_of_Z (bytes c)) (f64_of_Z (count c))).

(** The sort metric of an aggregate for a sort key: the count unless the
    key is [avg], [max], [maxbytes] or [avgbytes]. *)
Definition sort_metric (lib : golib) (sortby : gostring) (c : queryData) : float64 :=
  if decide (sortby = str "avg") then (calculateTimes (times c)).1.2
  else if decide (sortby = str "max") then (calculateTimes (times c)).2
  else if decide (sortby = str "maxbytes") then f64_of_Z (bytes c)
  else if decide (sortby = str "avgbytes") then f64_of_Z (bavg_of lib c)
  else f64_of_Z (count c).

(** The (metric, line) pair of an aggregate. *)
Definition row_of (lib : golib) (elapsed : float64) (sortby q : gostring)
    (c : queryData) : sortable :=
  Sortable (sort_metric lib sortby c)
           (Sprintf_row lib (count c) (qps_of elapsed c)
              (calculateTimes (times c)).1.1 (calculateTimes (times c)).1.2
              (calculateTimes (times c)).2 (bytes c) (bavg_of lib c) q).

(** Ascending by metric: no element is less than one before it.
    Descending: no element is less than one after it. *)
Definition ascending (l : list sortable) : Prop :=
  StronglySorted (fun a b => Less b a = false) l.
Definition descending (l : list sortable) : Prop :=
  StronglySorted (fun a b => Less a b = false) l.

(** A stable sort, ascending by [Less]: insertion from the right, each
    element put before the first one that is not less than it. *)
Fixpoint insert_stable (x : sortable) (l : list sortable) : list sortable :=
  match l with
  | [] => [x]
  | y :: l' => if Less y x then y :: insert_stable x l' else x :: l
  end.

Definition stable_sort (l : list sortable) : list sortable :=
  foldr insert_stable [] l.

(** A stand-in for the Go libraries: a sort, a row rendered as its key,
    and the amd64 result of an unrepresentable conversion. *)
Definition lib_example : golib :=
  GoLib stable_sort (fun _ _ _ _ _ _ _ q => q) (fun _ => 2 ^ 63).

(** A registry of three aggregates. *)
Definition qbuf_example : gmap gostring queryData :=
  <[str "a" := QueryData 5 100 (replicate TIME_BUCKETS 0)]>
    (<[str "b" := QueryData 9 50 one_sample]>
       (<[str "c" := QueryData 1 10 (replicate TIME_BUCKETS 0)]> ∅)).

(** *** For the properties of the code beyond the flow step *)

(** ** Definitions used to state the properties of the tokenizer *)

(** The bytes a token of a type is made of, for the three types that are
    runs of a class of bytes. *)
Definition class_of (ty : Z) (c : Z) : bool :=
  if ty =? TOKEN_NUMBER then is_digit c
  else if ty =? TOKEN_WHITESPACE then is_space c
  else if ty =? TOKEN_WORD then is_word_byte c
  else false.

(** The byte at [i] is the delimiter and the byte before it is no
    backslash. *)
Definition closes_quote (delim : Z) (q : list byte) (i : nat) : Prop :=
  exists c p : byte,
    q !! i = Some c /\ u8 c = delim /\ q !! (i - 1)%nat = Some p /\ u8 p <> 92.

(** ** Definitions used to state the properties of the canonical text *)

(** A byte that may show in a canonical text: no quote character, and no
    white space but the space itself. *)
Definition canonical_byte (c : byte) : Prop :=
  is_quote (u8 c) = false /\ (is_space (u8 c) = true -> c = " "%byte).

(** Tokenization switched off: [-v] and [-n] together. *)
Definition verbatim_config : config :=
  Config true true false [ItemInt F_SOURCE; ItemString (str ":"); ItemInt F_QUERY].

(** ** Definitions used to state the properties of the packet loop *)

(** [qdata.count++; qdata.bytes += plen] *)
Definition count_request (plen : Z) (d : queryData) : queryData :=
  QueryData (uint64 (count d + 1)) (uint64 (bytes d + plen)) (times d).

(** The pointer [rs.qdata], when set, is the aggregate registered under the
    flow's last text. *)
Definition flow_registered (g : globals) (rs : source) : Prop :=
  match qdata rs with
  | Some key => key = qtext rs /\ is_Some (qbuf g !! key)
  | None => True
  end.

(** The request counts of the registry, key by key. *)
Definition count_of (m : gmap gostring queryData) : gmap gostring Z := count <$> m.

(** A frame with command byte 14 (a ping) and no argument. *)
Definition frame_PING : list byte := [x01; x00; x00; x00; x0e].

(** A flow that is synchronized. *)
Definition flow_synced : source :=
  Source (str "10.0.0.1:5000") (str "10.0.0.1") true None None None
         (replicate TIME_BUCKETS 0) 0 None [].

(** A text without the space byte. *)
Definition no_space (s : gostring) : Prop := Forall (fun c => c <> " "%byte) s.

(** A packet that [handlePacket] passes on: both layers are there and the
    TCP payload is not empty. *)
Definition carries_data (pkt : Packet) : bool :=
  match ipLayer pkt, tcpLayer pkt with
  | Some _, Some tcp => negb (length (Payload tcp) =? 0)%nat
  | _, _ => false
  end.

(** A packet the capture filter [tcp port <port>] lets through, as far as
    [handlePacket] looks: one end is the port, when the packet carries data. *)
Definition on_port (port : Z) (pkt : Packet) : bool :=
  match ipLayer pkt, tcpLayer pkt with
  | Some _, Some tcp =>
      (length (Payload tcp) =? 0)%nat
      || (uint16 (SrcPort tcp) =? port) || (uint16 (DstPort tcp) =? port)
  | _, _ => true
  end.

(** The state when [main] starts: no flow, no aggregate, every counter 0. *)
Definition program_zero : program := Program globals_zero ∅.

(** A flow filed in [chmap] under its own key [address:port], its [srcip]
    being the address. *)
Definition flow_filed (k : gostring) (rs : source) : Prop :=
  src rs = k /\
  exists (addr : IP) (pt : Z),
    0 <= pt < 2 ^ 16 /\ k = Sprintf_addr addr pt /\ srcip rs = IP_String addr.

(** A client at 10.0.0.1:5000 sends the example frame to port 3306 and is
    answered. *)
Definition client_addr : IP := IPv4addr x0a x00 x00 x01.
Definition server_addr : IP := IPv4addr x0a x00 x00 x02.

Definition pkt_request : Packet :=
  CapturedPacket (Some (IPv4Layer client_addr server_addr))
                 (Some (TCPLayer 5000 3306 frame_SELECT)).

Definition pkt_response : Packet :=
  CapturedPacket (Some (IPv4Layer server_addr client_addr))
                 (Some (TCPLayer 3306 5000 (str "ok"))).

Definition caps_example : list capture :=
  [Capture pkt_request 100 0; Capture pkt_response 250 7].

(** The number of captures that carry data. *)
Fixpoint data_packets (caps : list capture) : Z :=
  match caps with
  | [] => 0
  | c :: caps' =>
      (if carries_data (cap_pkt c) then 1 else 0) + data_packets caps'
  end.

(** The sum of a map of counts. *)
Definition sum_counts (cm : gmap gostring Z) : Z :=
  map_fold (fun (_ : gostring) (c acc : Z) => c + acc) 0 cm.

(** ** Definitions used to state the properties of parseFormat *)

(** A format in the form [parseFormat] builds: placeholders and non-empty
    texts, no two texts in a row.  [after_text] tells that the item before
    was a text. *)
Fixpoint canonical_from (after_text : bool) (items : list format_item) : Prop :=
  match items with
  | [] => True
  | ItemString s :: rest => s <> [] /\ after_text = false /\ canonical_from true rest
  | ItemInt code :: rest => code <> F_NONE /\ canonical_from false rest
  | _ :: _ => False
  end.

Definition canonical_format (items : list format_item) : Prop :=
  canonical_from false items.

(** Whether a format ends in a text. *)
Fixpoint ends_in_text (after_text : bool) (items : list format_item) : bool :=
  match items with
  | [] => after_text
  | ItemString _ :: rest => ends_in_text true rest
  | _ :: rest => ends_in_text false rest
  end.

(** A format written as a format string: a placeholder as [#] and its
    letter, a text with every [#] doubled. *)
Definition escape (s : gostring) : gostring :=
  flat_map (fun c => if decide (c = "#"%byte) then str "##" else [c]) s.

Definition code_letter (code : format_code) : gostring :=
  match code with
  | F_NONE => []
  | F_QUERY => str "#q"
  | F_ROUTE => str "#r"
  | F_SOURCE => str "#s"
  | F_SOURCEIP => str "#i"
  end.

Definition render_item (item : format_item) : gostring :=
  match item with
  | ItemInt code => code_letter code
  | ItemString s => escape s
  | _ => []
  end.

Definition render (items : list format_item) : gostring :=
  concat (map render_item items).

(** ** Definitions used to state the desync rule and the order of the report *)

(** Two queries sent back to back by the client, then two replies: a
    pipelined request and a duplicate response. *)
Definition caps_pipelined : list capture :=
  [Capture pkt_request 100 0; Capture pkt_request 110 1;
   Capture pkt_response 250 7; Capture pkt_response 260 8].

(** Descending by metric, the metrics compared as IEEE-754 numbers: no
    element has a metric less than that of a later one. *)
Definition metric_descending (l : list sortable) : Prop :=
  StronglySorted (fun a b => SFltb (value a) (value b) = false) l.

(** A sort that meets the contract of [sort.Sort] without being stable:
    the slice is read backwards before it is sorted, so that rows of equal
    metric come out in the reverse of the order they went in. *)
Definition sort_backwards (l : list sortable) : list sortable :=
  stable_sort (reverse l).

Definition lib_backwards : golib :=
  GoLib sort_backwards (fun _ _ _ _ _ _ _ q => q) (fun _ => 2 ^ 63).

(** Two aggregates with the same count, in the order [range qbuf] yields
    them. *)
Definition entries_tie : list (gostring * queryData) :=
  [(str "a", QueryData 5 100 (replicate TIME_BUCKETS 0));
   (str "b", QueryData 5 50 (replicate TIME_BUCKETS 0))].

Definition qbuf_tie : gmap gostring queryData := list_to_map entries_tie.

(** ** The canonical text in the words of the specification *)

(** The classes of bytes, written out: the two quote delimiters, the ten
    digits, the space and the control codes 9 to 13, the letters, and what
    a word may hold after its first letter. *)
Definition quote_bytes : list byte := ["'"%byte; x22].
Definition digit_bytes : list byte := str "0123456789".
Definition space_bytes : list byte := [" "%byte; x09; x0a; x0b; x0c; x0d].
Definition letter_bytes : list byte :=
  str "ABCDEFGHIJKLMNOPQRSTUVWXYZabcdefghijklmnopqrstuvwxyz".
Definition word_bytes : list byte := letter_bytes ++ digit_bytes ++ str "$_".

Definition among (class : list byte) (c : byte) : bool := bool_decide (c ∈ class).

(** The longest run of bytes of a class at the front of a text, and what
    follows that run. *)
Fixpoint run_of (class : list byte) (s : list byte) : list byte :=
  match s with
  | c :: s' => if among class c then c :: run_of class s' else []
  | [] => []
  end.

Fixpoint after_run_of (class : list byte) (s : list byte) : list byte :=
  match s with
  | c :: s' => if among class c then after_run_of class s' else s
  | [] => []
  end.

(** What follows a quoted literal, [s] being the text after its opening
    delimiter: the literal ends with the first [delim] that no backslash
    directly precedes, or with the text.  [escaped] tells that the byte
    before [s] is a backslash. *)
Fixpoint after_literal (delim : byte) (escaped : bool) (s : list byte) : list byte :=
  match s with
  | c :: s' =>
      if decide (c = delim) then
        if escaped then after_literal delim false s' else s'
      else after_literal delim (bool_decide (c = "\"%byte)) s'
  | [] => []
  end.

(** The tokens of a query, each written as the canonical text has it: a
    quoted literal and a run of digits as [?], a run of white space as one
    space, a word (a letter and the run of word bytes after it) and any
    other byte as they are.  [budget] bounds the number of tokens. *)
Fixpoint replace_tokens (budget : nat) (q : list byte) : list byte :=
  match budget, q with
  | S budget', b :: rest =>
      if among quote_bytes b then
        "?"%byte :: replace_tokens budget' (after_literal b false rest)
      else if among digit_bytes b then
        "?"%byte :: replace_tokens budget' (after_run_of digit_bytes rest)
      else if among space_bytes b then
        " "%byte :: replace_tokens budget' (after_run_of space_bytes rest)
      else if among letter_bytes b then
        b :: run_of word_bytes rest ++ replace_tokens budget' (after_run_of word_bytes rest)
      else b :: replace_tokens budget' rest
  | _, _ => []
  end.

(** The text before the first [sep] and the text after it. *)
Fixpoint split_at (sep : byte) (s : list byte) : option (list byte * list byte) :=
  match s with
  | [] => None
  | c :: s' =>
      if decide (c = sep) then Some ([], s')
      else match split_at sep s' with
           | Some (a, b) => Some (c :: a, b)
           | None => None
           end
  end.

(** The route annotation shortened: when the text has five fields, split
    at its first four spaces, of which the second is [/*] and the fourth
    [*/], and the third holds a colon, the third loses everything up to and
    including its first colon. *)
Definition shorten_annotation (t : list byte) : list byte :=
  match split_at " " t with
  | Some (f0, t1) =>
      match split_at " " t1 with
      | Some (f1, t2) =>
          match split_at " " t2 with
          | Some (f2, t3) =>
              match split_at " " t3 with
              | Some (f3, f4) =>
                  if decide (f1 = str "/*" /\ f3 = str "*/") then
                    match split_at ":" f2 with
                    | Some (_, route) =>
                        f0 ++ str " /* " ++ route ++ str " */ " ++ f4
                    | None => t
                    end
                  else t
              | None => t
              end
          | None => t
          end
      | None => t
      end
  | None => t
  end.

(** Every [?, ] removed, reading from left to right; what is read after a
    removal is the text after the removed bytes. *)
Fixpoint remove_placeholders (t : list byte) : list byte :=
  match t with
  | [] => []
  | c1 :: t1 =>
      match t1 with
      | c2 :: c3 :: t3 =>
          if decide (c1 = "?"%byte /\ c2 = ","%byte /\ c3 = " "%byte)
          then remove_placeholders t3
          else c1 :: remove_placeholders t1
      | _ => c1 :: remove_placeholders t1
      end
  end.

(** [canonicalize] as the specification words it. *)
Definition canonicalize (query : list byte) : list byte :=
  remove_placeholders (shorten_annotation (replace_tokens (length query) query)).

(** ** Definitions used to state when a canonical text is final *)

(** A token that the canonical text holds as it is: no quoted literal, no
    run of digits, and of white space only a single space. *)
Definition kept_token (t : gostring * Z) : Prop :=
  snd t <> TOKEN_QUOTE /\ snd t <> TOKEN_NUMBER /\
  (snd t = TOKEN_WHITESPACE -> fst t = str " ").

(** A route annotation that still names a host: the text starts with a
    field, [/*], a field that holds a colon, and [*/], each followed by one
    space. *)
Definition has_annotation_host (y : gostring) : Prop :=
  exists f0 f2 f4 : gostring,
    no_space f0 /\ no_space f2 /\ ":"%byte ∈ f2 /\
    y = f0 ++ str " /* " ++ f2 ++ str " */ " ++ f4.

(** The text holds [?, ] somewhere. *)
Definition has_placeholder_comma (y : gostring) : Prop :=
  exists a b : gostring, y = a ++ str "?, " ++ b.

(** * Properties *)

(** ** Run-time model *)

Lemma u8_range (b : byte) : 0 <= u8 b < 256.
Proof.
  unfold u8. pose proof (Byte.to_N_bounded b) as H. lia.
Qed.

Lemma index_lookup {A : Type} (l : list A) (i : nat) (x : A) :
  l !! i = Some x -> index l (Z.of_nat i) = Ok x.
Proof.
  intros H. unfold index.
  pose proof (lookup_lt_Some _ _ _ H) as Hlt.
  replace (0 <=? Z.of_nat i) with true by (symmetry; apply Z.leb_le; lia).
  replace (Z.of_nat i <? Z.of_nat (length l)) with true
    by (symmetry; apply Z.ltb_lt; lia).
  cbn [andb]. rewrite Nat2Z.id, H. reflexivity.
Qed.

Lemma index_at {A : Type} (l : list A) (i : Z) (x : A) :
  0 <= i -> l !! Z.to_nat i = Some x -> index l i = Ok x.
Proof.
  intros Hi H. rewrite <- (Z2Nat.id i) by assumption. apply index_lookup, H.
Qed.

(** Reading [l[i]] where the element is known: the index check passes and
    the bind goes on with the element. *)
Ltac index_known i x :=
  rewrite (index_at _ i x) by (reflexivity || lia); cbn [mbind result_bind].

Lemma subslice_Ok {A : Type} (l : list A) (lo hi : Z) :
  0 <= lo <= hi -> hi <= Z.of_nat (length l) ->
  subslice l lo hi = Ok (take (Z.to_nat (hi - lo)) (drop (Z.to_nat lo) l)).
Proof.
  intros [H0 H1] H2. unfold subslice.
  replace (0 <=? lo) with true by (symmetry; apply Z.leb_le; lia).
  replace (lo <=? hi) with true by (symmetry; apply Z.leb_le; lia).
  replace (hi <=? Z.of_nat (length l)) with true by (symmetry; apply Z.leb_le; lia).
  reflexivity.
Qed.

(** ** carvePacket *)

Lemma uint32_small (x : Z) : 0 <= x < 2 ^ 32 -> uint32 x = x.
Proof. intros H. unfold uint32. apply Z.mod_small. lia. Qed.

Lemma carve_size (b0 b1 b2 : byte) :
  uint32 (uint32 (u8 b0 + uint32 (Z.shiftl (u8 b1) 8)) + uint32 (Z.shiftl (u8 b2) 16))
  = u8 b0 + 2 ^ 8 * u8 b1 + 2 ^ 16 * u8 b2.
Proof.
  pose proof (u8_range b0). pose proof (u8_range b1). pose proof (u8_range b2).
  rewrite !Z.shiftl_mul_pow2 by lia.
  rewrite (uint32_small (u8 b1 * 2 ^ 8)) by lia.
  rewrite (uint32_small (u8 b2 * 2 ^ 16)) by lia.
  rewrite (uint32_small (u8 b0 + _)) by lia.
  rewrite uint32_small by lia. lia.
Qed.

Lemma declared_length_range (buf : list byte) : 0 <= declared_length buf < 2 ^ 24.
Proof.
  unfold declared_length.
  destruct buf as [|b0 [|b1 [|b2 ?]]]; try lia.
  pose proof (u8_range b0). pose proof (u8_range b1). pose proof (u8_range b2). lia.
Qed.

(** The behaviour of [carvePacket] on a buffer shorter than 4 GiB. *)
Lemma carvePacket_short (buf : slice) :
  len buf < 5 -> carvePacket buf = Ok (-1, None, buf).
Proof.
  intros H. unfold carvePacket.
  assert (0 <= len buf) by (unfold len; lia).
  rewrite uint32_small by lia.
  destruct (Z.ltb_spec (len buf) 5); [reflexivity | lia].
Qed.

Lemma carvePacket_long (buf : list byte) :
  5 <= Z.of_nat (length buf) < 2 ^ 32 ->
  let L := declared_length buf in
  carvePacket (Some buf) =
    if (L =? 0) || (Z.of_nat (length buf) <? L + 4) then Ok (-1, None, Some buf)
    else
      match buf !! 4%nat with
      | Some b4 =>
          Ok (u8 b4, Some (take (Z.to_nat (L - 1)) (drop 5 buf)),
              remainder (Z.to_nat (L + 4)) buf)
      | None => Panic
      end.
Proof.
  intros Hlen L. subst L.
  pose proof (declared_length_range buf) as HL.
  destruct buf as [|b0 [|b1 [|b2 [|b3 [|b4 rest]]]]];
    try (exfalso; cbn [length] in Hlen; lia).
  set (buf := b0 :: b1 :: b2 :: b3 :: b4 :: rest) in *.
  unfold carvePacket, len. cbn [bytes_of].
  rewrite uint32_small by lia.
  destruct (Z.ltb_spec (Z.of_nat (length buf)) 5) as [?|_]; [lia|].
  rewrite (index_at buf 0 b0), (index_at buf 1 b1), (index_at buf 2 b2)
    by (reflexivity || lia).
  cbn [mbind result_bind].
  rewrite carve_size.
  change (u8 b0 + 2 ^ 8 * u8 b1 + 2 ^ 16 * u8 b2) with (declared_length buf).
  set (L := declared_length buf) in *.
  rewrite (uint32_small (L + 4)) by lia.
  destruct ((L =? 0) || (Z.of_nat (length buf) <? L + 4)) eqn:Hinc; [reflexivity|].
  apply orb_false_iff in Hinc as [HL0 Hfit].
  apply Z.eqb_neq in HL0. apply Z.ltb_ge in Hfit.
  rewrite (index_at buf 4 b4) by (reflexivity || lia).
  rewrite (subslice_Ok buf 5 (L + 4)) by lia.
  cbn [mbind result_bind].
  change (buf !! 4%nat) with (Some b4).
  replace (Z.to_nat (L + 4 - 5)) with (Z.to_nat (L - 1)) by lia.
  change (Z.to_nat 5) with 5%nat.
  unfold remainder.
  destruct (Z.geb_spec (L + 4) (Z.of_nat (length buf))) as [Hge|Hlt].
  - destruct (Nat.leb_spec (length buf) (Z.to_nat (L + 4))); [reflexivity | lia].
  - rewrite subslice_Ok by lia. cbn [mbind result_bind].
    destruct (Nat.leb_spec (length buf) (Z.to_nat (L + 4))); [lia|].
    rewrite (take_ge (drop (Z.to_nat (L + 4)) buf)); [reflexivity|].
    rewrite length_drop. lia.
Qed.

Lemma remainder_bytes (n : nat) (buf : list byte) :
  bytes_of (remainder n buf) = drop n buf.
Proof.
  unfold remainder. destruct (Nat.leb_spec (length buf) n); [|reflexivity].
  cbn [bytes_of]. symmetry. apply drop_ge. lia.
Qed.

(** C1, as amended: for every buffer of at least 5 (and fewer than 2^32)
    bytes whose length field [L] is positive and whose length is at least
    [L+4], [carvePacket] returns byte 4 as the command byte together with
    the payload at offsets [5 .. L+3], that is [L-1] bytes, the frame being
    the first [L+4] bytes; it removes exactly those [L+4] bytes and leaves
    the remainder in the buffer ([nil] when nothing remains). *)
Theorem carve_complete_frame (buf : list byte) :
  5 <= Z.of_nat (length buf) < 2 ^ 32 ->
  0 < declared_length buf ->
  declared_length buf + 4 <= Z.of_nat (length buf) ->
  exists (b4 : byte) (payload : list byte),
    buf !! 4%nat = Some b4 /\
    carvePacket (Some buf)
      = Ok (u8 b4, Some payload,
            remainder (Z.to_nat (declared_length buf + 4)) buf) /\
    payload = take (Z.to_nat (declared_length buf - 1)) (drop 5 buf) /\
    Z.of_nat (length payload) = declared_length buf - 1 /\
    take 5 buf ++ payload = take (Z.to_nat (declared_length buf + 4)) buf /\
    take 5 buf ++ payload
      ++ bytes_of (remainder (Z.to_nat (declared_length buf + 4)) buf) = buf.
Proof.
  intros Hlen HL Hfit.
  pose proof (carvePacket_long buf Hlen) as Hc. cbv zeta in Hc.
  set (L := declared_length buf) in *.
  destruct (Z.eqb_spec L 0) as [?|_]; [lia|].
  destruct (Z.ltb_spec (Z.of_nat (length buf)) (L + 4)) as [?|_]; [lia|].
  cbn [orb] in Hc.
  destruct (buf !! 4%nat) as [b4|] eqn:E4.
  2:{ apply lookup_ge_None in E4. lia. }
  exists b4, (take (Z.to_nat (L - 1)) (drop 5 buf)).
  assert (Hpl : Z.of_nat (length (take (Z.to_nat (L - 1)) (drop 5 buf))) = L - 1).
  { rewrite length_take, length_drop. lia. }
  assert (Hpre : take 5 buf ++ take (Z.to_nat (L - 1)) (drop 5 buf)
                 = take (Z.to_nat (L + 4)) buf).
  { replace (Z.to_nat (L + 4)) with (5 + Z.to_nat (L - 1))%nat by lia.
    apply take_take_drop. }
  repeat split; try assumption; try reflexivity.
  rewrite remainder_bytes, app_assoc, Hpre. apply take_drop.
Qed.


Lemma carve_complete_frame_witness :
  (5 <= Z.of_nat (length frame_SELECT) < 2 ^ 32 /\
   0 < declared_length frame_SELECT /\
   declared_length frame_SELECT + 4 <= Z.of_nat (length frame_SELECT)) /\
  exists (b4 : byte) (payload : list byte),
    frame_SELECT !! 4%nat = Some b4 /\
    carvePacket (Some frame_SELECT)
      = Ok (u8 b4, Some payload,
            remainder (Z.to_nat (declared_length frame_SELECT + 4)) frame_SELECT) /\
    payload = take (Z.to_nat (declared_length frame_SELECT - 1)) (drop 5 frame_SELECT) /\
    Z.of_nat (length payload) = declared_length frame_SELECT - 1 /\
    take 5 frame_SELECT ++ payload
      = take (Z.to_nat (declared_length frame_SELECT + 4)) frame_SELECT /\
    take 5 frame_SELECT ++ payload
      ++ bytes_of (remainder (Z.to_nat (declared_length frame_SELECT + 4)) frame_SELECT)
      = frame_SELECT.
Proof.
  assert (H1 : 5 <= Z.of_nat (length frame_SELECT) < 2 ^ 32) by (simpl; lia).
  assert (H2 : 0 < declared_length frame_SELECT) by (vm_compute; reflexivity).
  assert (H3 : declared_length frame_SELECT + 4 <= Z.of_nat (length frame_SELECT))
    by (vm_compute; discriminate).
  split; [auto|]. exact (carve_complete_frame frame_SELECT H1 H2 H3).
Defined.

(** C1, counterexample: on the frame [3,0,0, 0, 3, "SELECT"] the length
    field is 3 and the buffer holds the whole frame, yet the payload
    returned is the two bytes "SE", not the three bytes at offsets 5..7. *)
Lemma carve_payload_not_as_worded :
  5 <= Z.of_nat (length frame_SELECT) /\
  declared_length frame_SELECT = 3 /\
  declared_length frame_SELECT + 4 <= Z.of_nat (length frame_SELECT) /\
  carvePacket (Some frame_SELECT) = Ok (3, Some (str "SE"), Some (str "LECT")) /\
  payload_as_worded frame_SELECT = str "SEL" /\
  str "SE" <> payload_as_worded frame_SELECT.
Proof.
  repeat split; try (vm_compute; congruence).
Qed.

(** C5: on a buffer of fewer than 2^32 bytes [carvePacket] returns
    normally; it returns [(-1, nil)] exactly when fewer than 5 bytes are
    buffered, or the length field is 0, or fewer than [L+4] bytes are
    buffered, and then the buffer is unchanged. *)
Theorem carve_incomplete_iff (buf : slice) :
  len buf < 2 ^ 32 ->
  exists (ptype : Z) (data buf' : slice),
    carvePacket buf = Ok (ptype, data, buf') /\
    (ptype = -1 <->
       len buf < 5 \/ declared_length (bytes_of buf) = 0
       \/ len buf < declared_length (bytes_of buf) + 4) /\
    (ptype = -1 -> data = None /\ buf' = buf).
Proof.
  intros Hlen.
  destruct (Z.lt_ge_cases (len buf) 5) as [Hs|Hl].
  { exists (-1), None, buf. rewrite carvePacket_short by assumption. tauto. }
  destruct buf as [l|]; [|unfold len in Hl; cbn in Hl; lia].
  unfold len in *. cbn [bytes_of] in *.
  pose proof (carvePacket_long l (conj Hl Hlen)) as Hc. cbv zeta in Hc.
  set (L := declared_length l) in *.
  destruct ((L =? 0) || (Z.of_nat (length l) <? L + 4)) eqn:Hinc.
  - exists (-1), None, (Some l). split; [assumption|]. split; [|tauto].
    split; [intros _|reflexivity].
    apply orb_true_iff in Hinc as [H|H]; [apply Z.eqb_eq in H|apply Z.ltb_lt in H]; tauto.
  - apply orb_false_iff in Hinc as [H0 H1].
    apply Z.eqb_neq in H0. apply Z.ltb_ge in H1.
    destruct (l !! 4%nat) as [b4|] eqn:E4.
    2:{ apply lookup_ge_None in E4. lia. }
    pose proof (u8_range b4).
    eexists _, _, _. split; [exact Hc|]. split; [|lia]. split; lia.
Qed.

Lemma carve_incomplete_iff_witness :
  len (Some (str "abc")) < 2 ^ 32 /\
  exists (ptype : Z) (data buf' : slice),
    carvePacket (Some (str "abc")) = Ok (ptype, data, buf') /\
    (ptype = -1 <->
       len (Some (str "abc")) < 5 \/ declared_length (bytes_of (Some (str "abc"))) = 0
       \/ len (Some (str "abc")) < declared_length (bytes_of (Some (str "abc"))) + 4) /\
    (ptype = -1 -> data = None /\ buf' = Some (str "abc")).
Proof.
  assert (H : len (Some (str "abc")) < 2 ^ 32) by (vm_compute; reflexivity).
  split; [exact H|]. exact (carve_incomplete_iff (Some (str "abc")) H).
Defined.

(** ** scanToken *)

Lemma scan_quote_bounds (sw : Z) (rest : list byte) :
  forall (esc : bool) (i n : nat),
    (i + length rest = n)%nat -> (i <= scan_quote sw esc rest i n <= n)%nat.
Proof.
  induction rest as [|c rest IH]; intros esc i n Hn; cbn [scan_quote length] in *.
  - lia.
  - destruct (u8 c =? sw).
    + destruct esc; [|lia].
      specialize (IH false (S i) n ltac:(lia)). lia.
    + destruct (u8 c =? 92).
      * specialize (IH true (S i) n ltac:(lia)). lia.
      * specialize (IH false (S i) n ltac:(lia)). lia.
Qed.

Lemma scan_number_bounds (rest : list byte) :
  forall (i n : nat),
    (i + length rest = n)%nat -> (i <= scan_number rest i n <= n)%nat.
Proof.
  induction rest as [|c rest IH]; intros i n Hn; cbn [scan_number length] in *.
  - lia.
  - destruct (is_digit (u8 c)); [|lia].
    specialize (IH (S i) n ltac:(lia)). lia.
Qed.

Lemma scan_space_bounds (rest : list byte) :
  forall (i n : nat),
    (i + length rest = n)%nat -> (i <= scan_space rest i n <= n)%nat.
Proof.
  induction rest as [|c rest IH]; intros i n Hn; cbn [scan_space length] in *.
  - lia.
  - destruct (is_space (u8 c)); [|lia].
    specialize (IH (S i) n ltac:(lia)). lia.
Qed.

Lemma scan_word_bounds (rest : list byte) :
  forall (i n : nat),
    (i + length rest = n)%nat -> (i <= scan_word rest i n <= n)%nat.
Proof.
  induction rest as [|c rest IH]; intros i n Hn; cbn [scan_word length] in *.
  - lia.
  - destruct (is_word_byte (u8 c)); [|lia].
    specialize (IH (S i) n ltac:(lia)). lia.
Qed.

(** ** scanToken and the loop of cleanupQuery, for any configuration *)

Section Tokenizer.

Variable cfg : config.

(** [scanToken] on a non-empty input, case by case on the first byte. *)
Lemma scanToken_cons (b0 : byte) (rest : list byte) :
  scanToken cfg (b0 :: rest) =
    let n := S (length rest) in
    if verbose cfg && noclean cfg then Ok (n, TOKEN_OTHER)
    else if is_quote (u8 b0) then Ok (scan_quote (u8 b0) false rest 1 n, TOKEN_QUOTE)
    else if is_digit (u8 b0) then Ok (scan_number rest 1 n, TOKEN_NUMBER)
    else if is_space (u8 b0) then Ok (scan_space rest 1 n, TOKEN_WHITESPACE)
    else if is_alpha (u8 b0) then Ok (scan_word rest 1 n, TOKEN_WORD)
    else Ok (1%nat, TOKEN_OTHER).
Proof.
  unfold scanToken. cbn [length].
  change (S (length rest) <? 1)%nat with false. cbv iota.
  destruct (verbose cfg && noclean cfg); [reflexivity|].
  rewrite (index_at (b0 :: rest) 0 b0) by (reflexivity || lia).
  reflexivity.
Qed.

Lemma scanToken_bounds (b0 : byte) (rest : list byte) :
  exists (n : nat) (ty : Z),
    scanToken cfg (b0 :: rest) = Ok (n, ty) /\
    (1 <= n <= length (b0 :: rest))%nat /\ token_type ty.
Proof.
  rewrite scanToken_cons. cbv zeta. cbn [length]. unfold token_type.
  pose proof (scan_quote_bounds (u8 b0) rest false 1 (S (length rest)) eq_refl).
  pose proof (scan_number_bounds rest 1 (S (length rest)) eq_refl).
  pose proof (scan_space_bounds rest 1 (S (length rest)) eq_refl).
  pose proof (scan_word_bounds rest 1 (S (length rest)) eq_refl).
  destruct (verbose cfg && noclean cfg); [eexists _, _; split; [reflexivity|]; split; [lia|tauto]|].
  destruct (is_quote (u8 b0)); [eexists _, _; split; [reflexivity|]; split; [lia|tauto]|].
  destruct (is_digit (u8 b0)); [eexists _, _; split; [reflexivity|]; split; [lia|tauto]|].
  destruct (is_space (u8 b0)); [eexists _, _; split; [reflexivity|]; split; [lia|tauto]|].
  destruct (is_alpha (u8 b0)); eexists _, _; (split; [reflexivity|]; split; [lia|tauto]).
Qed.

Lemma emit_token_piece (query : list byte) (i n : nat) (ty : Z) :
  token_type ty -> (i + n <= length query)%nat ->
  emit_token query i n ty = Ok (canonical_piece (take n (drop i query), ty)).
Proof.
  intros Hty Hn. unfold emit_token, canonical_piece.
  destruct ((ty =? TOKEN_WORD) || (ty =? TOKEN_OTHER)) eqn:E1.
  - rewrite subslice_Ok by lia. rewrite Nat2Z.id.
    replace (Z.to_nat (Z.of_nat (i + n) - Z.of_nat i)) with n by lia. reflexivity.
  - destruct ((ty =? TOKEN_NUMBER) || (ty =? TOKEN_QUOTE)) eqn:E2; [reflexivity|].
    destruct (ty =? TOKEN_WHITESPACE) eqn:E3; [reflexivity|].
    exfalso. unfold token_type in Hty.
    destruct Hty as [-> | [-> | [-> | [-> | ->]]]]; discriminate.
Qed.

Lemma tokenize_budget :
  forall (b1 b2 : nat) (q : list byte),
    (length q <= b1)%nat -> (length q <= b2)%nat ->
    tokenize cfg b1 q = tokenize cfg b2 q.
Proof.
  induction b1 as [|b1 IH]; intros b2 q H1 H2.
  - destruct q; [|cbn in H1; lia]. destruct b2; reflexivity.
  - destruct q as [|b0 rest]; [destruct b2; reflexivity|].
    destruct b2 as [|b2]; [cbn in H2; lia|].
    cbn [tokenize].
    destruct (scanToken_bounds b0 rest) as (n & ty & -> & Hn & _).
    f_equal. cbn [length] in *.
    apply IH; rewrite length_drop; cbn [length]; lia.
Qed.

Lemma cleanup_loop_tokenize :
  forall (budget : nat) (query : list byte) (i : nat) (qspace : list gostring),
    (length query - i <= budget)%nat ->
    cleanup_loop cfg budget query i qspace
    = Ok (qspace ++ map canonical_piece (tokenize cfg budget (drop i query))).
Proof.
  induction budget as [|budget IH]; intros query i qspace Hb.
  - cbn [cleanup_loop tokenize].
    destruct (Nat.ltb_spec i (length query)); [lia|].
    cbn [map]. rewrite app_nil_r. reflexivity.
  - cbn [cleanup_loop].
    destruct (Nat.ltb_spec i (length query)) as [Hi|Hi].
    2:{ rewrite drop_ge by lia. cbn [tokenize map]. rewrite app_nil_r. reflexivity. }
    destruct (drop i query) as [|b0 rest] eqn:Ed.
    { apply (f_equal length) in Ed. rewrite length_drop in Ed. cbn in Ed. lia. }
    cbn [tokenize].
    destruct (scanToken_bounds b0 rest) as (n & ty & -> & Hn & Hty).
    cbn [mbind result_bind].
    assert (Hlen : length (b0 :: rest) = (length query - i)%nat)
      by (rewrite <- Ed; apply length_drop).
    rewrite emit_token_piece by (assumption || lia).
    cbn [mbind result_bind].
    rewrite IH by lia.
    rewrite Ed, <- (drop_drop query), Ed.
    cbn [map]. rewrite <- app_assoc. reflexivity.
Qed.

Lemma tokenize_concat :
  forall (budget : nat) (q : list byte),
    (length q <= budget)%nat ->
    concat (map fst (tokenize cfg budget q)) = q.
Proof.
  induction budget as [|budget IH]; intros q Hb.
  - destruct q; [reflexivity|cbn in Hb; lia].
  - destruct q as [|b0 rest]; [reflexivity|].
    cbn [tokenize].
    destruct (scanToken_bounds b0 rest) as (n & ty & -> & Hn & _).
    cbn [map fst concat].
    rewrite IH; [apply take_drop|].
    rewrite length_drop. cbn [length] in *. lia.
Qed.

Lemma tokenize_nonempty :
  forall (budget : nat) (q : list byte),
    Forall (fun t => (1 <= length (fst t))%nat /\ token_type (snd t))
           (tokenize cfg budget q).
Proof.
  induction budget as [|budget IH]; intros q; [constructor|].
  destruct q as [|b0 rest]; [constructor|].
  cbn [tokenize].
  destruct (scanToken_bounds b0 rest) as (n & ty & -> & Hn & Hty).
  constructor; [|apply IH].
  cbn [fst snd]. rewrite length_take. split; [lia|assumption].
Qed.

Lemma Join_nil_concat (a : list gostring) : Join a [] = concat a.
Proof.
  induction a as [|x [|y a] IH]; [reflexivity|cbn; rewrite app_nil_r; reflexivity|].
  change (Join (x :: y :: a) []) with (x ++ [] ++ Join (y :: a) []).
  rewrite IH. reflexivity.
Qed.

(** C10: on every non-empty input [scanToken] returns a length between 1
    and the input length; every iteration of the loop of [cleanupQuery]
    therefore moves [i] forward, [len(query)] iterations are enough for the
    loop to finish on every input, and the tokens it visits, one after the
    other, are non-empty and make up the whole input. *)
Theorem tokenizer_advances_and_partitions (query : list byte) :
  (forall (b0 : byte) (rest : list byte),
     exists (n : nat) (ty : Z),
       scanToken cfg (b0 :: rest) = Ok (n, ty) /\
       (1 <= n <= length (b0 :: rest))%nat) /\
  (forall (budget i : nat) (qspace : list gostring),
     (i < length query)%nat ->
     exists (n : nat) (ty : Z) (piece : gostring),
       scanToken cfg (drop i query) = Ok (n, ty) /\
       (i < i + n <= length query)%nat /\
       cleanup_loop cfg (S budget) query i qspace
       = cleanup_loop cfg budget query (i + n) (qspace ++ [piece])) /\
  (forall budget : nat,
     (length query <= budget)%nat ->
     cleanup_loop cfg budget query 0 []
     = Ok (map canonical_piece (tokens cfg query))) /\
  concat (map fst (tokens cfg query)) = query /\
  Forall (fun t => (1 <= length (fst t))%nat) (tokens cfg query).
Proof.
  split; [|split; [|split; [|split]]].
  - intros b0 rest.
    destruct (scanToken_bounds b0 rest) as (n & ty & H & Hn & _). eauto.
  - intros budget i qspace Hi.
    destruct (drop i query) as [|b0 rest] eqn:Ed.
    { apply (f_equal length) in Ed. rewrite length_drop in Ed. cbn in Ed. lia. }
    destruct (scanToken_bounds b0 rest) as (n & ty & Hs & Hn & Hty).
    assert (Hlen : length (b0 :: rest) = (length query - i)%nat)
      by (rewrite <- Ed; apply length_drop).
    exists n, ty, (canonical_piece (take n (drop i query), ty)).
    split; [exact Hs|]. split; [lia|].
    cbn [cleanup_loop].
    destruct (Nat.ltb_spec i (length query)); [|lia].
    rewrite Ed, Hs. cbn [mbind result_bind].
    rewrite emit_token_piece by (assumption || lia).
    rewrite Ed. reflexivity.
  - intros budget Hb. rewrite cleanup_loop_tokenize by lia.
    rewrite drop_0. cbn [app]. unfold tokens.
    rewrite (tokenize_budget budget (length query)) by lia. reflexivity.
  - apply tokenize_concat. lia.
  - eapply Forall_impl; [apply tokenize_nonempty|]. intros t [H _]. exact H.
Qed.

End Tokenizer.

(** ** The [strings] functions *)

Lemma has_prefix_app (p s : gostring) :
  has_prefix p s = true -> s = p ++ drop (length p) s.
Proof.
  revert s. induction p as [|a p IH]; intros s H; [reflexivity|].
  destruct s as [|b s]; [discriminate|]. cbn [has_prefix] in H.
  destruct (decide (a = b)) as [->|]; [|discriminate].
  cbn [app length drop]. f_equal. apply IH, H.
Qed.

Lemma cut_Some (s sep a b : gostring) :
  cut s sep = Some (a, b) -> s = a ++ sep ++ b.
Proof.
  revert a b. induction s as [|c s IH]; intros a b H; cbn [cut] in H.
  - destruct (has_prefix sep []) eqn:Hp; [|discriminate].
    injection H as <- <-. apply (has_prefix_app _ _ Hp).
  - destruct (has_prefix sep (c :: s)) eqn:Hp.
    + injection H as <- <-. apply (has_prefix_app _ _ Hp).
    + destruct (cut s sep) as [[a' b']|] eqn:Hc; [|discriminate].
      injection H as <- <-. cbn [app]. f_equal. apply IH. reflexivity.
Qed.

Lemma has_prefix_true (p s : gostring) : has_prefix p (p ++ s) = true.
Proof.
  induction p as [|a p IH]; [reflexivity|].
  cbn [app has_prefix]. destruct (decide (a = a)); [exact IH|contradiction].
Qed.

(** [cut] is [strings.Index] put to use: it splits at an instance, the
    first one, and fails only when there is none. *)
Lemma cut_first (s sep a b : gostring) :
  cut s sep = Some (a, b) ->
  forall a' b' : gostring, s = a' ++ sep ++ b' -> (length a <= length a')%nat.
Proof.
  revert a. induction s as [|c s IH]; intros a H a' b' Hs; cbn [cut] in H.
  - destruct (has_prefix sep []); [|discriminate].
    injection H as <- <-. cbn. lia.
  - destruct (has_prefix sep (c :: s)) eqn:Hp.
    + injection H as <- <-. cbn. lia.
    + destruct (cut s sep) as [[a0 b0]|] eqn:Hc; [|discriminate].
      injection H as <- <-.
      destruct a' as [|c' a'].
      * cbn [app] in Hs. rewrite Hs, has_prefix_true in Hp. discriminate.
      * cbn [app] in Hs. injection Hs as -> Hs. cbn [length].
        specialize (IH a0 eq_refl a' b' Hs). lia.
Qed.

Lemma cut_None (s sep : gostring) :
  cut s sep = None -> forall a b : gostring, s <> a ++ sep ++ b.
Proof.
  induction s as [|c s IH]; intros H a b Hs; cbn [cut] in H.
  - destruct (has_prefix sep []) eqn:Hp; [discriminate|].
    destruct a; [|discriminate]. cbn [app] in Hs.
    rewrite Hs, has_prefix_true in Hp. discriminate.
  - destruct (has_prefix sep (c :: s)) eqn:Hp; [discriminate|].
    destruct (cut s sep) as [[a0 b0]|] eqn:Hc; [discriminate|].
    destruct a as [|c' a].
    + cbn [app] in Hs. rewrite Hs, has_prefix_true in Hp. discriminate.
    + cbn [app] in Hs. injection Hs as -> Hs. exact (IH eq_refl a b Hs).
Qed.

Lemma Replace_loop_budget (old new : gostring) :
  old <> [] ->
  forall (n1 n2 : nat) (s : gostring),
    (length s <= n1)%nat -> (length s <= n2)%nat ->
    Replace_loop n1 s old new = Replace_loop n2 s old new.
Proof.
  intros Hold. induction n1 as [|n1 IH]; intros n2 s H1 H2.
  - destruct s; [|cbn in H1; lia].
    destruct n2; [reflexivity|]. cbn [Replace_loop].
    destruct (cut [] old) as [[a b]|] eqn:Hc; [|reflexivity].
    apply cut_Some in Hc. destruct a, old; try discriminate. contradiction.
  - destruct n2 as [|n2].
    { destruct s; [|cbn in H2; lia]. cbn [Replace_loop].
      destruct (cut [] old) as [[a b]|] eqn:Hc; [|reflexivity].
      apply cut_Some in Hc. destruct a, old; try discriminate. contradiction. }
    cbn [Replace_loop].
    destruct (cut s old) as [[a b]|] eqn:Hc; [|reflexivity].
    pose proof (cut_Some _ _ _ _ Hc) as Hs.
    assert (Hb : (length b < length s)%nat).
    { rewrite Hs, !length_app. destruct old; [contradiction|]. cbn [length]. lia. }
    f_equal. f_equal. apply IH; lia.
Qed.

(** [strings.Replace] with [n = -1], one instance at a time. *)
Lemma Replace_unfold (s old new : gostring) :
  old <> [] ->
  Replace s old new
  = match cut s old with
    | Some (a, b) => a ++ new ++ Replace b old new
    | None => s
    end.
Proof.
  intros Hold. unfold Replace.
  destruct (cut s old) as [[a b]|] eqn:Hc.
  - pose proof (cut_Some _ _ _ _ Hc) as Hs.
    assert (Hb : (length b < length s)%nat).
    { rewrite Hs, !length_app. destruct old; [contradiction|]. cbn [length]. lia. }
    destruct (length s) as [|n] eqn:Hn; [lia|].
    cbn [Replace_loop]. rewrite Hc. f_equal. f_equal.
    apply Replace_loop_budget; [assumption|lia..].
  - destruct (length s); [reflexivity|]. cbn [Replace_loop]. rewrite Hc. reflexivity.
Qed.

Lemma SplitN_length (sep : gostring) (n : nat) :
  forall s : gostring, (length (SplitN s sep n) <= n)%nat.
Proof.
  induction n as [|n IH]; intros s; [reflexivity|].
  cbn [SplitN]. destruct n as [|n]; [reflexivity|].
  destruct (cut s sep) as [[a b]|]; cbn [length]; [|lia].
  specialize (IH b). lia.
Qed.

Lemma SplitN_2_cut (s sep a b : gostring) :
  cut s sep = Some (a, b) -> SplitN s sep 2 = [a; b].
Proof. intros H. cbn [SplitN]. rewrite H. reflexivity. Qed.

(** ** cleanupQuery: the route rewrite *)

Lemma strip_route_host_shorten (tmp : gostring) :
  strip_route_host tmp = Ok (shorten_route tmp).
Proof.
  unfold strip_route_host, shorten_route.
  pose proof (SplitN_length (str " ") 5 tmp) as Hlen.
  destruct (SplitN tmp (str " ") 5) as [|p0 [|p1 [|p2 [|p3 [|p4 [|p5 ps]]]]]];
    try reflexivity; [|cbn [length] in Hlen; lia].
  change (5 <=? length [p0; p1; p2; p3; p4])%nat with true. cbv iota.
  index_known 1 p1.
  destruct (decide (p1 = str "/*")) as [H1|H1].
  2:{ destruct (decide (p1 = str "/*" /\ p3 = str "*/")) as [[? _]|_];
        [contradiction|reflexivity]. }
  index_known 3 p3.
  destruct (decide (p3 = str "*/")) as [H3|H3].
  2:{ destruct (decide (p1 = str "/*" /\ p3 = str "*/")) as [[_ ?]|_];
        [contradiction|reflexivity]. }
  destruct (decide (p1 = str "/*" /\ p3 = str "*/")) as [_|Hn]; [|tauto].
  index_known 2 p2.
  unfold Contains.
  destruct (cut p2 (str ":")) as [[host route]|] eqn:Hc; [|reflexivity].
  index_known 0 p0.
  rewrite (SplitN_2_cut _ _ _ _ Hc).
  index_known 1 route.
  rewrite (index_at _ 4 p4) by (reflexivity || lia). reflexivity.
Qed.

Lemma cleanupQuery_tokens (cfg : config) (query : list byte) :
  cleanupQuery cfg query
  = Ok (Replace (shorten_route (concat (map canonical_piece (tokens cfg query))))
                (str "?, ") []).
Proof.
  unfold cleanupQuery.
  rewrite cleanup_loop_tokenize by lia. rewrite drop_0. cbn [app mbind result_bind].
  rewrite Join_nil_concat, strip_route_host_shorten. reflexivity.
Qed.

Example tokens_example :
  tokens default_config (str "a  =  'x'")
  = [(str "a", TOKEN_WORD); (str "  ", TOKEN_WHITESPACE); (str "=", TOKEN_OTHER);
     (str "  ", TOKEN_WHITESPACE); (str "'x'", TOKEN_QUOTE)].
Proof. vm_compute. reflexivity. Qed.

(** ** scanToken on a quoted literal *)

(** Where no backslash follows a backslash, the scan of a quoted literal
    ends where a backslash escaping exactly the next byte makes it end. *)
Lemma scan_quote_escaping_next (delim : Z) (n : nat) :
  delim <> 92 ->
  forall (k : nat) (rest : list byte) (i : nat),
    (length rest <= k)%nat ->
    doubled_backslash_from false rest = false ->
    scan_quote delim false rest i n = quote_end_escaping_next delim rest i n.
Proof.
  intros Hd. induction k as [|k IH]; intros rest i Hk Hn.
  - destruct rest; [reflexivity|cbn in Hk; lia].
  - destruct rest as [|c rest]; [reflexivity|].
    cbn [scan_quote quote_end_escaping_next]. cbn [doubled_backslash_from] in Hn.
    cbn [andb orb] in Hn.
    destruct (Z.eqb_spec (u8 c) delim) as [Hc|Hc].
    + destruct (Z.eqb_spec (u8 c) 92); [congruence|reflexivity].
    + destruct (Z.eqb_spec (u8 c) 92) as [Hb|Hb].
      * (* a backslash: the next byte is no backslash *)
        destruct rest as [|c' rest]; [reflexivity|].
        cbn [scan_quote]. cbn [doubled_backslash_from andb] in Hn.
        apply orb_false_iff in Hn as [Hc' Hn]. rewrite Hc' in Hn.
        cbn [length] in Hk.
        destruct (u8 c' =? delim); [apply IH; [lia|exact Hn]|].
        rewrite Hc'. apply IH; [lia|exact Hn].
      * apply IH; [cbn [length] in Hk; lia|exact Hn].
Qed.

(** C7, at its failing input: in the five bytes ['\\'x] the second quote
    follows a doubled backslash; [scanToken] takes it for an escaped quote
    and runs to the end of the input (length 5), where a backslash that
    escapes exactly the next byte ends the token at that quote (length 4). *)
Theorem quote_after_doubled_backslash :
  map u8 (str "'\\'x") = [39; 92; 92; 39; 120] /\
  scanToken default_config (str "'\\'x") = Ok (5%nat, TOKEN_QUOTE) /\
  quote_end_escaping_next 39 (str "\\'x") 1 5 = 4%nat.
Proof. repeat split. Qed.

(** ** cleanupQuery: tokenization off, texts without colon, and a second pass *)

Lemma word_byte_not_space (c : Z) : is_word_byte c = true -> is_space c = false.
Proof.
  unfold is_word_byte, is_digit, is_alpha, is_space. intros H.
  destruct (Z.eqb_spec c 32) as [->|?]; [discriminate|].
  destruct (Z.leb_spec 9 c); destruct (Z.leb_spec c 13); try reflexivity.
  exfalso.
  destruct (Z.leb_spec 48 c); [lia|].
  destruct (Z.leb_spec 65 c); [lia|].
  destruct (Z.leb_spec 97 c); [lia|].
  destruct (Z.eqb_spec c 36); [lia|]. destruct (Z.eqb_spec c 95); [lia|].
  cbn in H. discriminate.
Qed.

Lemma tokenize_whole (cfg : config) :
  verbose cfg && noclean cfg = true ->
  forall q : list byte, concat (map canonical_piece (tokens cfg q)) = q.
Proof.
  intros Hoff q. unfold tokens. destruct q as [|b0 rest]; [reflexivity|].
  cbn [length tokenize]. rewrite scanToken_cons. cbv zeta. rewrite Hoff.
  change (drop (S (length rest)) (b0 :: rest)) with (drop (length rest) rest).
  rewrite drop_all.
  replace (tokenize cfg (length rest) []) with (@nil (gostring * Z))
    by (destruct (length rest); reflexivity).
  cbn [map concat canonical_piece].
  change ((TOKEN_OTHER =? TOKEN_WORD) || (TOKEN_OTHER =? TOKEN_OTHER)) with true.
  cbv iota. rewrite app_nil_r.
  change (take (S (length rest)) (b0 :: rest)) with (b0 :: take (length rest) rest).
  rewrite take_ge by lia. reflexivity.
Qed.

Lemma SplitN_bytes (sep : gostring) (n : nat) :
  forall (s p : gostring) (c : byte),
    In p (SplitN s sep n) -> In c p -> In c s.
Proof.
  induction n as [|n IH]; intros s p c Hp Hc; [destruct Hp|].
  cbn [SplitN] in Hp. destruct n as [|n].
  { destruct Hp as [<-|[]]. exact Hc. }
  destruct (cut s sep) as [[a b]|] eqn:Hcut.
  - apply cut_Some in Hcut. subst s.
    destruct Hp as [<-|Hp].
    + apply in_or_app. left. exact Hc.
    + apply in_or_app. right. apply in_or_app. right. eapply IH; eassumption.
  - destruct Hp as [<-|[]]. exact Hc.
Qed.

Lemma shorten_route_no_colon (t : gostring) :
  Forall (fun c => u8 c <> 58) t -> shorten_route t = t.
Proof.
  intros Ht. unfold shorten_route.
  destruct (SplitN t (str " ") 5) as [|p0 [|p1 [|p2 [|p3 [|p4 [|p5 ps]]]]]] eqn:Hs;
    try reflexivity.
  destruct (decide (p1 = str "/*" /\ p3 = str "*/")); [|reflexivity].
  destruct (cut p2 (str ":")) as [[host route]|] eqn:Hc; [|reflexivity].
  exfalso. apply cut_Some in Hc.
  assert (Hin : In ":"%byte t).
  { apply (SplitN_bytes (str " ") 5 t p2).
    - rewrite Hs. cbn. tauto.
    - rewrite Hc. apply in_or_app. right. left. reflexivity. }
  rewrite Forall_forall in Ht. apply list_elem_of_In in Hin.
  apply (Ht _ Hin). reflexivity.
Qed.

(** C9, counterexample: two canonical texts without quote delimiters and
    digits on which a second canonicalization still changes the result: a
    route annotation with several colons loses one host per pass, and
    removing ["?, "] can bring a new ["?, "] together. *)
Lemma canonicalize_not_idempotent :
  (cleanupQuery default_config (str "S /* a:b:c:d */ x y") = Ok (str "S /* b:c:d */ x y") /\
   Forall (fun c => is_quote (u8 c) = false /\ is_digit (u8 c) = false)
          (str "S /* b:c:d */ x y") /\
   cleanupQuery default_config (str "S /* b:c:d */ x y") = Ok (str "S /* c:d */ x y") /\
   cleanupQuery default_config (str "S /* c:d */ x y") = Ok (str "S /* d */ x y") /\
   str "S /* d */ x y" <> str "S /* c:d */ x y") /\
  (cleanupQuery default_config (str "???, , , ") = Ok (str "??, , ") /\
   Forall (fun c => is_quote (u8 c) = false /\ is_digit (u8 c) = false)
          (str "??, , ") /\
   cleanupQuery default_config (str "??, , ") = Ok (str "?, ") /\
   cleanupQuery default_config (str "?, ") = Ok [] /\
   [] <> str "?, ").
Proof.
  split; repeat split; try (vm_compute; congruence);
    repeat constructor.
Qed.

(** ** calculateTimes *)

Lemma uint64_add_l (x y : Z) : uint64 (uint64 x + y) = uint64 (x + y).
Proof. unfold uint64. apply Zplus_mod_idemp_l. Qed.

Lemma sumZ_app (l1 l2 : list Z) : sumZ (l1 ++ l2) = sumZ l1 + sumZ l2.
Proof.
  induction l1 as [|x l1 IH]; [reflexivity|].
  change (sumZ ((x :: l1) ++ l2)) with (x + sumZ (l1 ++ l2)).
  change (sumZ (x :: l1)) with (x + sumZ l1). lia.
Qed.

Lemma filled_snoc (l : list Z) (v : Z) :
  filled (l ++ [v]) = filled l ++ (if decide (v = 0) then [] else [v]).
Proof.
  unfold filled. rewrite filter_app. f_equal.
  destruct (decide (v = 0)) as [->|Hv].
  - reflexivity.
  - rewrite filter_cons_True by assumption. reflexivity.
Qed.

Lemma times_step_summarizes (nz : list Z) (a : times_acc) (v : Z) :
  Forall (fun v => 0 < v) nz -> 0 <= v ->
  summarizes nz a ->
  summarizes (nz ++ (if decide (v = 0) then [] else [v])) (times_step a v).
Proof.
  intros Hnz Hv (Hc & Ht & Hh & He & Hne).
  unfold times_step. destruct (Z.eqb_spec v 0) as [->|Hv0].
  { destruct (decide (0 = 0)); [|contradiction]. rewrite app_nil_r.
    exact (conj Hc (conj Ht (conj Hh (conj He Hne)))). }
  destruct (decide (v = 0)); [contradiction|].
  destruct nz as [|w nz].
  - (* the first filled slot *)
    specialize (He eq_refl) as [Hmin Hmax].
    cbn [bool_decide decide_rel negb] in Hh.
    assert (Hhm : has_min a = false) by (rewrite Hh; reflexivity).
    rewrite Hhm, Hmax, Hmin, orb_true_r.
    destruct (Z.gtb_spec v 0); [|lia].
    cbn [app]. unfold summarizes. cbn [counts total min_ max_ has_min length].
    rewrite Hc, Ht, !uint64_add_l.
    split; [reflexivity|]. split; [f_equal; cbn; lia|]. split; [reflexivity|].
    split; [discriminate|]. intros _.
    split; [left; reflexivity|]. split; [left; reflexivity|].
    repeat constructor; lia.
  - specialize (Hne ltac:(discriminate)) as (Hmin & Hmax & Hall).
    assert (Hhm : has_min a = true).
    { rewrite Hh. rewrite bool_decide_eq_false_2 by discriminate. reflexivity. }
    rewrite Hhm. cbn [negb]. rewrite orb_false_r.
    set (nz' := w :: nz) in *.
    assert (Hsum : sumZ (nz' ++ [v]) = sumZ nz' + v) by (rewrite sumZ_app; cbn; lia).
    assert (Hlen : Z.of_nat (length (nz' ++ [v])) = Z.of_nat (length nz') + 1)
      by (rewrite length_app; cbn; lia).
    assert (Hnn : nz' ++ [v] <> []) by (subst nz'; discriminate).
    destruct (Z.ltb_spec v (min_ a)) as [Hlt|Hge];
      destruct (Z.gtb_spec v (max_ a)) as [Hgt|Hle];
      unfold summarizes; cbn [counts total min_ max_ has_min];
      rewrite Hc, Ht, !uint64_add_l, Hsum, Hlen;
      rewrite (bool_decide_eq_false_2 _ Hnn);
      (split; [reflexivity|]); (split; [reflexivity|]); (split; [reflexivity|]);
      (split; [intros; contradiction|]); intros _;
      rewrite Forall_app, !in_app_iff;
      (split; [cbn; tauto|]); (split; [cbn; tauto|]);
      (split; [eapply Forall_impl; [exact Hall|]; cbn; intros; lia
              |repeat constructor; lia]).
Qed.

Lemma times_loop_summarizes (timings : list Z) :
  Forall (fun v => 0 <= v < 2 ^ 64) timings ->
  summarizes (filled timings) (times_loop timings).
Proof.
  unfold times_loop.
  induction timings as [|v l IH] using rev_ind; intros Hl.
  - unfold summarizes. cbn [fold_left].
    split; [reflexivity|]. split; [reflexivity|]. split; [reflexivity|].
    split; [intros _; split; reflexivity|]. intros H. contradiction H. reflexivity.
  - apply Forall_app in Hl as [Hl Hv]. apply Forall_inv in Hv.
    rewrite fold_left_app, filled_snoc. cbn [fold_left].
    apply times_step_summarizes; [|lia|apply IH, Hl].
    unfold filled. apply list.Forall_forall. intros x Hx.
    apply list_elem_of_filter in Hx as [Hx0 Hx].
    rewrite list.Forall_forall in Hl. apply Hl in Hx. lia.
Qed.

Lemma filled_length (timings : list Z) : (length (filled timings) <= length timings)%nat.
Proof. unfold filled. apply length_filter. Qed.

Lemma uint64_small (x : Z) : 0 <= x < 2 ^ 64 -> uint64 x = x.
Proof. intros H. unfold uint64. apply Z.mod_small. lia. Qed.

Lemma to_millis_5000000 : to_millis 5000000 = f64_of_Z 5.
Proof. vm_compute. reflexivity. Qed.

(** C6: [calculateTimes] looks at the non-zero slots only: it counts
    them, and returns their least value, the truncating integer quotient of
    their sum (as the [uint64] accumulator holds it) by their count, and
    their greatest value, each converted to float64 and divided by 1000000
    afterwards.  With no non-zero slot the count is zero and the three
    results are 0; with one non-zero slot holding 5000000 the three results
    are 5. *)
Theorem summarize_ignores_empty_slots (timings : list Z) :
  sample_array timings ->
  summarizes (filled timings) (times_loop timings) /\
  counts (times_loop timings) = Z.of_nat (length (filled timings)) /\
  times_avg (times_loop timings)
  = (if decide (filled timings = []) then 0
     else uint64 (sumZ (filled timings)) / Z.of_nat (length (filled timings))) /\
  (sumZ (filled timings) < 2 ^ 64 ->
   uint64 (sumZ (filled timings)) = sumZ (filled timings)) /\
  calculateTimes timings
  = (f64_div (f64_of_Z (min_ (times_loop timings))) (f64_of_Z 1000000),
     f64_div (f64_of_Z (times_avg (times_loop timings))) (f64_of_Z 1000000),
     f64_div (f64_of_Z (max_ (times_loop timings))) (f64_of_Z 1000000)) /\
  (filled timings = [] ->
   counts (times_loop timings) = 0 /\
   calculateTimes timings = (f64_of_Z 0, f64_of_Z 0, f64_of_Z 0)) /\
  (filled timings = [5000000] ->
   counts (times_loop timings) = 1 /\
   calculateTimes timings = (f64_of_Z 5, f64_of_Z 5, f64_of_Z 5)).
Proof.
  intros [Hlen Hrange].
  pose proof (times_loop_summarizes timings Hrange) as Hs.
  pose proof (filled_length timings) as Hfl.
  assert (Hbuckets : Z.of_nat TIME_BUCKETS = 10000) by reflexivity.
  destruct Hs as (Hc & Ht & Hh & He & Hne).
  assert (Hcount : counts (times_loop timings) = Z.of_nat (length (filled timings))).
  { rewrite Hc. apply uint64_small. lia. }
  assert (Hsum0 : 0 <= sumZ (filled timings)).
  { unfold filled. clear -Hrange. induction Hrange as [|v l Hv Hl IH]; [cbn; lia|].
    destruct (decide (v = 0)) as [->|Hv0].
    - rewrite filter_cons_False by tauto. exact IH.
    - rewrite filter_cons_True by assumption.
      change (sumZ (v :: filter (fun v : Z => v <> 0) l))
        with (v + sumZ (filter (fun v : Z => v <> 0) l)). lia. }
  assert (Havg : times_avg (times_loop timings)
                 = if decide (filled timings = []) then 0
                   else uint64 (sumZ (filled timings))
                        / Z.of_nat (length (filled timings))).
  { unfold times_avg. rewrite Hcount, Ht.
    destruct (decide (filled timings = [])) as [E|E].
    - rewrite E. reflexivity.
    - destruct (filled timings); [contradiction|].
      cbn [length]. destruct (Z.gtb_spec (Z.of_nat (S (length l))) 0); [reflexivity|lia]. }
  split; [exact (conj Hc (conj Ht (conj Hh (conj He Hne))))|].
  split; [exact Hcount|]. split; [exact Havg|].
  split; [intros Hlt; apply uint64_small; lia|].
  split; [reflexivity|]. split.
  - intros E. specialize (He E) as [Hmin Hmax].
    split; [rewrite Hcount, E; reflexivity|].
    unfold calculateTimes. rewrite Havg, Hmin, Hmax.
    destruct (decide (filled timings = [])); [|contradiction]. reflexivity.
  - intros E. rewrite E in *.
    specialize (Hne ltac:(discriminate)) as (Hmin & Hmax & _).
    destruct Hmin as [Hmin|[]]. destruct Hmax as [Hmax|[]].
    split; [rewrite Hcount; reflexivity|].
    unfold calculateTimes. rewrite Havg, <- Hmin, <- Hmax.
    destruct (decide ([5000000] = [])); [discriminate|].
    change (uint64 (sumZ [5000000]) / Z.of_nat (length [5000000])) with 5000000.
    rewrite to_millis_5000000. reflexivity.
Qed.


Lemma one_sample_array : sample_array one_sample.
Proof.
  split; [vm_compute; reflexivity|].
  unfold one_sample. apply Forall_insert; [|lia].
  apply Forall_replicate. lia.
Qed.

Lemma summarize_ignores_empty_slots_witness :
  sample_array one_sample /\
  (summarizes (filled one_sample) (times_loop one_sample) /\
   counts (times_loop one_sample) = Z.of_nat (length (filled one_sample)) /\
   times_avg (times_loop one_sample)
   = (if decide (filled one_sample = []) then 0
      else uint64 (sumZ (filled one_sample)) / Z.of_nat (length (filled one_sample))) /\
   (sumZ (filled one_sample) < 2 ^ 64 ->
    uint64 (sumZ (filled one_sample)) = sumZ (filled one_sample)) /\
   calculateTimes one_sample
   = (f64_div (f64_of_Z (min_ (times_loop one_sample))) (f64_of_Z 1000000),
      f64_div (f64_of_Z (times_avg (times_loop one_sample))) (f64_of_Z 1000000),
      f64_div (f64_of_Z (max_ (times_loop one_sample))) (f64_of_Z 1000000)) /\
   (filled one_sample = [] ->
    counts (times_loop one_sample) = 0 /\
    calculateTimes one_sample = (f64_of_Z 0, f64_of_Z 0, f64_of_Z 0)) /\
   (filled one_sample = [5000000] ->
    counts (times_loop one_sample) = 1 /\
    calculateTimes one_sample = (f64_of_Z 5, f64_of_Z 5, f64_of_Z 5))).
Proof.
  split; [exact one_sample_array|].
  exact (summarize_ignores_empty_slots one_sample one_sample_array).
Defined.

Example one_sample_filled : filled one_sample = [5000000].
Proof. vm_compute. reflexivity. Qed.

Example all_zero_filled : filled (replicate TIME_BUCKETS 0) = [].
Proof. vm_compute. reflexivity. Qed.

Example five_millis : f64_of_Z 5 = S754_finite false 5629499534213120 (-50).
Proof. reflexivity. Qed.

(** The truncation is visible: the average of 1 ns and 2 ns is 1 ns. *)
Example avg_truncates : times_avg (times_loop [1; 2]) = 1.
Proof. reflexivity. Qed.

(** ** processPacket *)

(** [carvePacket] returns normally on every buffer, with [-1] or a byte
    value as the type. *)
Lemma carvePacket_total (buf : slice) :
  exists (ptype : Z) (data buf' : slice),
    carvePacket buf = Ok (ptype, data, buf') /\ (ptype = -1 \/ 0 <= ptype < 256).
Proof.
  unfold carvePacket.
  assert (Hd : 0 <= uint32 (len buf) <= len buf).
  { unfold uint32, len.
    pose proof (Z.mod_pos_bound (Z.of_nat (length (bytes_of buf))) (2 ^ 32) ltac:(lia)).
    pose proof (Z.mod_le (Z.of_nat (length (bytes_of buf))) (2 ^ 32) ltac:(lia) ltac:(lia)).
    lia. }
  destruct (Z.ltb_spec (uint32 (len buf)) 5) as [?|H5]; [eexists _, _, _; split; [reflexivity|lia]|].
  unfold len in *.
  destruct (bytes_of buf) as [|b0 [|b1 [|b2 [|b3 [|b4 rest]]]]] eqn:Eb.
  1-5: exfalso; cbn [length] in *; lia.
  set (l := b0 :: b1 :: b2 :: b3 :: b4 :: rest) in *.
  rewrite (index_at l 0 b0), (index_at l 1 b1), (index_at l 2 b2)
    by (reflexivity || lia).
  cbn [mbind result_bind]. rewrite carve_size.
  change (u8 b0 + 2 ^ 8 * u8 b1 + 2 ^ 16 * u8 b2) with (declared_length l).
  pose proof (declared_length_range l) as HL.
  set (L := declared_length l) in *.
  rewrite (uint32_small (L + 4)) by lia.
  destruct ((L =? 0) || (uint32 (Z.of_nat (length l)) <? L + 4)) eqn:Hinc;
    [eexists _, _, _; split; [reflexivity|lia]|].
  apply orb_false_iff in Hinc as [HL0 Hfit].
  apply Z.eqb_neq in HL0. apply Z.ltb_ge in Hfit.
  rewrite (index_at l 4 b4) by (reflexivity || lia).
  rewrite (subslice_Ok l 5 (L + 4)) by lia.
  cbn [mbind result_bind]. pose proof (u8_range b4).
  destruct (L + 4 >=? uint32 (Z.of_nat (length l)));
    [eexists _, _, _; split; [reflexivity|lia]|].
  rewrite subslice_Ok by lia.
  eexists _, _, _; split; [reflexivity|lia].
Qed.

Lemma cleanupQuery_Ok (cfg : config) (query : list byte) :
  exists text : gostring, cleanupQuery cfg query = Ok text.
Proof. rewrite cleanupQuery_tokens. eauto. Qed.

Lemma route_text_Ok (cfg : config) (pdata : list byte) :
  exists text : gostring, route_text cfg pdata = Ok text.
Proof.
  unfold route_text.
  destruct (cleanupQuery_Ok cfg pdata) as [q Hq]. rewrite Hq.
  destruct (4 <=? length (SplitN pdata (str " ") 5))%nat eqn:H4;
    [|cbn [mbind result_bind]; eauto].
  apply Nat.leb_le in H4.
  destruct (SplitN pdata (str " ") 5) as [|p0 [|p1 [|p2 [|p3 ps]]]];
    try (exfalso; cbn [length] in H4; lia).
  index_known 1 p1.
  destruct (decide (p1 = str "/*")); [|cbn [mbind result_bind]; eauto].
  index_known 3 p3.
  destruct (decide (p3 = str "*/")); [|cbn [mbind result_bind]; eauto].
  index_known 2 p2.
  unfold Contains.
  destruct (cut p2 (str ":")) as [[host route]|] eqn:Hc; [|eauto].
  rewrite (SplitN_2_cut _ _ _ _ Hc).
  rewrite (index_at _ 1 route) by (reflexivity || lia). eauto.
Qed.

Lemma format_text_Ok (cfg : config) (rs : source) (pdata : list byte)
    (items : list format_item) :
  Forall format_item_ok items ->
  forall text : gostring,
    exists text' : gostring, format_text cfg rs pdata items text = Ok text'.
Proof.
  induction 1 as [|item items Hitem _ IH]; intros text; cbn [format_text]; [eauto|].
  assert (Hp : exists piece : gostring,
             match item with
             | ItemInt F_NONE => Fatal
             | ItemInt F_QUERY => if dirty cfg then Ok pdata else cleanupQuery cfg pdata
             | ItemInt F_ROUTE => route_text cfg pdata
             | ItemInt F_SOURCE => Ok (src rs)
             | ItemInt F_SOURCEIP => Ok (srcip rs)
             | ItemIntOther _ => Fatal
             | ItemString s => Ok s
             | ItemOther => Fatal
             end = Ok piece).
  { destruct item as [[]| | |]; cbn in Hitem; try contradiction; eauto.
    - destruct (dirty cfg); [eauto|apply cleanupQuery_Ok].
    - apply route_text_Ok. }
  destruct Hp as [piece ->]. cbn [mbind result_bind]. apply IH.
Qed.

Lemma record_request_Ok (cfg : config) (g : globals) (rs : source)
    (pdata : list byte) (plen now : Z) :
  format_ok cfg ->
  exists (g' : globals) (rs' : source),
    record_request cfg g rs pdata plen now = Ok (g', rs') /\
    synced rs' = synced rs /\ resbuffer rs' = resbuffer rs /\
    desyncs g' = desyncs g.
Proof.
  intros Hf. unfold record_request.
  destruct (format_text_Ok cfg (set_reqSent (Some now) rs) pdata (format cfg) Hf [])
    as [text ->].
  cbn [mbind result_bind]. eexists _, _. split; [reflexivity|].
  repeat split.
Qed.

Lemma record_response_frame (g : globals) (rs : source) (plen now : Z) (randn : nat) :
  synced (record_response g rs plen now randn).2 = synced rs /\
  resbuffer (record_response g rs plen now randn).2 = resbuffer rs /\
  desyncs (record_response g rs plen now randn).1 = desyncs g.
Proof.
  unfold record_response.
  destruct (reqSent rs); cbn [qdata set_reqTimes];
    destruct (qdata rs); repeat split.
Qed.

Lemma ingest_response (g : globals) (rs : source) (data : list byte) :
  ingest g rs false data
  = Ok (count_call false rs g, set_resbuffer None rs, 0, Some data).
Proof.
  unfold ingest, count_call. destruct (resbuffer rs); reflexivity.
Qed.

Lemma ingest_request (g : globals) (rs : source) (data : list byte)
    (ptype : Z) (pdata buf : slice) :
  carvePacket (Some data) = Ok (ptype, pdata, buf) ->
  ingest g rs true data
  = Ok (count_call true rs g, after_carve buf rs, ptype, pdata).
Proof.
  intros Hc. unfold ingest, count_call, after_carve.
  destruct (resbuffer rs) eqn:Er; cbn [reqbuffer set_reqbuffer];
    rewrite Hc; cbn [mbind result_bind]; destruct rs; reflexivity.
Qed.

Lemma carves_query_carve (data : list byte) (ptype : Z) (pdata buf : slice) :
  carvePacket (Some data) = Ok (ptype, pdata, buf) ->
  carves_query data = (ptype =? COM_QUERY).
Proof. intros H. unfold carves_query. rewrite H. reflexivity. Qed.

(** A call that finds the flow unsynchronized and is not a request
    carving a query frame: both buffers are cleared, nothing else changes in
    the flow, and only the counters change outside it. *)
Lemma processPacket_unsynced_other (cfg : config) (g : globals) (rs : source)
    (request : bool) (data : list byte) (now : Z) (randn : nat) :
  synced rs = false ->
  request && carves_query data = false ->
  processPacket cfg g rs request data now randn
  = Ok (count_call request rs g, clear_buffers rs).
Proof.
  intros Hs Hq. unfold processPacket. destruct request.
  - destruct (carvePacket_total (Some data)) as (ptype & pdata & buf & Hc & _).
    rewrite (ingest_request g rs data ptype pdata buf Hc). cbn [mbind result_bind].
    rewrite (carves_query_carve data ptype pdata buf Hc) in Hq. cbn [andb] in Hq.
    rewrite Hq.
    assert (Hs' : synced (after_carve buf rs) = false).
    { unfold after_carve. destruct (resbuffer rs); [reflexivity|exact Hs]. }
    rewrite Hs'. cbn [negb andb].
    f_equal. f_equal. unfold clear_buffers, after_carve.
    destruct rs as [s i sy rq rsb sent rt qb qd qt]. cbn in Hs. subst sy.
    destruct rsb; reflexivity.
  - rewrite ingest_response. cbn [mbind result_bind].
    cbn [synced set_resbuffer]. rewrite Hs. cbn [negb andb]. reflexivity.
Qed.

(** A request that carves a query frame synchronizes the flow in the same
    call. *)
Lemma processPacket_sync (cfg : config) (g : globals) (rs : source)
    (data : list byte) (now : Z) (randn : nat) :
  format_ok cfg ->
  carves_query data = true ->
  exists (g' : globals) (rs' : source),
    processPacket cfg g rs true data now randn = Ok (g', rs') /\
    synced rs' = true /\ resbuffer rs' = None /\
    desyncs g' = desyncs (count_call true rs g).
Proof.
  intros Hf Hq. unfold processPacket.
  destruct (carvePacket_total (Some data)) as (ptype & pdata & buf & Hc & _).
  rewrite (ingest_request g rs data ptype pdata buf Hc). cbn [mbind result_bind].
  rewrite (carves_query_carve data ptype pdata buf Hc) in Hq.
  rewrite Hq. cbn [andb negb]. rewrite andb_false_r.
  assert (Hp : (ptype =? -1) = false).
  { apply Z.eqb_eq in Hq. subst ptype. reflexivity. }
  rewrite Hp. cbn [negb].
  set (rs1 := if negb (synced (after_carve buf rs))
              then set_synced true (after_carve buf rs) else after_carve buf rs).
  assert (Hs1 : synced rs1 = true).
  { subst rs1. destruct (synced (after_carve buf rs)) eqn:E; [exact E|reflexivity]. }
  assert (Hr1 : resbuffer rs1 = None).
  { subst rs1. unfold after_carve. clear.
    destruct rs as [s i sy rq rsb sent rt qb qd qt].
    destruct rsb, sy; reflexivity. }
  destruct (record_request_Ok cfg (count_call true rs g) rs1 (bytes_of pdata)
              (uint64 (len pdata)) now Hf) as (g' & rs' & -> & Hs' & Hr' & Hd').
  exists g', rs'. repeat split; congruence.
Qed.

Lemma run_app (cfg : config) (evs1 evs2 : list event) :
  forall (g : globals) (rs : source),
    run cfg g rs (evs1 ++ evs2)
    = '(g1, rs1) ← run cfg g rs evs1; run cfg g1 rs1 evs2.
Proof.
  induction evs1 as [|e evs1 IH]; intros g rs; [reflexivity|].
  cbn [app run].
  destruct (processPacket cfg g rs (ev_request e) (ev_data e) (ev_now e) (ev_randn e))
    as [[g' rs']| | |]; cbn [mbind result_bind]; [apply IH|reflexivity..].
Qed.

Lemma count_call_frame (request : bool) (rs : source) (g : globals) :
  qbuf (count_call request rs g) = qbuf g /\
  querycount (count_call request rs g) = querycount g /\
  gtimes (count_call request rs g) = gtimes g /\
  streams (count_call request rs g) = streams g.
Proof.
  unfold count_call. destruct (synced rs), (resbuffer rs), request; repeat split.
Qed.

(** Calls that do not synchronize leave an unsynchronized flow as it was,
    its buffers cleared. *)
Lemma run_unsynced (cfg : config) (evs : list event) :
  forall (g : globals) (rs : source),
    synced rs = false ->
    Forall (fun e => sync_call e = false) evs ->
    exists g' : globals,
      run cfg g rs evs
      = Ok (g', match evs with [] => rs | _ :: _ => clear_buffers rs end) /\
      qbuf g' = qbuf g /\ querycount g' = querycount g /\ gtimes g' = gtimes g.
Proof.
  induction evs as [|e evs IH]; intros g rs Hs Hall.
  - exists g. repeat split.
  - pose proof (Forall_inv Hall) as He. pose proof (Forall_inv_tail Hall) as Hevs.
    cbn [run]. unfold sync_call in He.
    rewrite (processPacket_unsynced_other cfg g rs _ _ _ _ Hs He).
    cbn [mbind result_bind].
    destruct (IH (count_call (ev_request e) rs g) (clear_buffers rs) Hs Hevs)
      as (g' & Hrun & Hq & Hc & Ht).
    destruct (count_call_frame (ev_request e) rs g) as (Hq' & Hc' & Ht' & _).
    exists g'. split; [|repeat split; congruence].
    rewrite Hrun. destruct evs; reflexivity.
Qed.

(** C2: a flow that is unsynchronized stays so across any calls, none of
    which is a request carving a frame with command byte 3: such a call
    clears the two buffers and changes nothing else in the flow, the
    aggregates, the query count or the samples (it is counted in the packet
    counters); the first request that carves a frame with command byte 3
    leaves the flow synchronized. *)
Theorem unsynced_until_first_query (cfg : config) (g : globals) (rs : source)
    (pre : list event) (e : event) :
  format_ok cfg ->
  synced rs = false ->
  Forall (fun e => sync_call e = false) pre ->
  exists g1 : globals,
    run cfg g rs pre
    = Ok (g1, match pre with [] => rs | _ :: _ => clear_buffers rs end) /\
    synced (clear_buffers rs) = false /\
    reqbuffer (clear_buffers rs) = None /\ resbuffer (clear_buffers rs) = None /\
    clear_buffers rs
    = Source (src rs) (srcip rs) false None None (reqSent rs) (reqTimes rs)
             (qbytes rs) (qdata rs) (qtext rs) /\
    qbuf g1 = qbuf g /\ querycount g1 = querycount g /\ gtimes g1 = gtimes g /\
    (sync_call e = false ->
     processPacket cfg g rs (ev_request e) (ev_data e) (ev_now e) (ev_randn e)
     = Ok (count_call (ev_request e) rs g, clear_buffers rs)) /\
    (sync_call e = true ->
     exists (g2 : globals) (rs2 : source),
       run cfg g rs (pre ++ [e]) = Ok (g2, rs2) /\ synced rs2 = true).
Proof.
  intros Hf Hs Hpre.
  destruct (run_unsynced cfg pre g rs Hs Hpre) as (g1 & Hrun & Hq & Hc & Ht).
  exists g1. split; [exact Hrun|].
  split; [exact Hs|]. split; [reflexivity|]. split; [reflexivity|].
  split; [unfold clear_buffers; destruct rs; cbn in Hs; subst; reflexivity|].
  split; [exact Hq|]. split; [exact Hc|]. split; [exact Ht|].
  split.
  - intros He. apply processPacket_unsynced_other; assumption.
  - intros He. unfold sync_call in He. apply andb_true_iff in He as [Hreq Hcq].
    rewrite run_app, Hrun. cbn [mbind result_bind run]. rewrite Hreq.
    destruct (processPacket_sync cfg g1
                (match pre with [] => rs | _ :: _ => clear_buffers rs end)
                (ev_data e) (ev_now e) (ev_randn e) Hf Hcq)
      as (g2 & rs2 & -> & Hs2 & _).
    exists g2, rs2. split; [reflexivity|exact Hs2].
Qed.


Lemma default_format_ok : format_ok default_config.
Proof. repeat constructor. Qed.

Lemma calls_before_sync_ok : Forall (fun e => sync_call e = false) calls_before_sync.
Proof. repeat constructor. Qed.

Lemma unsynced_until_first_query_witness :
  (format_ok default_config /\ synced flow_zero = false /\
   Forall (fun e => sync_call e = false) calls_before_sync) /\
  exists g1 : globals,
    run default_config globals_zero flow_zero calls_before_sync
    = Ok (g1, match calls_before_sync with
              | [] => flow_zero
              | _ :: _ => clear_buffers flow_zero
              end) /\
    synced (clear_buffers flow_zero) = false /\
    reqbuffer (clear_buffers flow_zero) = None /\
    resbuffer (clear_buffers flow_zero) = None /\
    clear_buffers flow_zero
    = Source (src flow_zero) (srcip flow_zero) false None None (reqSent flow_zero)
             (reqTimes flow_zero) (qbytes flow_zero) (qdata flow_zero)
             (qtext flow_zero) /\
    qbuf g1 = qbuf globals_zero /\ querycount g1 = querycount globals_zero /\
    gtimes g1 = gtimes globals_zero /\
    (sync_call call_query = false ->
     processPacket default_config globals_zero flow_zero (ev_request call_query)
                   (ev_data call_query) (ev_now call_query) (ev_randn call_query)
     = Ok (count_call (ev_request call_query) flow_zero globals_zero,
           clear_buffers flow_zero)) /\
    (sync_call call_query = true ->
     exists (g2 : globals) (rs2 : source),
       run default_config globals_zero flow_zero (calls_before_sync ++ [call_query])
       = Ok (g2, rs2) /\ synced rs2 = true).
Proof.
  split; [exact (conj default_format_ok (conj eq_refl calls_before_sync_ok))|].
  exact (unsynced_until_first_query default_config globals_zero flow_zero
           calls_before_sync call_query default_format_ok eq_refl
           calls_before_sync_ok).
Defined.

Example call_query_syncs : sync_call call_query = true.
Proof. reflexivity. Qed.

(** ** handleStatusUpdate *)

Lemma status_row_row_of (lib : golib) (elapsed : float64) (sortby : gostring)
    (cutoff : Z) (q : gostring) (c : queryData) :
  status_row lib elapsed sortby cutoff q c
  = if f64_lt (qps_of elapsed c) (f64_of_Z cutoff) then None
    else Some (row_of lib elapsed sortby q c).
Proof.
  unfold status_row, row_of, sort_metric, qps_of, bavg_of.
  destruct (calculateTimes (times c)) as [[qmin qavg] qmax]. reflexivity.
Qed.

Lemma print_rows_reverse (tmp : list sortable) (displaycount : Z) :
  displaycount <= Z.of_nat (length tmp) ->
  forall (budget : nat) (i : Z) (out : list gostring),
    1 <= i ->
    displaycount - i + 1 <= Z.of_nat budget ->
    print_rows budget tmp i displaycount out
    = Ok (out ++ map line (take (Z.to_nat (displaycount - i + 1))
                               (drop (Z.to_nat (i - 1)) (reverse tmp)))).
Proof.
  intros Hdc. induction budget as [|budget IH]; intros i out Hi Hb.
  - cbn [print_rows]. destruct (Z.leb_spec i displaycount); [lia|].
    replace (Z.to_nat (displaycount - i + 1)) with 0%nat by lia.
    cbn [take map]. rewrite app_nil_r. reflexivity.
  - cbn [print_rows]. destruct (Z.leb_spec i displaycount) as [Hle|Hgt].
    2:{ replace (Z.to_nat (displaycount - i + 1)) with 0%nat by lia.
        cbn [take map]. rewrite app_nil_r. reflexivity. }
    assert (Hlk : exists s, tmp !! Z.to_nat (Z.of_nat (length tmp) - i) = Some s).
    { apply lookup_lt_is_Some. lia. }
    destruct Hlk as [s Hs].
    rewrite (index_at tmp _ s) by (lia || exact Hs).
    cbn [mbind result_bind].
    rewrite IH by lia.
    rewrite <- app_assoc. f_equal. f_equal.
    replace (Z.to_nat (displaycount - i + 1))
      with (S (Z.to_nat (displaycount - (i + 1) + 1))) by lia.
    replace (Z.to_nat (i + 1 - 1)) with (S (Z.to_nat (i - 1))) by lia.
    assert (Hrev : reverse tmp !! Z.to_nat (i - 1) = Some s).
    { rewrite reverse_lookup by lia. rewrite <- Hs. f_equal. lia. }
    rewrite (drop_S _ _ _ Hrev). reflexivity.
Qed.

Lemma StronglySorted_reverse (R : sortable -> sortable -> Prop) (l : list sortable) :
  StronglySorted R l -> StronglySorted (fun a b => R b a) (reverse l).
Proof.
  induction 1 as [|x l Hl IH Hx]; [constructor|].
  rewrite reverse_cons. apply StronglySorted_app_2.
  - intros a b Ha Hb. apply list_elem_of_singleton in Hb as ->.
    rewrite list.Forall_forall in Hx. apply Hx, elem_of_reverse, Ha.
  - exact IH.
  - repeat constructor.
Qed.

Lemma insert_stable_Permutation (x : sortable) (l : list sortable) :
  insert_stable x l ≡ₚ x :: l.
Proof.
  induction l as [|y l IH]; [reflexivity|].
  cbn [insert_stable]. destruct (Less y x); [|reflexivity].
  rewrite IH. apply perm_swap.
Qed.

Lemma stable_sort_Permutation (l : list sortable) : l ≡ₚ stable_sort l.
Proof.
  induction l as [|x l IH]; [reflexivity|].
  cbn [stable_sort foldr]. fold (stable_sort l).
  rewrite insert_stable_Permutation, <- IH. reflexivity.
Qed.

(** The report of one call: the registry [m] and the order [entries] in
    which [range qbuf] yields it. *)
Section Report.

Variables (lib : golib) (start unix_now : Z).
Variables (m : gmap gostring queryData) (entries : list (gostring * queryData)).
Variables (displaycount : Z) (sortby : gostring) (cutoff : Z).

Local Abbreviation elapsed := (elapsed_seconds start unix_now).
Local Abbreviation rows := (collect_rows lib elapsed sortby cutoff entries).
Local Abbreviation sorted := (sort_Sort lib rows).

Hypothesis range_order : entries ≡ₚ map_to_list m.

Lemma collect_rows_elem (row : sortable) :
  row ∈ rows <->
  exists (q : gostring) (c : queryData),
    m !! q = Some c /\
    f64_lt (qps_of elapsed c) (f64_of_Z cutoff) = false /\
    row = row_of lib elapsed sortby q c.
Proof using range_order.
  unfold collect_rows. rewrite list_elem_of_omap. split.
  - intros ([q c] & Hin & Hrow).
    rewrite range_order in Hin. apply elem_of_map_to_list in Hin.
    rewrite status_row_row_of in Hrow.
    destruct (f64_lt (qps_of elapsed c) (f64_of_Z cutoff)) eqn:E; [discriminate|].
    injection Hrow as <-. eauto.
  - intros (q & c & Hm & Hq & ->). exists (q, c). split.
    + rewrite range_order. apply elem_of_map_to_list. exact Hm.
    + rewrite status_row_row_of, Hq. reflexivity.
Qed.

(** The lines printed are those of the first [displaycount] rows of the
    sorted slice read backwards. *)
Lemma handleStatusUpdate_rows :
  handleStatusUpdate lib start unix_now entries displaycount sortby cutoff
  = Ok (map line (take (Z.to_nat displaycount) (reverse sorted))).
Proof using Type.
  unfold handleStatusUpdate. fold elapsed.
  set (tmp := sorted).
  destruct (Z.ltb_spec (Z.of_nat (length tmp)) displaycount) as [Hlt|Hge].
  - rewrite print_rows_reverse by lia. cbn [app].
    replace (Z.to_nat (Z.of_nat (length tmp) - 1 + 1)) with (length tmp) by lia.
    change (Z.to_nat (1 - 1)) with 0%nat. rewrite drop_0.
    rewrite !take_ge by (rewrite length_reverse; lia). reflexivity.
  - rewrite print_rows_reverse by lia. cbn [app].
    replace (Z.to_nat (displaycount - 1 + 1)) with (Z.to_nat displaycount) by lia.
    change (Z.to_nat (1 - 1)) with 0%nat. rewrite drop_0. reflexivity.
Qed.

End Report.

Example report_example :
  handleStatusUpdate lib_example 0 10 (map_to_list qbuf_example) 2 (str "count") 0
  = Ok [str "b"; str "a"].
Proof. vm_compute. reflexivity. Qed.

Example report_example_cutoff :
  handleStatusUpdate lib_example 0 2 (map_to_list qbuf_example) 5 (str "avg") 1
  = Ok [str "b"; str "a"].
Proof. vm_compute. reflexivity. Qed.

Lemma rows_example_ascending :
  ascending
    (sort_Sort lib_example
       (collect_rows lib_example (elapsed_seconds 0 10) (str "count") 0
          (map_to_list qbuf_example))).
Proof.
  unfold ascending.
  assert (E : sort_Sort lib_example
                (collect_rows lib_example (elapsed_seconds 0 10) (str "count") 0
                   (map_to_list qbuf_example))
              = [Sortable (f64_of_Z 1) (str "c"); Sortable (f64_of_Z 5) (str "a");
                 Sortable (f64_of_Z 9) (str "b")])
    by (vm_compute; reflexivity).
  rewrite E. repeat constructor.
Qed.

(** ** handleStatusUpdate: the order of the report *)

(** The report of one call, [sort.Sort] being taken by its contract: it
    permutes the slice so that, by the [Less] of the slice, no element is
    less than one before it.  It is not stable. *)
Section Snapshot.

Variables (lib : golib) (start unix_now : Z).
Variables (m : gmap gostring queryData) (entries : list (gostring * queryData)).
Variables (displaycount : Z) (sortby : gostring) (cutoff : Z).

Local Abbreviation elapsed := (elapsed_seconds start unix_now).
Local Abbreviation rows := (collect_rows lib elapsed sortby cutoff entries).
Local Abbreviation sorted := (sort_Sort lib rows).

Hypothesis range_order : entries ≡ₚ map_to_list m.
Hypothesis sort_permutes : rows ≡ₚ sorted.
Hypothesis sort_ascends : ascending sorted.


End Snapshot.



(** * Further properties of the code *)

(** ** carvePacket on any buffer *)

(** X1: [carvePacket] never panics, whatever the buffer and its
    length (be it 2^32 bytes or more, where [uint32(len)] wraps): it
    returns [-1] and leaves the buffer alone, or it returns byte 4 with the
    [L-1] bytes after it, [L] being the length field, and leaves either
    nothing or a non-empty end of the buffer, the one after byte [L+3]. *)
Theorem carvePacket_never_panics (buf : slice) :
  exists (ptype : Z) (data buf' : slice),
    carvePacket buf = Ok (ptype, data, buf') /\
    (ptype = -1 /\ data = None /\ buf' = buf \/
     exists (b4 : byte) (payload : list byte),
       bytes_of buf !! 4%nat = Some b4 /\ ptype = u8 b4 /\ data = Some payload /\
       payload = take (Z.to_nat (declared_length (bytes_of buf) - 1))
                      (drop 5 (bytes_of buf)) /\
       Z.of_nat (length payload) = declared_length (bytes_of buf) - 1 /\
       (buf' = None \/
        exists rest : list byte,
          buf' = Some rest /\ rest <> [] /\
          rest = drop (Z.to_nat (declared_length (bytes_of buf) + 4)) (bytes_of buf))).
Proof.
  unfold carvePacket.
  assert (Hd : 0 <= uint32 (len buf) <= len buf).
  { unfold uint32, len.
    pose proof (Z.mod_pos_bound (Z.of_nat (length (bytes_of buf))) (2 ^ 32) ltac:(lia)).
    pose proof (Z.mod_le (Z.of_nat (length (bytes_of buf))) (2 ^ 32) ltac:(lia) ltac:(lia)).
    lia. }
  destruct (Z.ltb_spec (uint32 (len buf)) 5) as [?|H5];
    [eexists _, _, _; split; [reflexivity|left; tauto]|].
  unfold len in *.
  destruct (bytes_of buf) as [|b0 [|b1 [|b2 [|b3 [|b4 rest]]]]] eqn:Eb.
  1-5: exfalso; cbn [length] in *; lia.
  set (l := b0 :: b1 :: b2 :: b3 :: b4 :: rest) in *.
  rewrite (index_at l 0 b0), (index_at l 1 b1), (index_at l 2 b2)
    by (reflexivity || lia).
  cbn [mbind result_bind]. rewrite carve_size.
  change (u8 b0 + 2 ^ 8 * u8 b1 + 2 ^ 16 * u8 b2) with (declared_length l).
  pose proof (declared_length_range l) as HL.
  set (L := declared_length l) in *.
  rewrite (uint32_small (L + 4)) by lia.
  destruct ((L =? 0) || (uint32 (Z.of_nat (length l)) <? L + 4)) eqn:Hinc;
    [eexists _, _, _; split; [reflexivity|left; tauto]|].
  apply orb_false_iff in Hinc as [HL0 Hfit].
  apply Z.eqb_neq in HL0. apply Z.ltb_ge in Hfit.
  rewrite (index_at l 4 b4) by (reflexivity || lia).
  rewrite (subslice_Ok l 5 (L + 4)) by lia.
  cbn [mbind result_bind].
  replace (Z.to_nat (L + 4 - 5)) with (Z.to_nat (L - 1)) by lia.
  change (Z.to_nat 5) with 5%nat.
  assert (Hpl : Z.of_nat (length (take (Z.to_nat (L - 1)) (drop 5 l))) = L - 1).
  { rewrite length_take, length_drop. lia. }
  destruct (Z.geb_spec (L + 4) (uint32 (Z.of_nat (length l)))) as [Hge|Hlt].
  - eexists _, _, _. split; [reflexivity|]. right.
    exists b4, (take (Z.to_nat (L - 1)) (drop 5 l)).
    split; [reflexivity|]. split; [reflexivity|]. split; [reflexivity|].
    split; [reflexivity|]. split; [exact Hpl|]. left. reflexivity.
  - rewrite subslice_Ok by lia. cbn [mbind result_bind].
    eexists _, _, _. split; [reflexivity|]. right.
    exists b4, (take (Z.to_nat (L - 1)) (drop 5 l)).
    split; [reflexivity|]. split; [reflexivity|]. split; [reflexivity|].
    split; [reflexivity|]. split; [exact Hpl|]. right.
    eexists. split; [reflexivity|].
    assert (Hrest : take (Z.to_nat (Z.of_nat (length l) - (L + 4)))
                         (drop (Z.to_nat (L + 4)) l)
                    = drop (Z.to_nat (L + 4)) l).
    { apply take_ge. rewrite length_drop. lia. }
    rewrite Hrest. split; [|reflexivity].
    intros E. apply (f_equal length) in E. rewrite length_drop in E. cbn [length] in E.
    lia.
Qed.

(** ** scanToken: the shape of a token *)

(** A scanning loop stops at the first byte outside its class. *)
Lemma scan_number_run (rest : list byte) :
  forall (i n : nat),
    (i + length rest = n)%nat ->
    Forall (fun c => is_digit (u8 c) = true) (take (scan_number rest i n - i) rest) /\
    (forall c : byte, rest !! (scan_number rest i n - i)%nat = Some c ->
                      is_digit (u8 c) = false).
Proof.
  induction rest as [|c rest IH]; intros i n Hn; cbn [scan_number length] in *.
  - split; [rewrite take_nil; constructor|]. intros c H. rewrite lookup_nil in H. discriminate.
  - destruct (is_digit (u8 c)) eqn:Hc.
    + pose proof (scan_number_bounds rest (S i) n ltac:(lia)) as Hb.
      destruct (IH (S i) n ltac:(lia)) as [H1 H2].
      replace (scan_number rest (S i) n - i)%nat
        with (S (scan_number rest (S i) n - S i)) by lia.
      split; [constructor; assumption|exact H2].
    + rewrite Nat.sub_diag. split; [constructor|].
      intros c' H. injection H as <-. exact Hc.
Qed.

Lemma scan_space_run (rest : list byte) :
  forall (i n : nat),
    (i + length rest = n)%nat ->
    Forall (fun c => is_space (u8 c) = true) (take (scan_space rest i n - i) rest) /\
    (forall c : byte, rest !! (scan_space rest i n - i)%nat = Some c ->
                      is_space (u8 c) = false).
Proof.
  induction rest as [|c rest IH]; intros i n Hn; cbn [scan_space length] in *.
  - split; [rewrite take_nil; constructor|]. intros c H. rewrite lookup_nil in H. discriminate.
  - destruct (is_space (u8 c)) eqn:Hc.
    + pose proof (scan_space_bounds rest (S i) n ltac:(lia)) as Hb.
      destruct (IH (S i) n ltac:(lia)) as [H1 H2].
      replace (scan_space rest (S i) n - i)%nat
        with (S (scan_space rest (S i) n - S i)) by lia.
      split; [constructor; assumption|exact H2].
    + rewrite Nat.sub_diag. split; [constructor|].
      intros c' H. injection H as <-. exact Hc.
Qed.

Lemma scan_word_run (rest : list byte) :
  forall (i n : nat),
    (i + length rest = n)%nat ->
    Forall (fun c => is_word_byte (u8 c) = true) (take (scan_word rest i n - i) rest) /\
    (forall c : byte, rest !! (scan_word rest i n - i)%nat = Some c ->
                      is_word_byte (u8 c) = false).
Proof.
  induction rest as [|c rest IH]; intros i n Hn; cbn [scan_word length] in *.
  - split; [rewrite take_nil; constructor|]. intros c H. rewrite lookup_nil in H. discriminate.
  - destruct (is_word_byte (u8 c)) eqn:Hc.
    + pose proof (scan_word_bounds rest (S i) n ltac:(lia)) as Hb.
      destruct (IH (S i) n ltac:(lia)) as [H1 H2].
      replace (scan_word rest (S i) n - i)%nat
        with (S (scan_word rest (S i) n - S i)) by lia.
      split; [constructor; assumption|exact H2].
    + rewrite Nat.sub_diag. split; [constructor|].
      intros c' H. injection H as <-. exact Hc.
Qed.

Lemma alpha_is_word_byte (c : Z) : is_alpha c = true -> is_word_byte c = true.
Proof. unfold is_word_byte. intros ->. destruct (is_digit c); reflexivity. Qed.

Lemma digit_is_word_byte (c : Z) : is_digit c = true -> is_word_byte c = true.
Proof. unfold is_word_byte. intros ->. reflexivity. Qed.

(** The token at the front of a query: its type and its bytes. *)
Lemma scanToken_run (cfg : config) (b0 : byte) (rest : list byte) :
  tokenizing cfg ->
  exists (n : nat) (ty : Z),
    scanToken cfg (b0 :: rest) = Ok (n, ty) /\
    (ty = TOKEN_QUOTE <-> is_quote (u8 b0) = true) /\
    (ty = TOKEN_NUMBER <-> is_digit (u8 b0) = true) /\
    (ty = TOKEN_WHITESPACE <-> is_space (u8 b0) = true) /\
    (ty = TOKEN_WORD <-> is_alpha (u8 b0) = true) /\
    (ty = TOKEN_OTHER -> n = 1%nat) /\
    (ty = TOKEN_NUMBER \/ ty = TOKEN_WHITESPACE \/ ty = TOKEN_WORD ->
     Forall (fun c => class_of ty (u8 c) = true) (take n (b0 :: rest)) /\
     (forall c : byte, (b0 :: rest) !! n = Some c -> class_of ty (u8 c) = false)).
Proof.
  intros Htok. rewrite scanToken_cons. cbv zeta.
  unfold tokenizing in Htok. rewrite Htok.
  assert (Hexcl : forall c : Z,
             (is_quote c = true -> is_digit c = false /\ is_space c = false
                                   /\ is_alpha c = false) /\
             (is_digit c = true -> is_space c = false /\ is_alpha c = false) /\
             (is_space c = true -> is_alpha c = false)).
  { intros c. unfold is_quote, is_digit, is_space, is_alpha.
    destruct (Z.eqb_spec c 39), (Z.eqb_spec c 34), (Z.eqb_spec c 32),
      (Z.leb_spec 48 c), (Z.leb_spec c 57), (Z.leb_spec 9 c), (Z.leb_spec c 13),
      (Z.leb_spec 65 c), (Z.leb_spec c 90), (Z.leb_spec 97 c), (Z.leb_spec c 122);
      cbn; try lia; repeat split; intros; try reflexivity; discriminate. }
  destruct (Hexcl (u8 b0)) as (Hq & Hd & Hs).
  pose proof (scan_number_bounds rest 1 (S (length rest)) eq_refl) as Bn.
  pose proof (scan_space_bounds rest 1 (S (length rest)) eq_refl) as Bs.
  pose proof (scan_word_bounds rest 1 (S (length rest)) eq_refl) as Bw.
  destruct (is_quote (u8 b0)) eqn:Eq.
  { destruct (Hq eq_refl) as (-> & -> & ->).
    eexists _, _. split; [reflexivity|].
    split; [tauto|]. split; [split; discriminate|].
    split; [split; discriminate|]. split; [split; discriminate|].
    split; [discriminate|]. intros [?|[?|?]]; discriminate. }
  destruct (is_digit (u8 b0)) eqn:Ed.
  { destruct (Hd eq_refl) as (-> & ->).
    eexists _, _. split; [reflexivity|].
    split; [split; discriminate|]. split; [tauto|].
    split; [split; discriminate|]. split; [split; discriminate|].
    split; [discriminate|]. intros _.
    destruct (scan_number_run rest 1 (S (length rest)) eq_refl) as [H1 H2].
    destruct (scan_number rest 1 (S (length rest))) as [|k]; [lia|].
    replace (S k - 1)%nat with k in * by lia.
    cbn [take lookup list_lookup]. split; [constructor; assumption|exact H2]. }
  destruct (is_space (u8 b0)) eqn:Es.
  { rewrite (Hs eq_refl).
    eexists _, _. split; [reflexivity|].
    split; [split; discriminate|]. split; [split; discriminate|].
    split; [tauto|]. split; [split; discriminate|].
    split; [discriminate|]. intros _.
    destruct (scan_space_run rest 1 (S (length rest)) eq_refl) as [H1 H2].
    destruct (scan_space rest 1 (S (length rest))) as [|k]; [lia|].
    replace (S k - 1)%nat with k in * by lia.
    cbn [take lookup list_lookup]. split; [constructor; assumption|exact H2]. }
  destruct (is_alpha (u8 b0)) eqn:Ea.
  { eexists _, _. split; [reflexivity|].
    split; [split; discriminate|]. split; [split; discriminate|].
    split; [split; discriminate|]. split; [tauto|].
    split; [discriminate|]. intros _.
    destruct (scan_word_run rest 1 (S (length rest)) eq_refl) as [H1 H2].
    destruct (scan_word rest 1 (S (length rest))) as [|k]; [lia|].
    replace (S k - 1)%nat with k in * by lia.
    cbn [take lookup list_lookup].
    split; [constructor; [apply alpha_is_word_byte, Ea|assumption]|exact H2]. }
  eexists _, _. split; [reflexivity|].
  split; [split; discriminate|]. split; [split; discriminate|].
  split; [split; discriminate|]. split; [split; discriminate|].
  split; [reflexivity|]. intros [?|[?|?]]; discriminate.
Qed.

(** The bytes of the five classes: a byte that is no quote, digit, white
    space or letter is of the class other, and no byte is of two classes. *)
Lemma scanToken_other (cfg : config) (b0 : byte) (rest : list byte) (n : nat) (ty : Z) :
  tokenizing cfg ->
  scanToken cfg (b0 :: rest) = Ok (n, ty) ->
  token_type ty /\
  (ty = TOKEN_OTHER <->
   is_quote (u8 b0) = false /\ is_digit (u8 b0) = false /\
   is_space (u8 b0) = false /\ is_alpha (u8 b0) = false).
Proof.
  intros Htok. rewrite scanToken_cons. cbv zeta.
  unfold tokenizing in Htok. rewrite Htok. unfold token_type.
  destruct (is_quote (u8 b0)); [intros [= <- <-]; split; [tauto|]; split;
    [discriminate|intros (? & _); discriminate]|].
  destruct (is_digit (u8 b0)); [intros [= <- <-]; split; [tauto|]; split;
    [discriminate|intros (_ & ? & _); discriminate]|].
  destruct (is_space (u8 b0)); [intros [= <- <-]; split; [tauto|]; split;
    [discriminate|intros (_ & _ & ? & _); discriminate]|].
  destruct (is_alpha (u8 b0)); [intros [= <- <-]; split; [tauto|]; split;
    [discriminate|intros (_ & _ & _ & ?); discriminate]|].
  intros [= <- <-]. split; [tauto|]. split; [tauto|reflexivity].
Qed.

(** X2: with tokenization on, the type of a token is decided by its
    first byte: quote, digit, white space, letter, and other for every byte
    of none of these classes.  A number, white-space or word token is a
    maximal run: it is made of digits, of white space, or of a letter
    followed by letters, digits, [$] and [_], and the byte after it, if any,
    is not of that class; a token of type other is one byte. *)
Theorem token_is_maximal_run (cfg : config) (b0 : byte) (rest : list byte) :
  tokenizing cfg ->
  exists (n : nat) (ty : Z),
    scanToken cfg (b0 :: rest) = Ok (n, ty) /\
    token_type ty /\
    (ty = TOKEN_QUOTE <-> is_quote (u8 b0) = true) /\
    (ty = TOKEN_NUMBER <-> is_digit (u8 b0) = true) /\
    (ty = TOKEN_WHITESPACE <-> is_space (u8 b0) = true) /\
    (ty = TOKEN_WORD <-> is_alpha (u8 b0) = true) /\
    (ty = TOKEN_OTHER <->
     is_quote (u8 b0) = false /\ is_digit (u8 b0) = false /\
     is_space (u8 b0) = false /\ is_alpha (u8 b0) = false) /\
    (ty = TOKEN_OTHER -> n = 1%nat) /\
    (ty = TOKEN_NUMBER \/ ty = TOKEN_WHITESPACE \/ ty = TOKEN_WORD ->
     Forall (fun c => class_of ty (u8 c) = true) (take n (b0 :: rest)) /\
     (forall c : byte, (b0 :: rest) !! n = Some c -> class_of ty (u8 c) = false)).
Proof.
  intros Htok.
  destruct (scanToken_run cfg b0 rest Htok)
    as (n & ty & Hscan & Hq & Hd & Hs & Ha & Ho & Hrun).
  destruct (scanToken_other cfg b0 rest n ty Htok Hscan) as [Hty Hother].
  exists n, ty.
  split; [exact Hscan|]. split; [exact Hty|].
  split; [exact Hq|]. split; [exact Hd|]. split; [exact Hs|]. split; [exact Ha|].
  split; [exact Hother|]. split; [exact Ho|exact Hrun].
Qed.

Lemma token_is_maximal_run_witness :
  tokenizing default_config /\
  exists (n : nat) (ty : Z),
    scanToken default_config ("s"%byte :: str "2compiled = 1") = Ok (n, ty) /\
    token_type ty /\
    (ty = TOKEN_QUOTE <-> is_quote (u8 "s"%byte) = true) /\
    (ty = TOKEN_NUMBER <-> is_digit (u8 "s"%byte) = true) /\
    (ty = TOKEN_WHITESPACE <-> is_space (u8 "s"%byte) = true) /\
    (ty = TOKEN_WORD <-> is_alpha (u8 "s"%byte) = true) /\
    (ty = TOKEN_OTHER <->
     is_quote (u8 "s"%byte) = false /\ is_digit (u8 "s"%byte) = false /\
     is_space (u8 "s"%byte) = false /\ is_alpha (u8 "s"%byte) = false) /\
    (ty = TOKEN_OTHER -> n = 1%nat) /\
    (ty = TOKEN_NUMBER \/ ty = TOKEN_WHITESPACE \/ ty = TOKEN_WORD ->
     Forall (fun c => class_of ty (u8 c) = true)
            (take n ("s"%byte :: str "2compiled = 1")) /\
     (forall c : byte, ("s"%byte :: str "2compiled = 1") !! n = Some c ->
                       class_of ty (u8 c) = false)).
Proof.
  split; [reflexivity|].
  exact (token_is_maximal_run default_config "s"%byte (str "2compiled = 1") eq_refl).
Defined.

(** A byte of the class other is a token of its own, whatever follows. *)
Example other_token :
  scanToken default_config (str "-12.5") = Ok (1%nat, TOKEN_OTHER) /\
  scanToken default_config (str "_id") = Ok (1%nat, TOKEN_OTHER) /\
  scanToken default_config (str "(?)") = Ok (1%nat, TOKEN_OTHER).
Proof. repeat split. Qed.

(** A digit inside a word belongs to the word. *)
Example word_with_digit :
  scanToken default_config (str "s2compiled = 1") = Ok (10%nat, TOKEN_WORD).
Proof. reflexivity. Qed.

(** *** Quoted literals *)

(** The flag [escaped] tells that the byte before was a backslash; the
    scan ends after the first delimiter that no backslash precedes.  [prev]
    is the byte before [rest]. *)
Lemma scan_quote_first_unescaped (delim : Z) (n : nat) :
  delim <> 92 ->
  forall (rest : list byte) (prev : byte) (i : nat),
    (i + length rest = n)%nat ->
    let r := scan_quote delim (u8 prev =? 92) rest i n in
    (i <= r <= n)%nat /\
    (forall k : nat, (k < r - i - 1)%nat -> ~ closes_quote delim (prev :: rest) (S k)) /\
    ((i < r)%nat /\ closes_quote delim (prev :: rest) (r - i) \/
     r = n /\ forall k : nat, ~ closes_quote delim (prev :: rest) (S k)).
Proof.
  intros Hd. induction rest as [|c rest IH]; intros prev i Hn; cbn [scan_quote length] in *.
  - cbv zeta. split; [lia|]. split; [intros k Hk; lia|].
    right. split; [reflexivity|]. intros k (c & p & Hc & _).
    cbn in Hc. discriminate.
  - cbv zeta.
    specialize (IH c (S i) ltac:(lia)). cbv zeta in IH.
    set (r := scan_quote delim (u8 c =? 92) rest (S i) n) in *.
    destruct IH as (Hb & Hbefore & Hend).
    assert (Hshift : forall k : nat,
               closes_quote delim (prev :: c :: rest) (S (S k))
               <-> closes_quote delim (c :: rest) (S k)).
    { intros k. unfold closes_quote. cbn [lookup list_lookup Nat.sub].
      rewrite Nat.sub_0_r. reflexivity. }
    assert (Hskip : ~ closes_quote delim (prev :: c :: rest) 1 ->
              (i <= r <= n)%nat /\
              (forall k : nat, (k < r - i - 1)%nat ->
                               ~ closes_quote delim (prev :: c :: rest) (S k)) /\
              ((i < r)%nat /\ closes_quote delim (prev :: c :: rest) (r - i) \/
               r = n /\ forall k : nat, ~ closes_quote delim (prev :: c :: rest) (S k))).
    { intros Hno. split; [lia|]. split.
      - intros [|k] Hk; [exact Hno|]. rewrite Hshift. apply Hbefore. lia.
      - destruct Hend as [[Hlt Hcl]|[Hr Hnone]].
        + left. split; [lia|].
          replace (r - i)%nat with (S (S (r - S i - 1))) by lia.
          rewrite Hshift.
          replace (S (r - S i - 1)) with (r - S i)%nat by lia.
          exact Hcl.
        + right. split; [exact Hr|]. intros [|k]; [exact Hno|].
          rewrite Hshift. apply Hnone. }
    destruct (Z.eqb_spec (u8 c) delim) as [Hc|Hc].
    + destruct (Z.eqb_spec (u8 prev) 92) as [Hp|Hp].
      * (* an escaped delimiter *)
        assert (E : (u8 c =? 92) = false) by (apply Z.eqb_neq; congruence).
        subst r. rewrite E in *. apply Hskip. intros (c' & p' & Hc' & _ & Hp' & Hne).
        cbn in Hc', Hp'. injection Hp' as <-. contradiction.
      * (* the closing delimiter *)
        split; [lia|]. split; [intros k Hk; lia|].
        left. split; [lia|].
        replace (i + 1 - i)%nat with 1%nat by lia.
        exists c, prev. cbn. repeat split; assumption.
    + assert (Hno : ~ closes_quote delim (prev :: c :: rest) 1).
      { intros (c' & p' & Hc' & He & _). cbn in Hc'. injection Hc' as <-. contradiction. }
      subst r. destruct (u8 c =? 92); apply Hskip, Hno.
Qed.

(** X3: with tokenization on, a token that starts with a quote
    character is a literal that ends with the first later byte that is the
    same quote character and is not directly preceded by a backslash; when
    there is no such byte the literal runs to the end of the input. *)
Theorem quote_ends_at_first_unescaped (cfg : config) (b0 : byte) (rest : list byte) :
  tokenizing cfg ->
  is_quote (u8 b0) = true ->
  exists n : nat,
    scanToken cfg (b0 :: rest) = Ok (n, TOKEN_QUOTE) /\
    (1 <= n <= length (b0 :: rest))%nat /\
    (forall j : nat, (1 <= j < n - 1)%nat -> ~ closes_quote (u8 b0) (b0 :: rest) j) /\
    ((2 <= n)%nat /\ closes_quote (u8 b0) (b0 :: rest) (n - 1) \/
     n = length (b0 :: rest) /\
     forall j : nat, (1 <= j)%nat -> ~ closes_quote (u8 b0) (b0 :: rest) j).
Proof.
  intros Htok Hq. rewrite scanToken_cons. cbv zeta.
  unfold tokenizing in Htok. rewrite Htok, Hq.
  assert (Hd : u8 b0 <> 92).
  { unfold is_quote in Hq. intros E. rewrite E in Hq. discriminate. }
  pose proof (scan_quote_first_unescaped (u8 b0) (S (length rest)) Hd rest b0 1 eq_refl)
    as H. cbv zeta in H.
  replace (u8 b0 =? 92) with false in H by (symmetry; apply Z.eqb_neq, Hd).
  set (n := scan_quote (u8 b0) false rest 1 (S (length rest))) in *.
  destruct H as (Hb & Hbefore & Hend).
  exists n. split; [reflexivity|]. cbn [length]. split; [lia|]. split.
  - intros [|j] Hj; [lia|]. apply Hbefore. lia.
  - destruct Hend as [[Hlt Hcl]|[Hn Hnone]].
    + left. split; [lia|exact Hcl].
    + right. split; [exact Hn|]. intros [|j] Hj; [lia|]. apply Hnone.
Qed.

Lemma quote_ends_at_first_unescaped_witness :
  (tokenizing default_config /\ is_quote (u8 "'"%byte) = true) /\
  exists n : nat,
    scanToken default_config ("'"%byte :: str "a\'b' c") = Ok (n, TOKEN_QUOTE) /\
    (1 <= n <= length ("'"%byte :: str "a\'b' c"))%nat /\
    (forall j : nat, (1 <= j < n - 1)%nat ->
                     ~ closes_quote (u8 "'"%byte) ("'"%byte :: str "a\'b' c") j) /\
    ((2 <= n)%nat /\ closes_quote (u8 "'"%byte) ("'"%byte :: str "a\'b' c") (n - 1) \/
     n = length ("'"%byte :: str "a\'b' c") /\
     forall j : nat, (1 <= j)%nat ->
                     ~ closes_quote (u8 "'"%byte) ("'"%byte :: str "a\'b' c") j).
Proof.
  split; [split; reflexivity|].
  exact (quote_ends_at_first_unescaped default_config "'"%byte (str "a\'b' c")
           eq_refl eq_refl).
Defined.

(** The literal ['a\'b'] ends at its third quote; an unterminated one
    runs to the end. *)
Example quote_examples :
  scanToken default_config (str "'a\'b' c") = Ok (6%nat, TOKEN_QUOTE) /\
  scanToken default_config (str "'abc") = Ok (4%nat, TOKEN_QUOTE).
Proof. split; reflexivity. Qed.

(** ** cleanupQuery: what the canonical text is made of *)

Lemma cut_parts (P : byte -> Prop) (s sep a b : gostring) :
  cut s sep = Some (a, b) -> Forall P s -> Forall P a /\ Forall P b.
Proof.
  intros Hc Hs. apply cut_Some in Hc. subst s.
  apply Forall_app in Hs as [Ha Hs]. apply Forall_app in Hs as [_ Hb]. tauto.
Qed.

Lemma SplitN_parts (P : byte -> Prop) (sep : gostring) (n : nat) :
  forall s : gostring, Forall P s -> Forall (Forall P) (SplitN s sep n).
Proof.
  induction n as [|n IH]; intros s Hs; [constructor|].
  cbn [SplitN]. destruct n as [|n]; [repeat constructor; exact Hs|].
  destruct (cut s sep) as [[a b]|] eqn:Hc; [|repeat constructor; exact Hs].
  destruct (cut_parts P _ _ _ _ Hc Hs) as [Ha Hb].
  constructor; [exact Ha|apply IH, Hb].
Qed.

(** The route rewrite and the removal of ["?, "] put together bytes of the
    text and of [" /* "] and [" */ "]. *)
Lemma shorten_route_bytes (P : byte -> Prop) (t : gostring) :
  Forall P (str " /* ") -> Forall P (str " */ ") ->
  Forall P t -> Forall P (shorten_route t).
Proof.
  intros H1 H2 Ht. unfold shorten_route.
  pose proof (SplitN_parts P (str " ") 5 t Ht) as Hparts.
  destruct (SplitN t (str " ") 5) as [|p0 [|p1 [|p2 [|p3 [|p4 [|p5 ps]]]]]];
    try exact Ht.
  destruct (decide (p1 = str "/*" /\ p3 = str "*/")); [|exact Ht].
  destruct (cut p2 (str ":")) as [[host route]|] eqn:Hc; [|exact Ht].
  apply Forall_cons in Hparts as [Hp0 Hparts].
  apply Forall_cons in Hparts as [_ Hparts].
  apply Forall_cons in Hparts as [Hp2 Hparts].
  apply Forall_cons in Hparts as [_ Hparts].
  apply Forall_cons in Hparts as [Hp4 _].
  destruct (cut_parts P _ _ _ _ Hc Hp2) as [_ Hroute].
  repeat (apply Forall_app; split); assumption.
Qed.

Lemma Replace_loop_bytes (P : byte -> Prop) (old : gostring) (budget : nat) :
  forall t : gostring, Forall P t -> Forall P (Replace_loop budget t old []).
Proof.
  induction budget as [|budget IH]; intros t Ht; [exact Ht|].
  cbn [Replace_loop]. destruct (cut t old) as [[a b]|] eqn:Hc; [|exact Ht].
  destruct (cut_parts P _ _ _ _ Hc Ht) as [Ha Hb].
  cbn [app]. apply Forall_app. split; [exact Ha|apply IH, Hb].
Qed.

Lemma word_byte_canonical (c : byte) : is_word_byte (u8 c) = true -> canonical_byte c.
Proof.
  intros H. split.
  - unfold is_word_byte, is_digit, is_alpha, is_quote in *.
    destruct (Z.eqb_spec (u8 c) 39) as [E|_]; [rewrite E in H; discriminate|].
    destruct (Z.eqb_spec (u8 c) 34) as [E|_]; [rewrite E in H; discriminate|].
    reflexivity.
  - rewrite (word_byte_not_space _ H). discriminate.
Qed.

(** The piece of every token is made of canonical bytes. *)
Lemma tokenize_canonical_bytes (cfg : config) :
  tokenizing cfg ->
  forall (budget : nat) (q : list byte),
    Forall (fun t => Forall canonical_byte (canonical_piece t)) (tokenize cfg budget q).
Proof.
  intros Htok. induction budget as [|budget IH]; intros q; [constructor|].
  destruct q as [|b0 rest]; [constructor|].
  cbn [tokenize].
  destruct (scanToken_run cfg b0 rest Htok)
    as (n & ty & -> & Hq & Hd & Hs & Ha & Ho & Hrun).
  constructor; [|apply IH].
  unfold canonical_piece.
  destruct (Z.eqb_spec ty TOKEN_WORD) as [Hw|Hw]; cbn [orb].
  { destruct (Hrun (or_intror (or_intror Hw))) as [Hall _].
    eapply Forall_impl; [exact Hall|]. intros c Hc. subst ty.
    apply word_byte_canonical. exact Hc. }
  destruct (Z.eqb_spec ty TOKEN_OTHER) as [Hot|Hot].
  { rewrite (Ho Hot). cbn [take]. constructor; [|constructor].
    assert (Hnq : is_quote (u8 b0) = false).
    { destruct (is_quote (u8 b0)); [|reflexivity].
      destruct Hq as [_ Hq]. rewrite (Hq eq_refl) in Hot. discriminate. }
    assert (Hns : is_space (u8 b0) = false).
    { destruct (is_space (u8 b0)); [|reflexivity].
      destruct Hs as [_ Hs]. rewrite (Hs eq_refl) in Hot. discriminate. }
    split; [exact Hnq|]. rewrite Hns. discriminate. }
  destruct ((ty =? TOKEN_NUMBER) || (ty =? TOKEN_QUOTE));
    repeat constructor; discriminate.
Qed.

(** X4: with tokenization on, the canonical text of any query holds
    no quote character, and no white space other than the space: every
    literal is gone with its quotes, and tabs and newlines are spaces. *)
Theorem canonical_text_has_no_quotes (cfg : config) (query : list byte) :
  tokenizing cfg ->
  exists text : gostring,
    cleanupQuery cfg query = Ok text /\ Forall canonical_byte text.
Proof.
  intros Htok. rewrite cleanupQuery_tokens. eexists. split; [reflexivity|].
  apply Replace_loop_bytes, shorten_route_bytes.
  - repeat constructor; discriminate.
  - repeat constructor; discriminate.
  - apply Forall_concat, Forall_map.
    exact (tokenize_canonical_bytes cfg Htok (length query) query).
Qed.

Lemma canonical_text_has_no_quotes_witness :
  tokenizing default_config /\
  exists text : gostring,
    cleanupQuery default_config (str "SELECT 'it''s' FROM t") = Ok text /\
    Forall canonical_byte text.
Proof.
  split; [reflexivity|].
  exact (canonical_text_has_no_quotes default_config
           (str "SELECT 'it''s' FROM t") eq_refl).
Defined.

Example canonical_text_example :
  cleanupQuery default_config (str "SELECT 'it''s' FROM t") = Ok (str "SELECT ?? FROM t").
Proof. vm_compute. reflexivity. Qed.

(** *** Identifiers *)

Lemma scan_word_all (rest : list byte) :
  Forall (fun c => is_word_byte (u8 c) = true) rest ->
  forall (i n : nat), scan_word rest i n = n.
Proof.
  induction 1 as [|c rest Hc _ IH]; intros i n; [reflexivity|].
  cbn [scan_word]. rewrite Hc. apply IH.
Qed.

(** [cut] on a text whose first part is free of the separator byte. *)
Lemma cut_byte_first (c : byte) (a b : gostring) :
  Forall (fun x => x <> c) a -> cut (a ++ c :: b) [c] = Some (a, b).
Proof.
  induction 1 as [|x a Hx Ha IH]; cbn [app cut has_prefix].
  - destruct (decide (c = c)); [|contradiction]. destruct b; reflexivity.
  - destruct (decide (c = x)) as [->|_]; [contradiction|].
    rewrite IH. reflexivity.
Qed.

Lemma cut_absent (c : byte) (s : gostring) :
  Forall (fun x => x <> c) s -> forall tail : gostring, cut s (c :: tail) = None.
Proof.
  induction 1 as [|x s Hx _ IH]; intros tail; [reflexivity|].
  cbn [cut has_prefix]. destruct (decide (c = x)) as [->|_]; [contradiction|].
  rewrite IH. reflexivity.
Qed.

(** X5: an identifier, that is a letter followed by letters, digits,
    [$] and [_], is one word token whatever digits it holds, and it is its
    own canonical text. *)
Theorem identifier_is_kept (cfg : config) (b0 : byte) (rest : list byte) :
  is_alpha (u8 b0) = true ->
  Forall (fun c => is_word_byte (u8 c) = true) rest ->
  (tokenizing cfg -> tokens cfg (b0 :: rest) = [(b0 :: rest, TOKEN_WORD)]) /\
  cleanupQuery cfg (b0 :: rest) = Ok (b0 :: rest).
Proof.
  intros Ha Hrest.
  assert (Hall : Forall (fun c => is_word_byte (u8 c) = true) (b0 :: rest))
    by (constructor; [apply alpha_is_word_byte, Ha|exact Hrest]).
  assert (Hnd : is_digit (u8 b0) = false /\ is_quote (u8 b0) = false
                /\ is_space (u8 b0) = false).
  { pose proof (word_byte_canonical b0 (alpha_is_word_byte _ Ha)) as [Hq _].
    pose proof (word_byte_not_space _ (alpha_is_word_byte _ Ha)) as Hs.
    split; [|tauto].
    unfold is_alpha, is_digit in *.
    destruct (Z.leb_spec 48 (u8 b0)), (Z.leb_spec (u8 b0) 57); try reflexivity.
    destruct (Z.leb_spec 65 (u8 b0)); [lia|].
    destruct (Z.leb_spec 97 (u8 b0)); [lia|]. discriminate. }
  destruct Hnd as (Hd & Hq & Hs).
  assert (Htokens : forall budget : nat,
             verbose cfg && noclean cfg = false ->
             tokenize cfg (S budget) (b0 :: rest) = [(b0 :: rest, TOKEN_WORD)]).
  { intros budget Htok. cbn [tokenize]. rewrite scanToken_cons. cbv zeta.
    rewrite Htok, Hq, Hd, Hs, Ha, (scan_word_all rest Hrest).
    change (take (S (length rest)) (b0 :: rest)) with (b0 :: take (length rest) rest).
    change (drop (S (length rest)) (b0 :: rest)) with (drop (length rest) rest).
    rewrite take_ge, drop_all by lia. destruct budget; reflexivity. }
  split; [intros Htok; apply Htokens, Htok|].
  assert (Hpieces : concat (map canonical_piece (tokens cfg (b0 :: rest))) = b0 :: rest).
  { destruct (verbose cfg && noclean cfg) eqn:Hcfg.
    - apply (tokenize_whole cfg Hcfg).
    - unfold tokens. cbn [length]. rewrite (Htokens _ eq_refl).
      cbn. rewrite app_nil_r. reflexivity. }
  rewrite cleanupQuery_tokens, Hpieces.
  rewrite shorten_route_no_colon.
  - unfold Replace. cbn [length Replace_loop].
    change (str "?, ") with ("?"%byte :: str ", ").
    rewrite (cut_absent "?"%byte (b0 :: rest)); [reflexivity|].
    eapply Forall_impl; [exact Hall|]. intros c Hc ->. discriminate.
  - eapply Forall_impl; [exact Hall|]. intros c Hc E.
    unfold is_word_byte, is_digit, is_alpha in Hc. rewrite E in Hc. discriminate.
Qed.

Lemma identifier_is_kept_witness :
  (is_alpha (u8 "s"%byte) = true /\
   Forall (fun c => is_word_byte (u8 c) = true) (str "2compiled")) /\
  (tokenizing default_config ->
   tokens default_config ("s"%byte :: str "2compiled")
   = [("s"%byte :: str "2compiled", TOKEN_WORD)]) /\
  cleanupQuery default_config ("s"%byte :: str "2compiled")
  = Ok ("s"%byte :: str "2compiled").
Proof.
  assert (H : Forall (fun c => is_word_byte (u8 c) = true) (str "2compiled"))
    by (repeat constructor).
  split; [exact (conj eq_refl H)|].
  exact (identifier_is_kept default_config "s"%byte (str "2compiled") eq_refl H).
Defined.

(** A name that starts with a digit loses the digits in front. *)
Example digits_in_front :
  cleanupQuery default_config (str "2fast") = Ok (str "?fast").
Proof. vm_compute. reflexivity. Qed.

(** *** Tokenization switched off *)

Lemma u8_inj (a b : byte) : u8 a = u8 b -> a = b.
Proof.
  unfold u8. intros H. apply N2Z.inj in H.
  apply (f_equal Byte.of_N) in H. rewrite !Byte.of_to_N in H. congruence.
Qed.

(** X6: with [-v] and [-n] together the whole query is one token: the
    canonical text keeps every literal, and is the query with the route
    rewrite applied and every ["?, "] removed, both of which still happen. *)
Theorem verbatim_keeps_literals (cfg : config) (query : list byte) :
  verbose cfg && noclean cfg = true ->
  (query <> [] -> tokens cfg query = [(query, TOKEN_OTHER)]) /\
  cleanupQuery cfg query = Ok (Replace (shorten_route query) (str "?, ") []) /\
  (Forall (fun c => c <> ":"%byte /\ c <> "?"%byte) query ->
   cleanupQuery cfg query = Ok query).
Proof.
  intros Hoff. split; [|split].
  - destruct query as [|b0 rest]; [contradiction|]. intros _.
    unfold tokens. cbn [length tokenize]. rewrite scanToken_cons. cbv zeta.
    rewrite Hoff.
    change (take (S (length rest)) (b0 :: rest)) with (b0 :: take (length rest) rest).
    change (drop (S (length rest)) (b0 :: rest)) with (drop (length rest) rest).
    rewrite take_ge, drop_all by lia. destruct (length rest); reflexivity.
  - rewrite cleanupQuery_tokens, (tokenize_whole cfg Hoff). reflexivity.
  - intros Hq. rewrite cleanupQuery_tokens, (tokenize_whole cfg Hoff).
    rewrite shorten_route_no_colon.
    + unfold Replace. destruct (length query); [reflexivity|]. cbn [Replace_loop].
      change (str "?, ") with ("?"%byte :: str ", ").
      rewrite (cut_absent "?"%byte query); [reflexivity|].
      eapply Forall_impl; [exact Hq|]. intros c [_ Hc]. exact Hc.
    + eapply Forall_impl; [exact Hq|]. intros c [Hc _] E. apply Hc.
      apply u8_inj. exact E.
Qed.

Lemma verbatim_keeps_literals_witness :
  verbose verbatim_config && noclean verbatim_config = true /\
  (str "SELECT 'a', 12" <> [] ->
   tokens verbatim_config (str "SELECT 'a', 12") = [(str "SELECT 'a', 12", TOKEN_OTHER)]) /\
  cleanupQuery verbatim_config (str "SELECT 'a', 12")
  = Ok (Replace (shorten_route (str "SELECT 'a', 12")) (str "?, ") []) /\
  (Forall (fun c => c <> ":"%byte /\ c <> "?"%byte) (str "SELECT 'a', 12") ->
   cleanupQuery verbatim_config (str "SELECT 'a', 12") = Ok (str "SELECT 'a', 12")).
Proof.
  split; [reflexivity|].
  exact (verbatim_keeps_literals verbatim_config (str "SELECT 'a', 12") eq_refl).
Defined.

(** A query that already holds ["?, "] loses it even so. *)
Example verbatim_still_rewrites :
  cleanupQuery verbatim_config (str "a /* h:r */ IN (?, ?, 'x')")
  = Ok (str "a /* r */ IN ('x')").
Proof. vm_compute. reflexivity. Qed.

(** ** calculateTimes: order and bounds *)

Lemma sumZ_bounds (lo hi : Z) (l : list Z) :
  Forall (fun v => lo <= v <= hi) l ->
  Z.of_nat (length l) * lo <= sumZ l <= Z.of_nat (length l) * hi.
Proof.
  induction 1 as [|v l Hv _ IH]; [cbn; lia|].
  change (sumZ (v :: l)) with (v + sumZ l). cbn [length]. lia.
Qed.

Lemma sumZ_Permutation (l l' : list Z) : l ≡ₚ l' -> sumZ l = sumZ l'.
Proof.
  induction 1 as [|x l l' _ IH|x y l|l l' l'' _ IH1 _ IH2].
  - reflexivity.
  - change (x + sumZ l = x + sumZ l'). lia.
  - change (y + (x + sumZ l) = x + (y + sumZ l)). lia.
  - lia.
Qed.

Lemma filled_Permutation (l l' : list Z) : l ≡ₚ l' -> filled l ≡ₚ filled l'.
Proof. intros H. unfold filled. rewrite H. reflexivity. Qed.

(** X7: the three results are the conversions of three integers
    [min <= avg <= max] that lie between 0 and 2^64, the truncated average
    lying between the least and the greatest sample (the sum of the samples
    being below 2^64, so that the [uint64] sum has not wrapped). *)
Theorem summary_is_ordered (timings : list Z) :
  sample_array timings ->
  sumZ (filled timings) < 2 ^ 64 ->
  exists mn av mx : Z,
    calculateTimes timings = (to_millis mn, to_millis av, to_millis mx) /\
    0 <= mn <= av /\ av <= mx < 2 ^ 64 /\
    (filled timings <> [] ->
     In mn (filled timings) /\ In mx (filled timings) /\
     av = sumZ (filled timings) / Z.of_nat (length (filled timings))).
Proof.
  intros [Hlen Hrange] Hsum.
  destruct (times_loop_summarizes timings Hrange) as (Hc & Ht & _ & He & Hne).
  pose proof (filled_length timings) as Hfl.
  assert (Hbuckets : Z.of_nat TIME_BUCKETS = 10000) by reflexivity.
  assert (Hpos : Forall (fun v => 0 < v < 2 ^ 64) (filled timings)).
  { unfold filled. apply list.Forall_forall. intros x Hx.
    apply list_elem_of_filter in Hx as [Hx0 Hx].
    rewrite list.Forall_forall in Hrange. apply Hrange in Hx. lia. }
  exists (min_ (times_loop timings)), (times_avg (times_loop timings)),
         (max_ (times_loop timings)).
  split; [reflexivity|].
  unfold times_avg. rewrite Hc, Ht.
  rewrite (uint64_small (Z.of_nat _)) by lia.
  destruct (filled timings) as [|v nz] eqn:E.
  - destruct (He eq_refl) as [-> ->]. cbn [length sumZ foldr].
    change (Z.of_nat 0 >? 0) with false. cbv iota.
    split; [lia|]. split; [lia|]. intros H. exfalso. apply H. reflexivity.
  - destruct (Hne ltac:(discriminate)) as (Hmin & Hmax & Hall).
    set (n := Z.of_nat (length (v :: nz))) in *.
    assert (Hn : 0 < n) by (subst n; cbn [length]; lia).
    destruct (Z.gtb_spec n 0) as [_|?]; [|lia].
    pose proof (sumZ_bounds _ _ _ Hall) as Hb. fold n in Hb.
    assert (Hmn : 0 < min_ (times_loop timings) < 2 ^ 64).
    { rewrite list.Forall_forall in Hpos. apply Hpos, list_elem_of_In, Hmin. }
    assert (Hmx : 0 < max_ (times_loop timings) < 2 ^ 64).
    { rewrite list.Forall_forall in Hpos. apply Hpos, list_elem_of_In, Hmax. }
    rewrite uint64_small by lia.
    split; [split; [lia|apply Z.div_le_lower_bound; lia]|].
    split; [split; [apply Z.div_le_upper_bound; lia|lia]|].
    intros _. repeat split; assumption.
Qed.

Lemma summary_is_ordered_witness :
  (sample_array one_sample /\ sumZ (filled one_sample) < 2 ^ 64) /\
  exists mn av mx : Z,
    calculateTimes one_sample = (to_millis mn, to_millis av, to_millis mx) /\
    0 <= mn <= av /\ av <= mx < 2 ^ 64 /\
    (filled one_sample <> [] ->
     In mn (filled one_sample) /\ In mx (filled one_sample) /\
     av = sumZ (filled one_sample) / Z.of_nat (length (filled one_sample))).
Proof.
  assert (H : sumZ (filled one_sample) < 2 ^ 64) by (vm_compute; reflexivity).
  split; [exact (conj one_sample_array H)|].
  exact (summary_is_ordered one_sample one_sample_array H).
Defined.

(** X8: the summary depends on the samples stored, not on the slots
    that hold them: two arrays with the same samples, in whatever slots,
    have the same summary. *)
Theorem summary_ignores_slot_order (timings timings' : list Z) :
  Forall (fun v => 0 <= v < 2 ^ 64) timings ->
  timings ≡ₚ timings' ->
  times_loop timings' = times_loop timings /\
  calculateTimes timings' = calculateTimes timings.
Proof.
  intros Hrange Hperm.
  assert (Hrange' : Forall (fun v => 0 <= v < 2 ^ 64) timings')
    by (rewrite <- Hperm; exact Hrange).
  pose proof (filled_Permutation _ _ Hperm) as Hf.
  destruct (times_loop_summarizes timings Hrange) as (Hc & Ht & Hh & He & Hne).
  destruct (times_loop_summarizes timings' Hrange') as (Hc' & Ht' & Hh' & He' & Hne').
  assert (E : times_loop timings' = times_loop timings).
  { destruct (times_loop timings) as [c t mn mx h].
    destruct (times_loop timings') as [c' t' mn' mx' h'].
    cbn [counts total min_ max_ has_min] in *.
    assert (Hnil : filled timings = [] <-> filled timings' = []).
    { split; intros E; rewrite E in Hf;
        [|symmetry in Hf]; apply Permutation_nil in Hf; exact Hf. }
    f_equal.
    - rewrite Hc, Hc', (Permutation_length Hf). reflexivity.
    - rewrite Ht, Ht', (sumZ_Permutation _ _ Hf). reflexivity.
    - destruct (decide (filled timings = [])) as [En|En].
      + destruct (He En) as [-> _]. destruct (He' (proj1 Hnil En)) as [-> _]. reflexivity.
      + destruct (Hne En) as (Hmin & _ & Hall).
        assert (En' : filled timings' <> []) by tauto.
        destruct (Hne' En') as (Hmin' & _ & Hall').
        rewrite Forall_forall in Hall, Hall'.
        assert (H1 : In mn (filled timings')) by (rewrite <- Hf; exact Hmin).
        assert (H2 : In mn' (filled timings)) by (rewrite Hf; exact Hmin').
        apply list_elem_of_In in H1, H2.
        pose proof (Hall' _ H1). pose proof (Hall _ H2). lia.
    - destruct (decide (filled timings = [])) as [En|En].
      + destruct (He En) as [_ ->]. destruct (He' (proj1 Hnil En)) as [_ ->]. reflexivity.
      + destruct (Hne En) as (_ & Hmax & Hall).
        assert (En' : filled timings' <> []) by tauto.
        destruct (Hne' En') as (_ & Hmax' & Hall').
        rewrite Forall_forall in Hall, Hall'.
        assert (H1 : In mx (filled timings')) by (rewrite <- Hf; exact Hmax).
        assert (H2 : In mx' (filled timings)) by (rewrite Hf; exact Hmax').
        apply list_elem_of_In in H1, H2.
        pose proof (Hall' _ H1). pose proof (Hall _ H2). lia.
    - rewrite Hh, Hh'. f_equal. apply bool_decide_ext. symmetry. exact Hnil. }
  split; [exact E|]. unfold calculateTimes. rewrite E. reflexivity.
Qed.

Lemma summary_ignores_slot_order_witness :
  (Forall (fun v => 0 <= v < 2 ^ 64) [0; 7; 0; 3] /\ [0; 7; 0; 3] ≡ₚ [3; 0; 0; 7]) /\
  times_loop [3; 0; 0; 7] = times_loop [0; 7; 0; 3] /\
  calculateTimes [3; 0; 0; 7] = calculateTimes [0; 7; 0; 3].
Proof.
  assert (H1 : Forall (fun v => 0 <= v < 2 ^ 64) [0; 7; 0; 3])
    by (repeat constructor; lia).
  assert (H2 : [0; 7; 0; 3] ≡ₚ [3; 0; 0; 7]).
  { apply (Permutation_trans (l' := [3; 0; 7; 0])).
    - change ([0; 7; 0] ++ [3] ≡ₚ [3] ++ [0; 7; 0]). apply Permutation_app_comm.
    - do 2 constructor. apply perm_swap. }
  split; [exact (conj H1 H2)|].
  exact (summary_ignores_slot_order [0; 7; 0; 3] [3; 0; 0; 7] H1 H2).
Defined.

(** ** processPacket, call by call *)

Lemma set_synced_true_id (rs : source) : synced rs = true -> set_synced true rs = rs.
Proof. destruct rs. cbn. intros ->. reflexivity. Qed.

(** A request call, in terms of what [carvePacket] returns on the chunk. *)
Lemma processPacket_request (cfg : config) (g : globals) (rs : source)
    (data : list byte) (now : Z) (randn : nat) (ptype : Z) (pdata buf : slice) :
  carvePacket (Some data) = Ok (ptype, pdata, buf) ->
  processPacket cfg g rs true data now randn
  = if negb (synced (after_carve buf rs)) && negb (ptype =? COM_QUERY)
    then Ok (count_call true rs g, clear_buffers (after_carve buf rs))
    else if ptype =? -1 then Ok (count_call true rs g, after_carve buf rs)
    else record_request cfg (count_call true rs g) (set_synced true (after_carve buf rs))
                        (bytes_of pdata) (uint64 (len pdata)) now.
Proof.
  intros Hc. unfold processPacket.
  rewrite (ingest_request g rs data ptype pdata buf Hc). cbn [mbind result_bind andb].
  destruct (synced (after_carve buf rs)) eqn:Hs; cbn [negb andb].
  - rewrite (set_synced_true_id _ Hs). reflexivity.
  - destruct (ptype =? COM_QUERY) eqn:Hq; cbn [negb]; [|reflexivity].
    apply Z.eqb_eq in Hq. subst ptype. reflexivity.
Qed.

(** A response call. *)
Lemma processPacket_response (cfg : config) (g : globals) (rs : source)
    (data : list byte) (now : Z) (randn : nat) :
  processPacket cfg g rs false data now randn
  = if synced rs
    then Ok (record_response (count_call false rs g) (set_resbuffer None rs)
               (uint64 (len (Some data))) now randn)
    else Ok (count_call false rs g, clear_buffers rs).
Proof.
  unfold processPacket. rewrite ingest_response. cbn [mbind result_bind].
  cbn [synced set_resbuffer andb]. rewrite andb_true_r.
  destruct (synced rs); reflexivity.
Qed.


Lemma record_request_text (cfg : config) (g g' : globals) (rs rs' : source)
    (pdata : list byte) (plen now : Z) :
  record_request cfg g rs pdata plen now = Ok (g', rs') ->
  exists text : gostring,
    format_text cfg (set_reqSent (Some now) rs) pdata (format cfg) [] = Ok text /\
    g' = set_qbuf (<[text := count_request plen (default queryData_zero (qbuf g !! text))]>
                     (qbuf g))
                  (set_querycount (int64 (querycount g + 1)) g) /\
    rs' = set_query text (Some text) plen (set_reqSent (Some now) rs).
Proof.
  unfold record_request. intros H.
  destruct (format_text cfg (set_reqSent (Some now) rs) pdata (format cfg) [])
    as [text| | |]; try discriminate.
  cbn [mbind result_bind] in H. injection H as <- <-.
  exists text. repeat split.
Qed.

Lemma count_call_counters (request : bool) (rs : source) (g : globals) :
  packets_rcvd (count_call request rs g) = uint64 (packets_rcvd g + 1) /\
  packets_rcvd_sync (count_call request rs g)
  = (if synced rs then uint64 (packets_rcvd_sync g + 1) else packets_rcvd_sync g) /\
  desyncs (count_call request rs g)
  = (if request && bool_decide (resbuffer rs <> None)
     then uint64 (desyncs g + 1) else desyncs g).
Proof.
  unfold count_call. destruct (synced rs), (resbuffer rs), request; repeat split.
Qed.

Lemma after_carve_fields (buf : slice) (rs : source) :
  src (after_carve buf rs) = src rs /\ srcip (after_carve buf rs) = srcip rs /\
  resbuffer (after_carve buf rs) = None /\ reqbuffer (after_carve buf rs) = buf /\
  reqSent (after_carve buf rs) = reqSent rs /\ reqTimes (after_carve buf rs) = reqTimes rs /\
  qbytes (after_carve buf rs) = qbytes rs /\
  qdata (after_carve buf rs) = qdata rs /\ qtext (after_carve buf rs) = qtext rs /\
  (resbuffer rs = None -> synced (after_carve buf rs) = synced rs).
Proof.
  unfold after_carve. destruct rs as [s i sy rq rsb sent rt qb qd qt].
  destruct rsb; cbn; repeat split; intros; congruence.
Qed.

Lemma count_of_alter (f : queryData -> queryData) (key : gostring)
    (m : gmap gostring queryData) :
  (forall d : queryData, count (f d) = count d) ->
  count_of (alter f key m) = count_of m.
Proof.
  intros Hf. unfold count_of. apply map_eq. intros k.
  rewrite !lookup_fmap. destruct (decide (k = key)) as [->|Hk].
  - rewrite lookup_alter_eq. destruct (m !! key); cbn; [rewrite Hf|]; reflexivity.
  - rewrite lookup_alter_ne by congruence. reflexivity.
Qed.

Lemma is_Some_alter (f : queryData -> queryData) (key k : gostring)
    (m : gmap gostring queryData) :
  is_Some (alter f key m !! k) <-> is_Some (m !! k).
Proof.
  destruct (decide (k = key)) as [->|Hk].
  - rewrite lookup_alter_eq. rewrite fmap_is_Some. reflexivity.
  - rewrite lookup_alter_ne by congruence. reflexivity.
Qed.

(** What a response on a synchronized flow leaves as it was. *)
Lemma record_response_fields (g : globals) (rs : source) (plen now : Z) (randn : nat) :
  let g' := (record_response g rs plen now randn).1 in
  let rs' := (record_response g rs plen now randn).2 in
  packets_rcvd g' = packets_rcvd g /\ packets_rcvd_sync g' = packets_rcvd_sync g /\
  streams g' = streams g /\ desyncs g' = desyncs g /\ querycount g' = querycount g /\
  count_of (qbuf g') = count_of (qbuf g) /\
  (forall k : gostring, is_Some (qbuf g' !! k) <-> is_Some (qbuf g !! k)) /\
  src rs' = src rs /\ srcip rs' = srcip rs /\ synced rs' = synced rs /\
  reqbuffer rs' = reqbuffer rs /\ resbuffer rs' = resbuffer rs /\
  qdata rs' = qdata rs /\ qtext rs' = qtext rs /\ qbytes rs' = qbytes rs /\
  reqSent rs' = None.
Proof.
  unfold record_response.
  destruct (reqSent rs) eqn:Es; cbn [qdata set_reqTimes];
    destruct (qdata rs) eqn:Eq; cbn;
    repeat split; try reflexivity; try assumption;
    try (apply count_of_alter; intros d; reflexivity);
    try (apply is_Some_alter); try (intros H; exact H).
Qed.

(** One call of [processPacket] that returns, whatever the flow and the
    chunk: what it does to the counters, and what it keeps. *)
Lemma processPacket_step (cfg : config) (g g' : globals) (rs rs' : source)
    (request : bool) (data : list byte) (now : Z) (randn : nat) :
  processPacket cfg g rs request data now randn = Ok (g', rs') ->
  packets_rcvd g' = uint64 (packets_rcvd g + 1) /\
  packets_rcvd_sync g'
  = (if synced rs then uint64 (packets_rcvd_sync g + 1) else packets_rcvd_sync g) /\
  streams g' = streams g /\
  desyncs g'
  = (if request && bool_decide (resbuffer rs <> None)
     then uint64 (desyncs g + 1) else desyncs g) /\
  resbuffer rs' = None /\ src rs' = src rs /\ srcip rs' = srcip rs /\
  (resbuffer rs = None -> synced rs = true -> synced rs' = true) /\
  (forall k : gostring, is_Some (qbuf g !! k) -> is_Some (qbuf g' !! k)) /\
  (flow_registered g rs -> flow_registered g' rs') /\
  ((count_of (qbuf g') = count_of (qbuf g) /\ querycount g' = querycount g) \/
   (exists text : gostring,
      count_of (qbuf g')
      = <[text := uint64 (default 0 (count_of (qbuf g) !! text) + 1)]> (count_of (qbuf g)) /\
      querycount g' = int64 (querycount g + 1))).
Proof.
  destruct (count_call_counters request rs g) as (Hp & Hps & Hd).
  destruct (count_call_frame request rs g) as (Hq & Hqc & _ & Hst).
  assert (Hkeep : forall rs0 : source,
             src rs0 = src rs -> srcip rs0 = srcip rs -> resbuffer rs0 = None ->
             qdata rs0 = qdata rs -> qtext rs0 = qtext rs ->
             (resbuffer rs = None -> synced rs = true -> synced rs0 = true) ->
             Ok (count_call request rs g, rs0) = Ok (g', rs') ->
             packets_rcvd g' = uint64 (packets_rcvd g + 1) /\
             packets_rcvd_sync g'
             = (if synced rs then uint64 (packets_rcvd_sync g + 1)
                else packets_rcvd_sync g) /\
             streams g' = streams g /\
             desyncs g'
             = (if request && bool_decide (resbuffer rs <> None)
                then uint64 (desyncs g + 1) else desyncs g) /\
             resbuffer rs' = None /\ src rs' = src rs /\ srcip rs' = srcip rs /\
             (resbuffer rs = None -> synced rs = true -> synced rs' = true) /\
             (forall k : gostring, is_Some (qbuf g !! k) -> is_Some (qbuf g' !! k)) /\
             (flow_registered g rs -> flow_registered g' rs') /\
             ((count_of (qbuf g') = count_of (qbuf g) /\ querycount g' = querycount g) \/
              (exists text : gostring,
                 count_of (qbuf g')
                 = <[text := uint64 (default 0 (count_of (qbuf g) !! text) + 1)]>
                     (count_of (qbuf g)) /\
                 querycount g' = int64 (querycount g + 1)))).
  { intros rs0 H1 H2 H3 H4 H5 H6 E. injection E as <- <-.
    split; [exact Hp|]. split; [exact Hps|].
    split; [exact Hst|]. split; [exact Hd|]. split; [exact H3|].
    split; [exact H1|]. split; [exact H2|]. split; [exact H6|].
    split; [intros k; rewrite Hq; tauto|].
    split; [unfold flow_registered; rewrite H4, H5, Hq; tauto|].
    left. rewrite Hq. split; [reflexivity|exact Hqc]. }
  destruct request.
  - (* a request *)
    destruct (carvePacket_total (Some data)) as (ptype & pdata & buf & Hc & _).
    rewrite (processPacket_request cfg g rs data now randn ptype pdata buf Hc).
    destruct (after_carve_fields buf rs)
      as (Hsrc & Hip & Hres & _ & _ & _ & _ & Hqd & Hqt & Hsy).
    destruct (negb (synced (after_carve buf rs)) && negb (ptype =? COM_QUERY)) eqn:Hdrop.
    { (* dropped *)
      apply Hkeep; try assumption; try reflexivity.
      intros Hr Hs. rewrite (Hsy Hr), Hs in Hdrop. discriminate. }
    destruct (ptype =? -1) eqn:Hm.
    { (* no full frame *)
      apply Hkeep; try assumption.
      intros Hr Hs. rewrite (Hsy Hr). exact Hs. }
    intros Hrec. apply record_request_text in Hrec as (text & _ & -> & ->). cbn.
    split; [exact Hp|]. split; [exact Hps|]. split; [exact Hst|].
    split; [exact Hd|]. split; [exact Hres|]. split; [exact Hsrc|].
    split; [exact Hip|]. split; [reflexivity|].
    split.
    { intros k Hk. destruct (decide (k = text)) as [->|Hn].
      - rewrite lookup_insert_eq. eauto.
      - rewrite lookup_insert_ne by congruence. rewrite Hq. exact Hk. }
    split.
    { intros _. unfold flow_registered. cbn. split; [reflexivity|].
      rewrite lookup_insert_eq. eauto. }
    right. exists text. rewrite Hqc, Hq. split; [|reflexivity].
    unfold count_of. rewrite fmap_insert, lookup_fmap.
    destruct (qbuf g !! text); reflexivity.
  - (* a response *)
    rewrite processPacket_response.
    destruct (synced rs) eqn:Hs.
    2:{ apply Hkeep; try reflexivity. intros _ H. discriminate. }
    pose proof (record_response_fields (count_call false rs g) (set_resbuffer None rs)
                  (uint64 (len (Some data))) now randn) as Hrr.
    cbv zeta in Hrr.
    destruct Hrr as (R1 & R2 & R3 & R4 & R5 & R6 & R7 & R8 & R9 & R10 & _ & R12
                     & R13 & R14 & _).
    destruct (record_response (count_call false rs g) (set_resbuffer None rs)
                (uint64 (len (Some data))) now randn) as [g1 rs1].
    cbn [fst snd] in *. intros E. injection E as <- <-.
    split; [rewrite R1; exact Hp|]. split; [rewrite R2; exact Hps|].
    split; [rewrite R3; exact Hst|]. split; [rewrite R4; exact Hd|].
    split; [exact R12|]. split; [exact R8|]. split; [exact R9|].
    split; [intros _ _; rewrite R10; exact Hs|].
    split; [intros k Hk; apply R7; rewrite Hq; exact Hk|].
    split.
    { unfold flow_registered. rewrite R13, R14. cbn [qdata qtext set_resbuffer].
      destruct (qdata rs); [|tauto]. intros [E Hk]. split; [exact E|].
      apply R7. rewrite Hq. exact Hk. }
    left. rewrite R6, R5, Hq. split; [reflexivity|exact Hqc].
Qed.

(** [processPacket] returns on every flow and chunk, the format being one
    [parseFormat] produces. *)
Lemma processPacket_returns (cfg : config) (g : globals) (rs : source)
    (request : bool) (data : list byte) (now : Z) (randn : nat) :
  format_ok cfg ->
  exists (g' : globals) (rs' : source),
    processPacket cfg g rs request data now randn = Ok (g', rs').
Proof.
  intros Hf. destruct request.
  - destruct (carvePacket_total (Some data)) as (ptype & pdata & buf & Hc & _).
    rewrite (processPacket_request cfg g rs data now randn ptype pdata buf Hc).
    destruct (negb (synced (after_carve buf rs)) && negb (ptype =? COM_QUERY)); [eauto|].
    destruct (ptype =? -1); [eauto|].
    destruct (record_request_Ok cfg (count_call true rs g)
                (set_synced true (after_carve buf rs)) (bytes_of pdata)
                (uint64 (len pdata)) now Hf) as (g' & rs' & -> & _).
    eauto.
  - rewrite processPacket_response. destruct (synced rs); [|eauto].
    destruct (record_response (count_call false rs g) (set_resbuffer None rs)
                (uint64 (len (Some data))) now randn) as [g' rs'].
    eauto.
Qed.

(** ** processPacket: a request and its response *)

(** The text of a request depends on the flow through [src] and [srcip]
    only. *)
Lemma format_text_flow (cfg : config) (rs rs' : source) (pdata : list byte)
    (items : list format_item) :
  src rs' = src rs -> srcip rs' = srcip rs ->
  forall text : gostring,
    format_text cfg rs' pdata items text = format_text cfg rs pdata items text.
Proof.
  intros Hs Hi. induction items as [|item items IH]; intros text; [reflexivity|].
  cbn [format_text]. rewrite Hs, Hi.
  destruct item as [[]| | |]; cbn [mbind result_bind]; try reflexivity; try apply IH.
  - destruct (dirty cfg); [apply IH|].
    destruct (cleanupQuery cfg pdata); cbn [mbind result_bind]; try reflexivity. apply IH.
  - destruct (route_text cfg pdata); cbn [mbind result_bind]; try reflexivity. apply IH.
Qed.

Lemma uint64_add_r (x y : Z) : uint64 (x + uint64 y) = uint64 (x + y).
Proof. unfold uint64. apply Zplus_mod_idemp_r. Qed.

Lemma uint64_sum3 (b p r : Z) :
  uint64 (uint64 (b + uint64 p) + uint64 r) = uint64 (b + p + r).
Proof.
  rewrite uint64_add_r, uint64_add_l.
  replace (b + uint64 p + r) with (b + r + uint64 p) by lia.
  rewrite uint64_add_r. f_equal. lia.
Qed.

Lemma Since_difference (t1 t2 : Z) :
  0 <= t2 - t1 < 2 ^ 63 -> uint64 (Since t1 t2) = t2 - t1.
Proof.
  intros Ht. unfold Since. rewrite Z.min_r, Z.max_r by lia. apply uint64_small. lia.
Qed.

(** A request that carves a query frame and the first chunk of its
    response, on one flow. *)
Lemma request_then_response (cfg : config) (g : globals) (rs : source)
    (data resp : list byte) (t1 t2 : Z) (r1 r2 : nat) (pdata buf : slice) :
  format_ok cfg ->
  carvePacket (Some data) = Ok (COM_QUERY, pdata, buf) ->
  exists (text : gostring) (g1 g2 : globals) (rs1 rs2 : source),
    format_text cfg rs (bytes_of pdata) (format cfg) [] = Ok text /\
    processPacket cfg g rs true data t1 r1 = Ok (g1, rs1) /\
    processPacket cfg g1 rs1 false resp t2 r2 = Ok (g2, rs2) /\
    qbuf g2 !! text
    = Some (QueryData
              (uint64 (count (default queryData_zero (qbuf g !! text)) + 1))
              (uint64 (bytes (default queryData_zero (qbuf g !! text))
                       + len pdata + Z.of_nat (length resp)))
              (<[r2 := uint64 (Since t1 t2)]>
                 (times (default queryData_zero (qbuf g !! text))))) /\
    (forall k : gostring, k <> text -> qbuf g2 !! k = qbuf g !! k) /\
    gtimes g2 = <[r2 := uint64 (Since t1 t2)]> (gtimes g) /\
    querycount g2 = int64 (querycount g + 1) /\
    reqTimes rs2 = <[r2 := uint64 (Since t1 t2)]> (reqTimes rs) /\
    reqSent rs2 = None /\ synced rs2 = true /\ qtext rs2 = text /\
    qdata rs2 = Some text /\ src rs2 = src rs /\ srcip rs2 = srcip rs.
Proof.
  intros Hf Hc.
  destruct (after_carve_fields buf rs)
    as (Hsrc & Hip & Hres & _ & _ & Hrt & _ & _ & _ & _).
  destruct (count_call_frame true rs g) as (Hq & Hqc & Hgt & _).
  set (g0 := count_call true rs g) in *.
  set (rs0 := set_synced true (after_carve buf rs)).
  destruct (record_request_Ok cfg g0 rs0 (bytes_of pdata) (uint64 (len pdata)) t1 Hf)
    as (g1 & rs1 & Hrec & _).
  pose proof Hrec as Hrec'.
  apply record_request_text in Hrec' as (text & Htext & Hg1 & Hrs1).
  rewrite (format_text_flow cfg rs) in Htext by assumption.
  exists text, g1. eexists. exists rs1. eexists.
  split; [exact Htext|].
  split.
  { rewrite (processPacket_request cfg g rs data t1 r1 _ _ _ Hc).
    change (COM_QUERY =? COM_QUERY) with true. rewrite andb_false_r.
    change (COM_QUERY =? -1) with false. cbv iota. exact Hrec. }
  assert (Hs1 : synced rs1 = true) by (rewrite Hrs1; reflexivity).
  destruct (count_call_frame false rs1 g1) as (Hq1 & Hqc1 & Hgt1 & _).
  pose (g1' := count_call false rs1 g1).
  assert (E2 : record_response g1' (set_resbuffer None rs1)
                 (uint64 (len (Some resp))) t2 r2
               = (set_qbuf (alter (fun d => add_bytes (uint64 (len (Some resp)))
                                              (set_time r2 (uint64 (Since t1 t2)) d))
                                  text (qbuf g1'))
                           (set_gtimes (<[r2 := uint64 (Since t1 t2)]> (gtimes g1')) g1'),
                  set_reqSent None
                    (set_reqTimes (<[r2 := uint64 (Since t1 t2)]> (reqTimes rs1))
                                  (set_resbuffer None rs1)))).
  { unfold record_response. rewrite Hrs1. reflexivity. }
  split.
  { rewrite processPacket_response, Hs1. fold g1'. rewrite E2. reflexivity. }
  subst g1'.
  cbn [qbuf set_qbuf gtimes set_gtimes querycount reqTimes reqSent synced qtext qdata
       src srcip set_reqSent set_reqTimes set_resbuffer].
  rewrite Hq1, Hgt1, Hqc1, Hg1. cbn [qbuf set_qbuf gtimes querycount set_querycount].
  rewrite Hq, Hgt, Hqc.
  split.
  { rewrite lookup_alter_eq, lookup_insert_eq. cbn [fmap option_fmap option_map].
    unfold add_bytes, set_time, count_request. cbn [count bytes times].
    f_equal. f_equal. apply uint64_sum3. }
  split.
  { intros k Hk. rewrite lookup_alter_ne, lookup_insert_ne by congruence. reflexivity. }
  split; [reflexivity|]. split; [reflexivity|].
  rewrite Hrs1. subst rs0.
  cbn [reqTimes synced qtext qdata src srcip set_query set_reqSent set_synced].
  rewrite Hrt, Hsrc, Hip. repeat split.
Qed.

(** X9: a request that carves a query frame, answered in two chunks:
    the request is counted in the aggregate of its text, which takes the
    payload bytes and the bytes of both response chunks; the time from the
    request to the first response chunk (the difference of the two clock
    readings when it fits a [Duration]) is stored at the slot drawn for that
    chunk, in the aggregate, the global and the flow samples; the second
    response chunk stores no sample, and no other aggregate changes. *)
Theorem latency_of_first_response (cfg : config) (g : globals) (rs : source)
    (data resp resp' : list byte) (t1 t2 t3 : Z) (r1 r2 r3 : nat)
    (pdata buf : slice) :
  format_ok cfg ->
  carvePacket (Some data) = Ok (COM_QUERY, pdata, buf) ->
  exists (text : gostring) (g3 : globals) (rs3 : source),
    format_text cfg rs (bytes_of pdata) (format cfg) [] = Ok text /\
    run cfg g rs [Event true data t1 r1; Event false resp t2 r2;
                  Event false resp' t3 r3] = Ok (g3, rs3) /\
    qbuf g3 !! text
    = Some (QueryData
              (uint64 (count (default queryData_zero (qbuf g !! text)) + 1))
              (uint64 (bytes (default queryData_zero (qbuf g !! text))
                       + len pdata + Z.of_nat (length resp) + Z.of_nat (length resp')))
              (<[r2 := uint64 (Since t1 t2)]>
                 (times (default queryData_zero (qbuf g !! text))))) /\
    (forall k : gostring, k <> text -> qbuf g3 !! k = qbuf g !! k) /\
    gtimes g3 = <[r2 := uint64 (Since t1 t2)]> (gtimes g) /\
    reqTimes rs3 = <[r2 := uint64 (Since t1 t2)]> (reqTimes rs) /\
    reqSent rs3 = None /\ synced rs3 = true /\ qtext rs3 = text /\
    querycount g3 = int64 (querycount g + 1) /\
    (0 <= t2 - t1 < 2 ^ 63 -> uint64 (Since t1 t2) = t2 - t1).
Proof.
  intros Hf Hc.
  destruct (request_then_response cfg g rs data resp t1 t2 r1 r2 pdata buf Hf Hc)
    as (text & g1 & g2 & rs1 & rs2 & Htext & Hp1 & Hp2 & Hqb & Hother & Hgt & Hqc
        & Hrt & Hsent & Hsy & Hqt & Hqd & _).
  exists text.
  cbn [run ev_request ev_data ev_now ev_randn].
  rewrite Hp1. cbn [mbind result_bind]. rewrite Hp2. cbn [mbind result_bind].
  (* the second chunk of the response *)
  rewrite processPacket_response, Hsy.
  destruct (count_call_frame false rs2 g2) as (Hq2 & Hqc2 & Hgt2 & _).
  assert (E3 : record_response (count_call false rs2 g2) (set_resbuffer None rs2)
                 (uint64 (len (Some resp'))) t3 r3
               = (set_qbuf (alter (add_bytes (uint64 (len (Some resp')))) text
                                  (qbuf (count_call false rs2 g2)))
                           (count_call false rs2 g2),
                  set_resbuffer None rs2)).
  { unfold record_response. cbn [reqSent qdata set_resbuffer].
    rewrite Hsent, Hqd. reflexivity. }
  rewrite E3. cbn [mbind result_bind].
  eexists _, _. split; [exact Htext|]. split; [reflexivity|].
  cbn [qbuf set_qbuf gtimes reqTimes reqSent synced qtext querycount set_resbuffer].
  rewrite Hq2, Hgt2, Hqc2.
  split.
  { rewrite lookup_alter_eq, Hqb. cbn [fmap option_fmap option_map].
    unfold add_bytes. cbn [count bytes times]. f_equal. f_equal.
    unfold len at 2. cbn [bytes_of]. rewrite uint64_add_r, uint64_add_l. reflexivity. }
  split; [intros k Hk; rewrite lookup_alter_ne by congruence; apply Hother, Hk|].
  split; [exact Hgt|]. split; [exact Hrt|]. split; [exact Hsent|].
  split; [exact Hsy|]. split; [exact Hqt|]. split; [exact Hqc|].
  apply Since_difference.
Qed.

Lemma latency_of_first_response_witness :
  (format_ok default_config /\
   carvePacket (Some frame_SELECT) = Ok (COM_QUERY, Some (str "SE"), Some (str "LECT"))) /\
  exists (text : gostring) (g3 : globals) (rs3 : source),
    format_text default_config flow_zero (bytes_of (Some (str "SE")))
                (format default_config) [] = Ok text /\
    run default_config globals_zero flow_zero
        [Event true frame_SELECT 100 0; Event false (str "ok") 250 7;
         Event false (str "more") 300 9] = Ok (g3, rs3) /\
    qbuf g3 !! text
    = Some (QueryData
              (uint64 (count (default queryData_zero (qbuf globals_zero !! text)) + 1))
              (uint64 (bytes (default queryData_zero (qbuf globals_zero !! text))
                       + len (Some (str "SE")) + Z.of_nat (length (str "ok"))
                       + Z.of_nat (length (str "more"))))
              (<[7%nat := uint64 (Since 100 250)]>
                 (times (default queryData_zero (qbuf globals_zero !! text))))) /\
    (forall k : gostring, k <> text -> qbuf g3 !! k = qbuf globals_zero !! k) /\
    gtimes g3 = <[7%nat := uint64 (Since 100 250)]> (gtimes globals_zero) /\
    reqTimes rs3 = <[7%nat := uint64 (Since 100 250)]> (reqTimes flow_zero) /\
    reqSent rs3 = None /\ synced rs3 = true /\ qtext rs3 = text /\
    querycount g3 = int64 (querycount globals_zero + 1) /\
    (0 <= 250 - 100 < 2 ^ 63 -> uint64 (Since 100 250) = 250 - 100).
Proof.
  assert (Hc : carvePacket (Some frame_SELECT)
               = Ok (COM_QUERY, Some (str "SE"), Some (str "LECT")))
    by (vm_compute; reflexivity).
  split; [exact (conj default_format_ok Hc)|].
  exact (latency_of_first_response default_config globals_zero flow_zero frame_SELECT
           (str "ok") (str "more") 100 250 300 0 7 9 (Some (str "SE"))
           (Some (str "LECT")) default_format_ok Hc).
Defined.

(** The example frame, answered 150 ns later. *)
Example latency_example :
  exists (g' : globals) (rs' : source),
    run default_config globals_zero flow_zero
        [Event true frame_SELECT 100 0; Event false (str "ok") 250 7] = Ok (g', rs') /\
    (times <$> qbuf g' !! str "10.0.0.1:5000:SE") ≫= (.!! 7%nat) = Some 150 /\
    bytes <$> qbuf g' !! str "10.0.0.1:5000:SE" = Some 4.
Proof.
  eexists _, _. split; [vm_compute; reflexivity|]. split; vm_compute; reflexivity.
Qed.

(** X10: what a call leaves in the request buffer is never read: a
    request call does the same, and leaves the same state, whatever the
    request buffer of the flow held, so that a frame split over two
    chunks is never put together. *)
Theorem request_ignores_buffered_bytes (cfg : config) (g : globals) (rs : source)
    (held : slice) (data : list byte) (now : Z) (randn : nat) :
  processPacket cfg g (set_reqbuffer held rs) true data now randn
  = processPacket cfg g rs true data now randn.
Proof.
  destruct (carvePacket_total (Some data)) as (ptype & pdata & buf & Hc & _).
  rewrite !(processPacket_request cfg g _ data now randn ptype pdata buf Hc).
  assert (Ha : after_carve buf (set_reqbuffer held rs) = after_carve buf rs).
  { unfold after_carve. destruct rs as [s i sy rq rsb sent rt qb qd qt].
    destruct rsb; reflexivity. }
  assert (Hg : count_call true (set_reqbuffer held rs) g = count_call true rs g).
  { unfold count_call. destruct rs as [s i sy rq rsb sent rt qb qd qt]. reflexivity. }
  rewrite Ha, Hg. reflexivity.
Qed.

(** The example frame in two chunks: neither chunk holds a frame, and the
    query is not counted. *)
Example split_frame_not_counted :
  exists (g' : globals) (rs' : source),
    run default_config globals_zero flow_zero
        [Event true (take 4 frame_SELECT) 1 0; Event true (drop 4 frame_SELECT) 2 0]
    = Ok (g', rs') /\
    querycount g' = 0 /\ qbuf g' = ∅ /\ synced rs' = false /\ packets_rcvd g' = 2.
Proof.
  eexists _, _. split; [vm_compute; reflexivity|]. repeat split.
Qed.

(** X11: the command byte is looked at only to synchronize: on a
    synchronized flow every request chunk that carves a frame is counted as
    a query, whatever its command byte, and its text is registered. *)
Theorem synced_counts_every_command (cfg : config) (g : globals) (rs : source)
    (data : list byte) (now : Z) (randn : nat) (ptype : Z) (pdata buf : slice) :
  format_ok cfg ->
  synced rs = true -> resbuffer rs = None ->
  carvePacket (Some data) = Ok (ptype, pdata, buf) ->
  ptype <> -1 ->
  exists (text : gostring) (g' : globals) (rs' : source),
    format_text cfg rs (bytes_of pdata) (format cfg) [] = Ok text /\
    processPacket cfg g rs true data now randn = Ok (g', rs') /\
    querycount g' = int64 (querycount g + 1) /\
    qbuf g' !! text
    = Some (count_request (uint64 (len pdata))
              (default queryData_zero (qbuf g !! text))) /\
    qtext rs' = text /\ qdata rs' = Some text /\ qbytes rs' = uint64 (len pdata) /\
    reqSent rs' = Some now /\ reqbuffer rs' = buf /\ synced rs' = true.
Proof.
  intros Hf Hs Hr Hc Hp.
  destruct (after_carve_fields buf rs)
    as (Hsrc & Hip & _ & Hrq & _ & _ & _ & _ & _ & Hsy).
  destruct (count_call_frame true rs g) as (Hq & Hqc & _).
  destruct (record_request_Ok cfg (count_call true rs g)
              (set_synced true (after_carve buf rs)) (bytes_of pdata)
              (uint64 (len pdata)) now Hf) as (g' & rs' & Hrec & _).
  pose proof Hrec as Hrec'.
  apply record_request_text in Hrec' as (text & Htext & -> & ->).
  rewrite (format_text_flow cfg rs) in Htext by assumption.
  exists text. eexists _, _. split; [exact Htext|].
  rewrite (processPacket_request cfg g rs data now randn ptype pdata buf Hc).
  rewrite (Hsy Hr), Hs. cbn [negb andb].
  destruct (Z.eqb_spec ptype (-1)) as [?|_]; [contradiction|].
  split; [exact Hrec|].
  cbn [querycount set_qbuf set_querycount qbuf qtext qdata qbytes reqSent reqbuffer
       synced set_query set_reqSent set_synced].
  rewrite Hqc, Hq, lookup_insert_eq.
  repeat split.
Qed.



Lemma synced_counts_every_command_witness :
  (format_ok default_config /\ synced flow_synced = true /\
   resbuffer flow_synced = None /\
   carvePacket (Some frame_PING) = Ok (14, Some [], None) /\ 14 <> -1) /\
  exists (text : gostring) (g' : globals) (rs' : source),
    format_text default_config flow_synced (bytes_of (Some [])) (format default_config) []
    = Ok text /\
    processPacket default_config globals_zero flow_synced true frame_PING 5 0
    = Ok (g', rs') /\
    querycount g' = int64 (querycount globals_zero + 1) /\
    qbuf g' !! text
    = Some (count_request (uint64 (len (Some [])))
              (default queryData_zero (qbuf globals_zero !! text))) /\
    qtext rs' = text /\ qdata rs' = Some text /\ qbytes rs' = uint64 (len (Some [])) /\
    reqSent rs' = Some 5 /\ reqbuffer rs' = None /\ synced rs' = true.
Proof.
  assert (Hc : carvePacket (Some frame_PING) = Ok (14, Some [], None))
    by (vm_compute; reflexivity).
  assert (Hp : 14 <> -1) by discriminate.
  split; [exact (conj default_format_ok (conj eq_refl (conj eq_refl (conj Hc Hp))))|].
  exact (synced_counts_every_command default_config globals_zero flow_synced frame_PING
           5 0 14 (Some []) None default_format_ok eq_refl eq_refl Hc Hp).
Defined.

(** ** processPacket: the route of a request *)

Lemma SplitN_space_first (a b : gostring) (n : nat) :
  no_space a ->
  SplitN (a ++ " "%byte :: b) (str " ") (S (S n)) = a :: SplitN b (str " ") (S n).
Proof.
  intros Ha. cbn [SplitN]. change (str " ") with [" "%byte].
  rewrite (cut_byte_first _ _ _ Ha). reflexivity.
Qed.

Lemma SplitN_space_last (a : gostring) (n : nat) :
  no_space a -> SplitN a (str " ") (S n) = [a].
Proof.
  intros Ha. cbn [SplitN]. destruct n; [reflexivity|].
  change (str " ") with [" "%byte]. rewrite (cut_absent _ _ Ha). reflexivity.
Qed.

Lemma route_text_annotated (cfg : config) (verb p2 : gostring) :
  no_space verb -> no_space p2 ->
  (forall rest : gostring,
     route_text cfg (verb ++ str " /* " ++ p2 ++ str " */ " ++ rest)
     = if Contains p2 (str ":") then index (SplitN p2 (str ":") 2) 1 else Ok p2) /\
  route_text cfg (verb ++ str " /* " ++ p2 ++ str " */")
  = if Contains p2 (str ":") then index (SplitN p2 (str ":") 2) 1 else Ok p2.
Proof.
  intros Hv Hp.
  assert (Hmark1 : no_space (str "/*")) by (repeat constructor; discriminate).
  assert (Hmark2 : no_space (str "*/")) by (repeat constructor; discriminate).
  split.
  - intros rest. unfold route_text.
    change (verb ++ str " /* " ++ p2 ++ str " */ " ++ rest)
      with (verb ++ " "%byte :: (str "/*" ++ " "%byte
              :: (p2 ++ " "%byte :: (str "*/" ++ " "%byte :: rest)))).
    rewrite (SplitN_space_first verb _ 3 Hv).
    rewrite (SplitN_space_first (str "/*") _ 2 Hmark1).
    rewrite (SplitN_space_first p2 _ 1 Hp).
    rewrite (SplitN_space_first (str "*/") _ 0 Hmark2).
    cbn [SplitN length Nat.leb].
    index_known 1 (str "/*").
    destruct (decide (str "/*" = str "/*")) as [_|H]; [|contradiction].
    index_known 3 (str "*/").
    destruct (decide (str "*/" = str "*/")) as [_|H]; [|contradiction].
    index_known 2 p2. reflexivity.
  - unfold route_text.
    change (verb ++ str " /* " ++ p2 ++ str " */")
      with (verb ++ " "%byte :: (str "/*" ++ " "%byte :: (p2 ++ " "%byte :: str "*/"))).
    rewrite (SplitN_space_first verb _ 3 Hv).
    rewrite (SplitN_space_first (str "/*") _ 2 Hmark1).
    rewrite (SplitN_space_first p2 _ 1 Hp).
    rewrite (SplitN_space_last (str "*/") 1 Hmark2).
    cbn [length Nat.leb].
    index_known 1 (str "/*").
    destruct (decide (str "/*" = str "/*")) as [_|H]; [|contradiction].
    index_known 3 (str "*/").
    destruct (decide (str "*/" = str "*/")) as [_|H]; [|contradiction].
    index_known 2 p2. reflexivity.
Qed.

(** X12: the route placeholder [#r] of a request that starts
    [verb /* host:route */] is the route without the host, nothing else of
    the request, whether or not anything follows the closing [*/]; an
    annotation without colon is the route as it is; and a request without
    spaces has the route [(unknown)] followed by its canonical text. *)
Theorem route_of_annotated_request (cfg : config) (verb host route rest : gostring) :
  no_space verb -> no_space host -> no_space route ->
  Forall (fun c => c <> ":"%byte) host ->
  route_text cfg (verb ++ str " /* " ++ host ++ str ":" ++ route ++ str " */ " ++ rest)
  = Ok route /\
  route_text cfg (verb ++ str " /* " ++ host ++ str ":" ++ route ++ str " */")
  = Ok route /\
  route_text cfg (verb ++ str " /* " ++ host ++ str " */ " ++ rest) = Ok host /\
  (exists text : gostring,
     cleanupQuery cfg verb = Ok text /\
     route_text cfg verb = Ok (str "(unknown) " ++ text)).
Proof.
  intros Hv Hh Hr Hc.
  assert (Hp2 : no_space (host ++ str ":" ++ route)).
  { apply Forall_app. split; [exact Hh|].
    apply Forall_app. split; [repeat constructor; discriminate|exact Hr]. }
  assert (Hcut : cut (host ++ str ":" ++ route) (str ":") = Some (host, route)).
  { change (str ":" ++ route) with (":"%byte :: route). change (str ":") with [":"%byte].
    apply cut_byte_first, Hc. }
  assert (Hnone : cut host (str ":") = None).
  { change (str ":") with [":"%byte]. apply cut_absent, Hc. }
  destruct (route_text_annotated cfg verb _ Hv Hp2) as [H5 H4].
  destruct (route_text_annotated cfg verb _ Hv Hh) as [H5' _].
  split; [|split; [|split]].
  - specialize (H5 rest). rewrite <- !app_assoc in H5. rewrite H5.
    unfold Contains. rewrite Hcut, (SplitN_2_cut _ _ _ _ Hcut). reflexivity.
  - rewrite <- !app_assoc in H4. rewrite H4.
    unfold Contains. rewrite Hcut, (SplitN_2_cut _ _ _ _ Hcut). reflexivity.
  - rewrite H5'. unfold Contains. rewrite Hnone. reflexivity.
  - destruct (cleanupQuery_Ok cfg verb) as [text Ht].
    exists text. split; [exact Ht|].
    unfold route_text. rewrite (SplitN_space_last verb 4 Hv), Ht. reflexivity.
Qed.

Lemma route_of_annotated_request_witness :
  (no_space (str "SELECT") /\ no_space (str "db1") /\ no_space (str "users") /\
   Forall (fun c => c <> ":"%byte) (str "db1")) /\
  route_text default_config
    (str "SELECT" ++ str " /* " ++ str "db1" ++ str ":" ++ str "users" ++ str " */ "
     ++ str "* FROM t")
  = Ok (str "users") /\
  route_text default_config
    (str "SELECT" ++ str " /* " ++ str "db1" ++ str ":" ++ str "users" ++ str " */")
  = Ok (str "users") /\
  route_text default_config
    (str "SELECT" ++ str " /* " ++ str "db1" ++ str " */ " ++ str "* FROM t")
  = Ok (str "db1") /\
  (exists text : gostring,
     cleanupQuery default_config (str "SELECT") = Ok text /\
     route_text default_config (str "SELECT") = Ok (str "(unknown) " ++ text)).
Proof.
  assert (H1 : no_space (str "SELECT")) by (repeat constructor; discriminate).
  assert (H2 : no_space (str "db1")) by (repeat constructor; discriminate).
  assert (H3 : no_space (str "users")) by (repeat constructor; discriminate).
  assert (H4 : Forall (fun c => c <> ":"%byte) (str "db1"))
    by (repeat constructor; discriminate).
  split; [exact (conj H1 (conj H2 (conj H3 H4)))|].
  exact (route_of_annotated_request default_config (str "SELECT") (str "db1")
           (str "users") (str "* FROM t") H1 H2 H3 H4).
Defined.

(** The canonical text of the same request keeps the annotation, without
    the host; with nothing after the annotation it keeps the host too. *)
Example route_in_canonical_text :
  cleanupQuery default_config (str "SELECT /* db1:users */ * FROM t")
  = Ok (str "SELECT /* users */ * FROM t") /\
  cleanupQuery default_config (str "SELECT /* db1:users */")
  = Ok (str "SELECT /* db1:users */").
Proof. split; vm_compute; reflexivity. Qed.

(** ** handlePacket: the key of a flow *)

Lemma digit_value (k : Z) : 0 <= k < 10 -> u8 (digit k) = 48 + k.
Proof.
  intros H.
  assert (E : k = 0 \/ k = 1 \/ k = 2 \/ k = 3 \/ k = 4 \/ k = 5 \/ k = 6 \/ k = 7
              \/ k = 8 \/ k = 9) by lia.
  destruct E as [-> | [-> | [-> | [-> | [-> | [-> | [-> | [-> | [-> | ->]]]]]]]]];
    reflexivity.
Qed.

Lemma decimal_loop_digits (budget : nat) :
  forall (u : Z) (buf : gostring),
    0 <= u ->
    Forall (fun c => is_digit (u8 c) = true) buf ->
    Forall (fun c => is_digit (u8 c) = true) (decimal_loop budget u buf).
Proof.
  induction budget as [|budget IH]; intros u buf Hu Hbuf; [exact Hbuf|].
  cbn [decimal_loop]. destruct (Z.leb_spec 10 u) as [H10|H10].
  - apply IH; [apply Z.div_pos; lia|].
    constructor; [|exact Hbuf].
    rewrite digit_value by (apply Z.mod_pos_bound; lia).
    pose proof (Z.mod_pos_bound u 10 ltac:(lia)).
    unfold is_digit. apply andb_true_iff. split; apply Z.leb_le; lia.
  - constructor; [|exact Hbuf].
    rewrite digit_value by lia.
    unfold is_digit. apply andb_true_iff. split; apply Z.leb_le; lia.
Qed.

(** The decimal text of a number holds digits only. *)
Lemma decimal_digits (u : Z) :
  0 <= u -> Forall (fun c => is_digit (u8 c) = true) (decimal u).
Proof. intros Hu. apply decimal_loop_digits; [exact Hu|constructor]. Qed.

Lemma decimal_no_colon (u : Z) : 0 <= u -> Forall (fun c => c <> ":"%byte) (decimal u).
Proof.
  intros Hu. eapply Forall_impl; [apply decimal_digits, Hu|].
  intros c Hc ->. discriminate.
Qed.

Lemma IP_String_no_colon (ip : IP) : Forall (fun c => c <> ":"%byte) (IP_String ip).
Proof.
  unfold IP_String.
  repeat (apply Forall_app; split);
    try (apply decimal_no_colon, u8_range);
    repeat constructor; discriminate.
Qed.

(** The [srcip] of a new flow: the text of [src] up to its first colon is
    the address. *)
Lemma srcip_of_addr (ip : IP) (p : Z) :
  subslice (Sprintf_addr ip p) 0 (Index (Sprintf_addr ip p) (str ":"))
  = Ok (IP_String ip).
Proof.
  unfold Index, Sprintf_addr.
  change (str ":" ++ decimal p) with (":"%byte :: decimal p).
  change (str ":") with [":"%byte].
  rewrite (cut_byte_first _ _ _ (IP_String_no_colon ip)).
  rewrite subslice_Ok by (rewrite ?length_app; lia).
  rewrite Z.sub_0_r, Nat2Z.id. change (Z.to_nat 0) with 0%nat. rewrite drop_0.
  rewrite take_app_length. reflexivity.
Qed.

Lemma flow_of_addr (port : Z) (ip : IPv4) (tcp : TCP) (src_ : gostring) (request : bool) :
  flow_of port ip tcp = Ok (src_, request) ->
  exists (addr : IP) (p : Z), src_ = Sprintf_addr addr p.
Proof.
  unfold flow_of. intros H.
  destruct (uint16 (SrcPort tcp) =? port); [injection H as <- _; eauto|].
  destruct (uint16 (DstPort tcp) =? port); [injection H as <- _; eauto|].
  discriminate.
Qed.

(** A call of [handlePacket] that returns either ignored the packet, which
    carried no data, or went through [processPacket] with the flow of the
    packet's key. *)
Lemma handlePacket_cases (cfg : config) (port : Z) (p p' : program) (pkt : Packet)
    (now : Z) (randn : nat) :
  handlePacket cfg port p pkt now randn = Ok p' ->
  (carries_data pkt = false /\ p' = p) \/
  (carries_data pkt = true /\
   exists (ip : IPv4) (tcp : TCP) (src_ : gostring) (request : bool)
          (g0 g' : globals) (rs0 rs' : source),
     ipLayer pkt = Some ip /\ tcpLayer pkt = Some tcp /\
     flow_of port ip tcp = Ok (src_, request) /\
     flow_lookup p src_ = Ok (g0, rs0) /\
     processPacket cfg g0 rs0 request (Payload tcp) now randn = Ok (g', rs') /\
     p' = Program g' (<[src_ := rs']> (chmap p))).
Proof.
  unfold handlePacket, carries_data. intros H.
  destruct (ipLayer pkt) as [ip|]; [|left; split; congruence].
  destruct (tcpLayer pkt) as [tcp|]; [|left; split; congruence].
  destruct (Z.leb_spec (Z.of_nat (length (Payload tcp))) 0) as [Hlen|Hlen].
  { left. split; [|congruence].
    destruct (Nat.eqb_spec (length (Payload tcp)) 0); [reflexivity|lia]. }
  destruct (flow_of port ip tcp) as [[src_ request]| | |] eqn:Hflow; try discriminate.
  cbn [mbind result_bind] in H.
  destruct (flow_lookup p src_) as [[g0 rs0]| | |] eqn:Hlook; try discriminate.
  cbn [mbind result_bind] in H.
  destruct (processPacket cfg g0 rs0 request (Payload tcp) now randn)
    as [[g' rs']| | |] eqn:Hpp; try discriminate.
  cbn [mbind result_bind] in H. injection H as <-.
  right. split.
  { destruct (Nat.eqb_spec (length (Payload tcp)) 0); [lia|reflexivity]. }
  exists ip, tcp, src_, request, g0, g', rs0, rs'.
  repeat split; try assumption; reflexivity.
Qed.

(** The flow [flow_lookup] returns: the one on file, or a new one, counted
    as a stream. *)
Lemma flow_lookup_cases (p : program) (src_ : gostring) (g0 : globals) (rs0 : source) :
  flow_lookup p src_ = Ok (g0, rs0) ->
  (chmap p !! src_ = Some rs0 /\ g0 = vars p) \/
  (chmap p !! src_ = None /\
   g0 = set_streams (uint64 (streams (vars p) + 1)) (vars p) /\
   exists srcip_ : gostring,
     subslice src_ 0 (Index src_ (str ":")) = Ok srcip_ /\
     rs0 = new_source src_ srcip_).
Proof.
  unfold flow_lookup. intros H.
  destruct (chmap p !! src_) as [rs|].
  - left. injection H as <- <-. split; reflexivity.
  - right. split; [reflexivity|].
    destruct (subslice src_ 0 (Index src_ (str ":"))) as [srcip_| | |]; try discriminate.
    cbn [mbind result_bind] in H. injection H as <- <-. eauto.
Qed.

(** ** handlePacket and the loop of main *)

Lemma uint16_range (x : Z) : 0 <= uint16 x < 2 ^ 16.
Proof. unfold uint16. apply Z.mod_pos_bound. lia. Qed.

Lemma flow_of_port (port : Z) (ip : IPv4) (tcp : TCP) (src_ : gostring) (request : bool) :
  flow_of port ip tcp = Ok (src_, request) ->
  exists (addr : IP) (pt : Z), 0 <= pt < 2 ^ 16 /\ src_ = Sprintf_addr addr pt.
Proof.
  unfold flow_of. intros H.
  destruct (uint16 (SrcPort tcp) =? port);
    [injection H as <- _; eexists _, _; split; [apply uint16_range|reflexivity]|].
  destruct (uint16 (DstPort tcp) =? port);
    [injection H as <- _; eexists _, _; split; [apply uint16_range|reflexivity]|].
  discriminate.
Qed.

Lemma flow_registered_mono (g g' : globals) (rs : source) :
  (forall k : gostring, is_Some (qbuf g !! k) -> is_Some (qbuf g' !! k)) ->
  flow_registered g rs -> flow_registered g' rs.
Proof.
  intros Hk. unfold flow_registered. destruct (qdata rs); [|tauto].
  intros [E H]. split; [exact E|apply Hk, H].
Qed.



Lemma data_packets_nonneg (caps : list capture) : 0 <= data_packets caps.
Proof.
  induction caps as [|c caps IH]; cbn [data_packets]; [lia|].
  destruct (carries_data (cap_pkt c)); lia.
Qed.

Lemma uint64_range (x : Z) : 0 <= uint64 x < 2 ^ 64.
Proof. unfold uint64. apply Z.mod_pos_bound. lia. Qed.

Lemma sum_counts_insert_new (cm : gmap gostring Z) (k : gostring) (v : Z) :
  cm !! k = None -> sum_counts (<[k := v]> cm) = v + sum_counts cm.
Proof.
  intros Hk. unfold sum_counts.
  apply (map_fold_insert_L (fun (_ : gostring) (c acc : Z) => c + acc)); [|exact Hk].
  intros. lia.
Qed.

Lemma sum_counts_insert (cm : gmap gostring Z) (k : gostring) (v : Z) :
  sum_counts (<[k := v]> cm) = v + sum_counts cm - default 0 (cm !! k).
Proof.
  destruct (cm !! k) as [c|] eqn:Hk; cbn [default from_option id].
  - assert (E1 : sum_counts (<[k := v]> cm) = v + sum_counts (delete k cm)).
    { rewrite <- insert_delete_eq. apply sum_counts_insert_new, lookup_delete_eq. }
    assert (E2 : sum_counts cm = c + sum_counts (delete k cm)).
    { rewrite <- (insert_delete_id cm k c Hk) at 1.
      apply sum_counts_insert_new, lookup_delete_eq. }
    lia.
  - rewrite sum_counts_insert_new by exact Hk. lia.
Qed.

Lemma sum_counts_nonneg (cm : gmap gostring Z) :
  map_Forall (fun _ c => 0 <= c) cm -> 0 <= sum_counts cm.
Proof.
  induction cm as [|k c cm Hk IH] using map_ind; intros Hall.
  - unfold sum_counts. rewrite map_fold_empty. lia.
  - rewrite sum_counts_insert_new by exact Hk.
    apply map_Forall_insert in Hall as [Hc Hall]; [|exact Hk].
    specialize (IH Hall). lia.
Qed.

Lemma sum_counts_bound (cm : gmap gostring Z) (k : gostring) :
  map_Forall (fun _ c => 0 <= c) cm ->
  0 <= default 0 (cm !! k) <= sum_counts cm.
Proof.
  intros Hall. destruct (cm !! k) as [c|] eqn:Hk; cbn [default from_option id].
  - assert (E : sum_counts cm = c + sum_counts (delete k cm)).
    { rewrite <- (insert_delete_id cm k c Hk) at 1.
      apply sum_counts_insert_new, lookup_delete_eq. }
    pose proof (Hall _ _ Hk) as Hc. cbv beta in Hc.
    assert (0 <= sum_counts (delete k cm)); [|lia].
    apply sum_counts_nonneg. intros j x Hj.
    apply lookup_delete_Some in Hj as [_ Hj]. exact (Hall _ _ Hj).
  - pose proof (sum_counts_nonneg cm Hall). lia.
Qed.

Lemma int64_small (x : Z) : - 2 ^ 63 <= x < 2 ^ 63 -> int64 x = x.
Proof. intros H. unfold int64. rewrite Z.mod_small by lia. lia. Qed.

(** The loop of [main] over captures on the port, with a format that
    [parseFormat] produces. *)
Section PacketLoop.

Variables (cfg : config) (port : Z).
Hypothesis format_fine : format_ok cfg.

(** [handlePacket] returns on every packet that is on the port. *)
Lemma handlePacket_returns (p : program) (pkt : Packet)
    (now : Z) (randn : nat) :
  on_port port pkt = true ->
  exists p' : program, handlePacket cfg port p pkt now randn = Ok p'.
Proof using format_fine.
  intros Hon. unfold handlePacket, on_port in *.
  destruct (ipLayer pkt) as [ip|]; [|eauto].
  destruct (tcpLayer pkt) as [tcp|]; [|eauto].
  destruct (Z.leb_spec (Z.of_nat (length (Payload tcp))) 0) as [|Hlen]; [eauto|].
  destruct (Nat.eqb_spec (length (Payload tcp)) 0) as [E|_]; [lia|].
  cbn [orb] in Hon.
  assert (Hflow : exists (src_ : gostring) (request : bool),
             flow_of port ip tcp = Ok (src_, request)).
  { unfold flow_of. destruct (uint16 (SrcPort tcp) =? port); [eauto|].
    cbn [orb] in Hon. rewrite Hon. eauto. }
  destruct Hflow as (src_ & request & Hflow). rewrite Hflow. cbn [mbind result_bind].
  destruct (flow_of_port _ _ _ _ _ Hflow) as (addr & pt & _ & ->).
  assert (Hlook : exists (g0 : globals) (rs0 : source),
             flow_lookup p (Sprintf_addr addr pt) = Ok (g0, rs0)).
  { unfold flow_lookup. destruct (chmap p !! Sprintf_addr addr pt); [eauto|].
    rewrite srcip_of_addr. cbn [mbind result_bind]. eauto. }
  destruct Hlook as (g0 & rs0 & ->). cbn [mbind result_bind].
  destruct (processPacket_returns cfg g0 rs0 request (Payload tcp) now randn format_fine)
    as (g' & rs' & ->).
  cbn [mbind result_bind]. eauto.
Qed.

(** A property of the program state kept by every call of [handlePacket]
    is kept by the loop, which runs through every capture on the port. *)
Lemma handlePackets_invariant (Inv : program -> Prop) :
  (forall (p p' : program) (pkt : Packet) (now : Z) (randn : nat),
     Inv p -> handlePacket cfg port p pkt now randn = Ok p' -> Inv p') ->
  forall (caps : list capture) (p : program),
    Inv p ->
    Forall (fun c => on_port port (cap_pkt c) = true) caps ->
    exists p' : program, handlePackets cfg port p caps = Ok p' /\ Inv p'.
Proof using format_fine.
  intros Hstep. induction caps as [|c caps IH]; intros p Hp Hon.
  - exists p. split; [reflexivity|exact Hp].
  - cbn [handlePackets].
    destruct (handlePacket_returns p (cap_pkt c) (cap_now c) (cap_randn c)
                (Forall_inv Hon)) as [p1 H1].
    rewrite H1. cbn [mbind result_bind].
    apply IH; [|exact (Forall_inv_tail Hon)].
    exact (Hstep _ _ _ _ _ Hp H1).
Qed.

(** X13: a call of [handlePacket] never panics: on a packet
    with one end on the port it returns (the format being made of the four
    placeholders and of texts, as [parseFormat] builds it), and it exits
    through [log.Fatalf] exactly on a packet that carries data between two
    other ports. *)
Theorem handlePacket_returns_or_exits (p : program)
    (pkt : Packet) (now : Z) (randn : nat) :
  (on_port port pkt = true ->
   exists p' : program, handlePacket cfg port p pkt now randn = Ok p') /\
  (on_port port pkt = false ->
   carries_data pkt = true /\ handlePacket cfg port p pkt now randn = Fatal) /\
  (carries_data pkt = false -> handlePacket cfg port p pkt now randn = Ok p).
Proof using format_fine.
  split; [apply handlePacket_returns|]. split.
  - unfold on_port, carries_data, handlePacket, flow_of.
    destruct (ipLayer pkt) as [ip|]; [|discriminate].
    destruct (tcpLayer pkt) as [tcp|]; [|discriminate].
    intros Hoff. apply orb_false_iff in Hoff as [Hoff Hd].
    apply orb_false_iff in Hoff as [Hlen Hs].
    rewrite Hlen, Hs, Hd. split; [reflexivity|].
    apply Nat.eqb_neq in Hlen.
    destruct (Z.leb_spec (Z.of_nat (length (Payload tcp))) 0); [lia|reflexivity].
  - unfold carries_data, handlePacket.
    destruct (ipLayer pkt) as [ip|]; [|reflexivity].
    destruct (tcpLayer pkt) as [tcp|]; [|reflexivity].
    intros Hlen. apply negb_false_iff, Nat.eqb_eq in Hlen. rewrite Hlen. reflexivity.
Qed.

(** X14: every flow on file is filed under its own [src], which is the
    remote [address:port] of its packets, with [srcip] the address; and
    [stats.streams] is the number of flows on file (modulo 2^64): a flow is
    created, and counted, exactly when its key is first seen. *)
Theorem flows_filed_by_remote_end (caps : list capture)
    (p : program) :
  Forall (fun c => on_port port (cap_pkt c) = true) caps ->
  map_Forall flow_filed (chmap p) ->
  streams (vars p) = uint64 (Z.of_nat (size (chmap p))) ->
  exists p' : program,
    handlePackets cfg port p caps = Ok p' /\
    map_Forall flow_filed (chmap p') /\
    streams (vars p') = uint64 (Z.of_nat (size (chmap p'))).
Proof using format_fine.
  intros Hon Hfiled Hstreams.
  apply (handlePackets_invariant
           (fun p => map_Forall flow_filed (chmap p) /\
                     streams (vars p) = uint64 (Z.of_nat (size (chmap p))))
           ); [|split; assumption|exact Hon].
  clear. intros p p' pkt now randn [Hfiled Hstreams] Hcall.
  apply handlePacket_cases in Hcall
    as [[_ ->]|(_ & ip & tcp & src_ & request & g0 & g' & rs0 & rs' & _ & _
                 & Hflow & Hlook & Hpp & ->)]; [split; assumption|].
  apply processPacket_step in Hpp
    as (_ & _ & Hst & _ & _ & Hsrc & Hip & _).
  cbn [chmap vars].
  apply flow_lookup_cases in Hlook as [[Hk ->]|(Hk & -> & srcip_ & Hcut & ->)].
  - (* a flow on file *)
    destruct (Hfiled _ _ Hk) as (Hs0 & addr & pt & Hpt & Hkey & Hip0).
    split.
    + apply map_Forall_insert_2; [|exact Hfiled].
      split; [congruence|]. exists addr, pt.
      split; [exact Hpt|]. split; [exact Hkey|congruence].
    + rewrite Hst, Hstreams, map_size_insert, Hk. reflexivity.
  - (* a new flow *)
    destruct (flow_of_port _ _ _ _ _ Hflow) as (addr & pt & Hpt & ->).
    rewrite srcip_of_addr in Hcut. injection Hcut as <-.
    split.
    + apply map_Forall_insert_2; [|exact Hfiled].
      split; [exact Hsrc|]. exists addr, pt.
      split; [exact Hpt|]. split; [reflexivity|exact Hip].
    + rewrite Hst. cbn [streams set_streams]. rewrite Hstreams, uint64_add_l.
      rewrite map_size_insert, Hk. f_equal. lia.
Qed.

(** X15: no call of [processPacket] leaves a response buffer, so from a
    state in which no flow holds one, whatever is captured, the desync
    counter keeps its value, no flow holds a response buffer afterwards, and
    every flow that was synchronized is still on file and synchronized. *)
Theorem never_desynchronized (caps : list capture)
    (p : program) :
  Forall (fun c => on_port port (cap_pkt c) = true) caps ->
  map_Forall (fun _ rs => resbuffer rs = None) (chmap p) ->
  exists p' : program,
    handlePackets cfg port p caps = Ok p' /\
    desyncs (vars p') = desyncs (vars p) /\
    map_Forall (fun _ rs => resbuffer rs = None) (chmap p') /\
    (forall (k : gostring) (rs : source),
       chmap p !! k = Some rs -> synced rs = true ->
       exists rs' : source, chmap p' !! k = Some rs' /\ synced rs' = true).
Proof using format_fine.
  intros Hon Hres.
  apply (handlePackets_invariant
           (fun q => desyncs (vars q) = desyncs (vars p) /\
                     map_Forall (fun _ rs => resbuffer rs = None) (chmap q) /\
                     (forall (k : gostring) (rs : source),
                        chmap p !! k = Some rs -> synced rs = true ->
                        exists rs' : source, chmap q !! k = Some rs' /\ synced rs' = true))
           ); [|split; [reflexivity|split; [exact Hres|eauto]]|exact Hon].
  clear Hres Hon. intros q q' pkt now randn (Hd & Hres & Hsy) Hcall.
  apply handlePacket_cases in Hcall
    as [[_ ->]|(_ & ip & tcp & src_ & request & g0 & g' & rs0 & rs' & _ & _
                 & _ & Hlook & Hpp & ->)]; [repeat split; assumption|].
  apply processPacket_step in Hpp
    as (_ & _ & _ & Hd' & Hr' & _ & _ & Hs' & _).
  cbn [chmap vars].
  assert (H0 : resbuffer rs0 = None /\ desyncs g0 = desyncs (vars q) /\
               (forall rs : source, chmap q !! src_ = Some rs -> rs = rs0)).
  { apply flow_lookup_cases in Hlook as [[Hk ->]|(Hk & -> & srcip_ & _ & ->)].
    - split; [exact (Hres _ _ Hk)|]. split; [reflexivity|]. congruence.
    - split; [reflexivity|]. split; [reflexivity|]. congruence. }
  destruct H0 as (Hr0 & Hd0 & Hsame).
  split.
  { rewrite Hd', Hr0, andb_false_r. congruence. }
  split.
  { apply map_Forall_insert_2; assumption. }
  intros k rs Hk Hs. destruct (Hsy k rs Hk Hs) as (rs1 & Hk1 & Hs1).
  destruct (decide (k = src_)) as [->|Hne].
  - rewrite lookup_insert_eq. exists rs'. split; [reflexivity|].
    apply Hs'; [exact Hr0|]. rewrite <- (Hsame _ Hk1). exact Hs1.
  - rewrite lookup_insert_ne by congruence. eauto.
Qed.

(** X16: an aggregate is never removed from [qbuf], and the pointer
    [qdata] of every flow, once set, is the aggregate registered under the
    text of the flow's last request. *)
Theorem aggregates_stay_registered (caps : list capture)
    (p : program) :
  Forall (fun c => on_port port (cap_pkt c) = true) caps ->
  map_Forall (fun _ rs => flow_registered (vars p) rs) (chmap p) ->
  exists p' : program,
    handlePackets cfg port p caps = Ok p' /\
    (forall k : gostring,
       is_Some (qbuf (vars p) !! k) -> is_Some (qbuf (vars p') !! k)) /\
    map_Forall (fun _ rs => flow_registered (vars p') rs) (chmap p').
Proof using format_fine.
  intros Hon Hreg.
  apply (handlePackets_invariant
           (fun q => (forall k : gostring,
                        is_Some (qbuf (vars p) !! k) -> is_Some (qbuf (vars q) !! k)) /\
                     map_Forall (fun _ rs => flow_registered (vars q) rs) (chmap q))
           ); [|split; [auto|exact Hreg]|exact Hon].
  clear Hreg Hon. intros q q' pkt now randn (Hkeys & Hreg) Hcall.
  apply handlePacket_cases in Hcall
    as [[_ ->]|(_ & ip & tcp & src_ & request & g0 & g' & rs0 & rs' & _ & _
                 & _ & Hlook & Hpp & ->)]; [split; assumption|].
  apply processPacket_step in Hpp
    as (_ & _ & _ & _ & _ & _ & _ & _ & Hgrow & Hptr & _).
  cbn [chmap vars].
  assert (H0 : qbuf g0 = qbuf (vars q) /\ flow_registered g0 rs0).
  { apply flow_lookup_cases in Hlook as [[Hk ->]|(Hk & -> & srcip_ & _ & ->)].
    - split; [reflexivity|exact (Hreg _ _ Hk)].
    - split; [reflexivity|exact I]. }
  destruct H0 as (Hq0 & Hreg0). rewrite Hq0 in Hgrow.
  split; [intros k Hk; apply Hgrow, Hkeys, Hk|].
  apply map_Forall_insert_2; [exact (Hptr Hreg0)|].
  intros k rs Hk. apply (flow_registered_mono (vars q)); [exact Hgrow|].
  exact (Hreg _ _ Hk).
Qed.

(** ** The counters of the packet loop *)

(** X17: [stats.packets.rcvd] counts the captures that carry data, one
    each, modulo 2^64; and as long as that count has not wrapped around,
    [stats.packets.rcvd_sync] does not exceed it, so that the share of
    packets on synchronized streams is at most 100%. *)
Theorem packets_counted (caps : list capture)
    (p : program) :
  Forall (fun c => on_port port (cap_pkt c) = true) caps ->
  0 <= packets_rcvd (vars p) < 2 ^ 64 ->
  exists p' : program,
    handlePackets cfg port p caps = Ok p' /\
    packets_rcvd (vars p')
    = uint64 (packets_rcvd (vars p) + data_packets caps) /\
    (0 <= packets_rcvd_sync (vars p) <= packets_rcvd (vars p) ->
     packets_rcvd (vars p) + data_packets caps < 2 ^ 64 ->
     packets_rcvd (vars p') = packets_rcvd (vars p) + data_packets caps /\
     0 <= packets_rcvd_sync (vars p') <= packets_rcvd (vars p')).
Proof using format_fine.
  intros Hon. revert p. induction Hon as [|c caps Hc Hon IH]; intros p Hr.
  - exists p. split; [reflexivity|]. cbn [data_packets]. rewrite Z.add_0_r.
    split; [|intros H1 H2; split; [reflexivity|exact H1]].
    symmetry. apply uint64_small, Hr.
  - cbn [handlePackets data_packets].
    destruct (handlePacket_returns p (cap_pkt c) (cap_now c) (cap_randn c) Hc) as [p1 H1].
    rewrite H1. cbn [mbind result_bind].
    pose proof (data_packets_nonneg caps) as Hn.
    apply handlePacket_cases in H1
      as [[Hno ->]|(Hyes & ip & tcp & src_ & request & g0 & g' & rs0 & rs' & _ & _
                    & _ & Hlook & Hpp & ->)].
    + destruct (IH p Hr) as (p' & Hrun & Hcount & Hsync).
      exists p'. split; [exact Hrun|].
      rewrite Hno. cbn [Z.add]. split; [exact Hcount|exact Hsync].
    + rewrite Hyes.
      apply processPacket_step in Hpp as (Hp & Hps & _).
      assert (H0 : packets_rcvd g0 = packets_rcvd (vars p) /\
                   packets_rcvd_sync g0 = packets_rcvd_sync (vars p)).
      { apply flow_lookup_cases in Hlook as [[_ ->]|(_ & -> & _)]; split; reflexivity. }
      destruct H0 as [E1 E2]. rewrite E1 in Hp. rewrite E2 in Hps.
      destruct (IH (Program g' (<[src_ := rs']> (chmap p))))
        as (p' & Hrun & Hcount & Hsync).
      { cbn [vars]. rewrite Hp. apply uint64_range. }
      exists p'. split; [exact Hrun|].
      cbn [vars] in Hcount, Hsync.
      split.
      * rewrite Hcount, Hp, uint64_add_l. f_equal. lia.
      * intros Hle Hlt.
        assert (Hp1 : packets_rcvd g' = packets_rcvd (vars p) + 1).
        { rewrite Hp. apply uint64_small. lia. }
        assert (Hps1 : 0 <= packets_rcvd_sync g' <= packets_rcvd g').
        { rewrite Hps, Hp1. destruct (synced rs0); [|lia].
          rewrite uint64_small by lia. lia. }
        destruct (Hsync Hps1 ltac:(lia)) as [Hc' Hs'].
        split; [lia|exact Hs'].
Qed.

(** *** The request counts *)

(** X18: the request counts of the aggregates add up to [querycount]:
    every request counted is counted in exactly one aggregate.  (As long as
    fewer than 2^63 requests were seen, so that no counter has wrapped.) *)
Theorem counts_add_up (caps : list capture) (p : program) :
  Forall (fun c => on_port port (cap_pkt c) = true) caps ->
  map_Forall (fun _ c => 0 <= c) (count_of (qbuf (vars p))) ->
  sum_counts (count_of (qbuf (vars p))) = querycount (vars p) ->
  querycount (vars p) + data_packets caps < 2 ^ 63 ->
  exists p' : program,
    handlePackets cfg port p caps = Ok p' /\
    map_Forall (fun _ c => 0 <= c) (count_of (qbuf (vars p'))) /\
    sum_counts (count_of (qbuf (vars p'))) = querycount (vars p') /\
    querycount (vars p) <= querycount (vars p')
      <= querycount (vars p) + data_packets caps.
Proof using format_fine.
  intros Hon. revert p.
  induction Hon as [|c caps Hc Hon IH]; intros p Hpos Hsum Hlt.
  - exists p. split; [reflexivity|]. cbn [data_packets].
    split; [exact Hpos|]. split; [exact Hsum|lia].
  - cbn [handlePackets data_packets] in *.
    destruct (handlePacket_returns p (cap_pkt c) (cap_now c) (cap_randn c) Hc) as [p1 H1].
    rewrite H1. cbn [mbind result_bind].
    pose proof (data_packets_nonneg caps) as Hn.
    apply handlePacket_cases in H1
      as [[Hno ->]|(Hyes & ip & tcp & src_ & request & g0 & g' & rs0 & rs' & _ & _
                    & _ & Hlook & Hpp & ->)].
    + rewrite Hno in *. cbn [Z.add] in *. apply IH; assumption.
    + rewrite Hyes in *.
      apply processPacket_step in Hpp
        as (_ & _ & _ & _ & _ & _ & _ & _ & _ & _ & Hcnt).
      assert (H0 : qbuf g0 = qbuf (vars p) /\ querycount g0 = querycount (vars p)).
      { apply flow_lookup_cases in Hlook as [[_ ->]|(_ & -> & _)]; split; reflexivity. }
      destruct H0 as [E1 E2]. rewrite E1, E2 in Hcnt.
      pose proof (sum_counts_nonneg _ Hpos) as Hq0.
      destruct Hcnt as [[Hsame Hqc]|(text & Hins & Hqc)].
      * destruct (IH (Program g' (<[src_ := rs']> (chmap p))))
          as (p' & Hrun & Hpos' & Hsum' & Hb); cbn [vars].
        { rewrite Hsame. exact Hpos. }
        { rewrite Hsame, Hqc. exact Hsum. }
        { rewrite Hqc. lia. }
        exists p'. split; [exact Hrun|]. split; [exact Hpos'|]. split; [exact Hsum'|].
        cbn [vars] in Hb. lia.
      * pose proof (sum_counts_bound _ text Hpos) as Hb0.
        set (c0 := default 0 (count_of (qbuf (vars p)) !! text)) in *.
        rewrite uint64_small in Hins by lia.
        rewrite int64_small in Hqc by lia.
        destruct (IH (Program g' (<[src_ := rs']> (chmap p))))
          as (p' & Hrun & Hpos' & Hsum' & Hb); cbn [vars].
        { rewrite Hins. apply map_Forall_insert_2; [lia|exact Hpos]. }
        { rewrite Hins, sum_counts_insert. fold c0. lia. }
        { rewrite Hqc. lia. }
        exists p'. split; [exact Hrun|]. split; [exact Hpos'|]. split; [exact Hsum'|].
        cbn [vars] in Hb. lia.
Qed.

End PacketLoop.

Lemma caps_example_on_port :
  Forall (fun c => on_port 3306 (cap_pkt c) = true) caps_example.
Proof. repeat constructor. Qed.

Lemma handlePacket_returns_or_exits_witness :
  format_ok default_config /\
  (on_port 3306 pkt_request = true ->
   exists p' : program, handlePacket default_config 3306 program_zero pkt_request 100 0 = Ok p') /\
  (on_port 3306 pkt_request = false ->
   carries_data pkt_request = true /\
   handlePacket default_config 3306 program_zero pkt_request 100 0 = Fatal) /\
  (carries_data pkt_request = false ->
   handlePacket default_config 3306 program_zero pkt_request 100 0 = Ok program_zero).
Proof.
  split; [exact default_format_ok|].
  exact (handlePacket_returns_or_exits default_config 3306 default_format_ok
           program_zero pkt_request 100 0).
Defined.

Lemma program_zero_filed : map_Forall flow_filed (chmap program_zero).
Proof. apply map_Forall_empty. Qed.

Lemma flows_filed_by_remote_end_witness :
  (format_ok default_config /\
   Forall (fun c => on_port 3306 (cap_pkt c) = true) caps_example /\
   map_Forall flow_filed (chmap program_zero) /\
   streams (vars program_zero) = uint64 (Z.of_nat (size (chmap program_zero)))) /\
  exists p' : program,
    handlePackets default_config 3306 program_zero caps_example = Ok p' /\
    map_Forall flow_filed (chmap p') /\
    streams (vars p') = uint64 (Z.of_nat (size (chmap p'))).
Proof.
  split.
  - exact (conj default_format_ok
             (conj caps_example_on_port (conj program_zero_filed eq_refl))).
  - exact (flows_filed_by_remote_end default_config 3306 default_format_ok caps_example program_zero
             caps_example_on_port program_zero_filed eq_refl).
Defined.

(** The two packets of the example are filed as one flow, under the
    client's end. *)
Example caps_example_flow :
  exists p' : program,
    handlePackets default_config 3306 program_zero caps_example = Ok p' /\
    dom (chmap p') = {[ str "10.0.0.1:5000" ]} /\
    srcip <$> chmap p' !! str "10.0.0.1:5000" = Some (str "10.0.0.1") /\
    streams (vars p') = 1 /\ packets_rcvd (vars p') = 2 /\
    querycount (vars p') = 1 /\
    dom (qbuf (vars p')) = {[ str "10.0.0.1:5000:SE" ]}.
Proof.
  eexists. split; [vm_compute; reflexivity|].
  repeat split; vm_compute; reflexivity.
Qed.

Lemma never_desynchronized_witness :
  (format_ok default_config /\
   Forall (fun c => on_port 3306 (cap_pkt c) = true) caps_example /\
   map_Forall (fun _ rs => resbuffer rs = None) (chmap program_zero)) /\
  exists p' : program,
    handlePackets default_config 3306 program_zero caps_example = Ok p' /\
    desyncs (vars p') = desyncs (vars program_zero) /\
    map_Forall (fun _ rs => resbuffer rs = None) (chmap p') /\
    (forall (k : gostring) (rs : source),
       chmap program_zero !! k = Some rs -> synced rs = true ->
       exists rs' : source, chmap p' !! k = Some rs' /\ synced rs' = true).
Proof.
  assert (H0 : map_Forall (fun _ rs => resbuffer rs = None) (chmap program_zero))
    by apply map_Forall_empty.
  split.
  - exact (conj default_format_ok (conj caps_example_on_port H0)).
  - exact (never_desynchronized default_config 3306 default_format_ok caps_example program_zero
             caps_example_on_port H0).
Defined.

Lemma aggregates_stay_registered_witness :
  (format_ok default_config /\
   Forall (fun c => on_port 3306 (cap_pkt c) = true) caps_example /\
   map_Forall (fun _ rs => flow_registered (vars program_zero) rs) (chmap program_zero)) /\
  exists p' : program,
    handlePackets default_config 3306 program_zero caps_example = Ok p' /\
    (forall k : gostring,
       is_Some (qbuf (vars program_zero) !! k) -> is_Some (qbuf (vars p') !! k)) /\
    map_Forall (fun _ rs => flow_registered (vars p') rs) (chmap p').
Proof.
  assert (H0 : map_Forall (fun _ rs => flow_registered (vars program_zero) rs)
                 (chmap program_zero)) by apply map_Forall_empty.
  split.
  - exact (conj default_format_ok (conj caps_example_on_port H0)).
  - exact (aggregates_stay_registered default_config 3306 default_format_ok caps_example program_zero
             caps_example_on_port H0).
Defined.

Lemma packets_counted_witness :
  (format_ok default_config /\
   Forall (fun c => on_port 3306 (cap_pkt c) = true) caps_example /\
   0 <= packets_rcvd (vars program_zero) < 2 ^ 64) /\
  exists p' : program,
    handlePackets default_config 3306 program_zero caps_example = Ok p' /\
    packets_rcvd (vars p')
    = uint64 (packets_rcvd (vars program_zero) + data_packets caps_example) /\
    (0 <= packets_rcvd_sync (vars program_zero) <= packets_rcvd (vars program_zero) ->
     packets_rcvd (vars program_zero) + data_packets caps_example < 2 ^ 64 ->
     packets_rcvd (vars p')
     = packets_rcvd (vars program_zero) + data_packets caps_example /\
     0 <= packets_rcvd_sync (vars p') <= packets_rcvd (vars p')).
Proof.
  assert (H0 : 0 <= packets_rcvd (vars program_zero) < 2 ^ 64) by (cbn; lia).
  split.
  - exact (conj default_format_ok (conj caps_example_on_port H0)).
  - exact (packets_counted default_config 3306 default_format_ok caps_example program_zero
             caps_example_on_port H0).
Defined.

Lemma counts_add_up_witness :
  (format_ok default_config /\
   Forall (fun c => on_port 3306 (cap_pkt c) = true) caps_example /\
   map_Forall (fun _ c => 0 <= c) (count_of (qbuf (vars program_zero))) /\
   sum_counts (count_of (qbuf (vars program_zero))) = querycount (vars program_zero) /\
   querycount (vars program_zero) + data_packets caps_example < 2 ^ 63) /\
  exists p' : program,
    handlePackets default_config 3306 program_zero caps_example = Ok p' /\
    map_Forall (fun _ c => 0 <= c) (count_of (qbuf (vars p'))) /\
    sum_counts (count_of (qbuf (vars p'))) = querycount (vars p') /\
    querycount (vars program_zero) <= querycount (vars p')
      <= querycount (vars program_zero) + data_packets caps_example.
Proof.
  assert (H1 : map_Forall (fun _ c => 0 <= c) (count_of (qbuf (vars program_zero)))).
  { unfold count_of. cbn [vars program_zero qbuf globals_zero].
    rewrite fmap_empty. apply map_Forall_empty. }
  assert (H2 : sum_counts (count_of (qbuf (vars program_zero)))
               = querycount (vars program_zero)) by reflexivity.
  assert (H3 : querycount (vars program_zero) + data_packets caps_example < 2 ^ 63)
    by (vm_compute; reflexivity).
  split.
  - exact (conj default_format_ok (conj caps_example_on_port (conj H1 (conj H2 H3)))).
  - exact (counts_add_up default_config 3306 default_format_ok caps_example program_zero
             caps_example_on_port H1 H2 H3).
Defined.

(** ** handlePacket: a query and its reply *)

(** The address of a key is the text before its first colon. *)
Lemma Sprintf_addr_address (addr addr' : IP) (pt pt' : Z) :
  Sprintf_addr addr pt = Sprintf_addr addr' pt' -> IP_String addr = IP_String addr'.
Proof.
  intros E.
  pose proof (cut_byte_first ":"%byte _ (decimal pt) (IP_String_no_colon addr)) as H1.
  pose proof (cut_byte_first ":"%byte _ (decimal pt') (IP_String_no_colon addr')) as H2.
  change (IP_String addr ++ ":"%byte :: decimal pt) with (Sprintf_addr addr pt) in H1.
  change (IP_String addr' ++ ":"%byte :: decimal pt') with (Sprintf_addr addr' pt') in H2.
  rewrite E in H1. congruence.
Qed.

(** A call of [handlePacket] on a packet that carries data. *)
Lemma handlePacket_data (cfg : config) (port : Z) (p : program) (ip : IPv4) (tcp : TCP)
    (now : Z) (randn : nat) (key : gostring) (request : bool) (g0 g' : globals)
    (rs0 rs' : source) :
  Payload tcp <> [] ->
  flow_of port ip tcp = Ok (key, request) ->
  flow_lookup p key = Ok (g0, rs0) ->
  processPacket cfg g0 rs0 request (Payload tcp) now randn = Ok (g', rs') ->
  handlePacket cfg port p (CapturedPacket (Some ip) (Some tcp)) now randn
  = Ok (Program g' (<[key := rs']> (chmap p))).
Proof.
  intros Hd Hflow Hlook Hpp. unfold handlePacket. cbn [ipLayer tcpLayer].
  destruct (Z.leb_spec (Z.of_nat (length (Payload tcp))) 0) as [Hl|_].
  { destruct (Payload tcp); [contradiction|cbn [length] in Hl; lia]. }
  rewrite Hflow. cbn [mbind result_bind]. rewrite Hlook. cbn [mbind result_bind].
  rewrite Hpp. reflexivity.
Qed.

(** X19: a packet from a client to the port that holds a query frame,
    followed by a packet from the port back to that client: both reach the
    flow filed under the client's [address:port]; the request is counted in
    the aggregate of its text (the text the format gives for that flow),
    and the time between the two packets is stored as a sample of that
    aggregate and of the global samples, at the slot drawn for the reply. *)
Theorem reply_times_the_request (cfg : config) (port : Z) (p : program)
    (client server : IP) (cport : Z) (data reply : list byte) (t1 t2 : Z)
    (r1 r2 : nat) (pdata buf : slice) :
  format_ok cfg ->
  uint16 port = port -> uint16 cport <> port ->
  reply <> [] ->
  carvePacket (Some data) = Ok (COM_QUERY, pdata, buf) ->
  map_Forall flow_filed (chmap p) ->
  exists (text : gostring) (p' : program) (rs' : source),
    format_text cfg
      (new_source (Sprintf_addr client (uint16 cport)) (IP_String client))
      (bytes_of pdata) (format cfg) [] = Ok text /\
    handlePackets cfg port p
      [Capture (CapturedPacket (Some (IPv4Layer client server))
                               (Some (TCPLayer cport port data))) t1 r1;
       Capture (CapturedPacket (Some (IPv4Layer server client))
                               (Some (TCPLayer port cport reply))) t2 r2]
    = Ok p' /\
    chmap p' !! Sprintf_addr client (uint16 cport) = Some rs' /\
    qtext rs' = text /\ qdata rs' = Some text /\ reqSent rs' = None /\
    synced rs' = true /\
    qbuf (vars p') !! text
    = Some (QueryData
              (uint64 (count (default queryData_zero (qbuf (vars p) !! text)) + 1))
              (uint64 (bytes (default queryData_zero (qbuf (vars p) !! text))
                       + len pdata + Z.of_nat (length reply)))
              (<[r2 := uint64 (Since t1 t2)]>
                 (times (default queryData_zero (qbuf (vars p) !! text))))) /\
    gtimes (vars p') = <[r2 := uint64 (Since t1 t2)]> (gtimes (vars p)) /\
    (0 <= t2 - t1 < 2 ^ 63 -> uint64 (Since t1 t2) = t2 - t1).
Proof.
  intros Hf Hport Hcport Hreply Hc Hfiled.
  set (key := Sprintf_addr client (uint16 cport)).
  assert (Hdata : (0 < length data)%nat).
  { destruct data; [vm_compute in Hc; discriminate|cbn; lia]. }
  assert (Hlook : exists (g0 : globals) (rs0 : source),
             flow_lookup p key = Ok (g0, rs0) /\
             qbuf g0 = qbuf (vars p) /\ gtimes g0 = gtimes (vars p) /\
             src rs0 = key /\ srcip rs0 = IP_String client).
  { unfold flow_lookup. destruct (chmap p !! key) as [rs0|] eqn:Hk.
    - exists (vars p), rs0. split; [reflexivity|]. split; [reflexivity|].
      split; [reflexivity|].
      destruct (Hfiled _ _ Hk) as (Hs & addr & pt & _ & Hkey & Hip).
      split; [exact Hs|]. rewrite Hip. symmetry.
      exact (Sprintf_addr_address _ _ _ _ Hkey).
    - subst key. rewrite srcip_of_addr. cbn [mbind result_bind].
      eexists _, _. split; [reflexivity|]. repeat split. }
  destruct Hlook as (g0 & rs0 & Hl0 & Hq0 & Hg0 & Hsrc0 & Hip0).
  destruct (request_then_response cfg g0 rs0 data reply t1 t2 r1 r2 pdata buf Hf Hc)
    as (text & g1 & g2 & rs1 & rs2 & Htext & Hp1 & Hp2 & Hqb & _ & Hgt & _ & _
        & Hsent & Hsy & Hqt & Hqd & _).
  exists text, (Program g2 (<[key := rs2]> (<[key := rs1]> (chmap p)))), rs2.
  split.
  { rewrite <- Htext. apply format_text_flow; [exact (eq_sym Hsrc0)|exact (eq_sym Hip0)]. }
  split.
  { cbn [handlePackets cap_pkt cap_now cap_randn].
    rewrite (handlePacket_data cfg port p _ _ t1 r1 key true g0 g1 rs0 rs1);
      cbn [Payload]; try assumption.
    - cbn [mbind result_bind].
      rewrite (handlePacket_data cfg port _ _ _ t2 r2 key false g1 g2 rs1 rs2);
        cbn [Payload]; try assumption; try reflexivity.
      + unfold flow_of. cbn [SrcPort DstPort SrcIP DstIP].
        rewrite Hport, Z.eqb_refl. reflexivity.
      + unfold flow_lookup. cbn [chmap vars]. rewrite lookup_insert_eq. reflexivity.
    - intros ->. cbn in Hdata. lia.
    - unfold flow_of. cbn [SrcPort DstPort SrcIP DstIP].
      destruct (Z.eqb_spec (uint16 cport) port) as [?|_]; [contradiction|].
      rewrite Hport, Z.eqb_refl. reflexivity. }
  cbn [chmap vars].
  split; [apply lookup_insert_eq|].
  split; [exact Hqt|]. split; [exact Hqd|]. split; [exact Hsent|].
  split; [exact Hsy|].
  split; [rewrite Hqb, Hq0; reflexivity|].
  split; [rewrite Hgt, Hg0; reflexivity|].
  apply Since_difference.
Qed.

Lemma reply_times_the_request_witness :
  (format_ok default_config /\ uint16 3306 = 3306 /\ uint16 5000 <> 3306 /\
   str "ok" <> [] /\
   carvePacket (Some frame_SELECT) = Ok (COM_QUERY, Some (str "SE"), Some (str "LECT")) /\
   map_Forall flow_filed (chmap program_zero)) /\
  exists (text : gostring) (p' : program) (rs' : source),
    format_text default_config
      (new_source (Sprintf_addr client_addr (uint16 5000)) (IP_String client_addr))
      (bytes_of (Some (str "SE"))) (format default_config) [] = Ok text /\
    handlePackets default_config 3306 program_zero
      [Capture (CapturedPacket (Some (IPv4Layer client_addr server_addr))
                               (Some (TCPLayer 5000 3306 frame_SELECT))) 100 0;
       Capture (CapturedPacket (Some (IPv4Layer server_addr client_addr))
                               (Some (TCPLayer 3306 5000 (str "ok")))) 250 7]
    = Ok p' /\
    chmap p' !! Sprintf_addr client_addr (uint16 5000) = Some rs' /\
    qtext rs' = text /\ qdata rs' = Some text /\ reqSent rs' = None /\
    synced rs' = true /\
    qbuf (vars p') !! text
    = Some (QueryData
              (uint64 (count (default queryData_zero (qbuf (vars program_zero) !! text)) + 1))
              (uint64 (bytes (default queryData_zero (qbuf (vars program_zero) !! text))
                       + len (Some (str "SE")) + Z.of_nat (length (str "ok"))))
              (<[7%nat := uint64 (Since 100 250)]>
                 (times (default queryData_zero (qbuf (vars program_zero) !! text))))) /\
    gtimes (vars p') = <[7%nat := uint64 (Since 100 250)]> (gtimes (vars program_zero)) /\
    (0 <= 250 - 100 < 2 ^ 63 -> uint64 (Since 100 250) = 250 - 100).
Proof.
  assert (H1 : uint16 3306 = 3306) by reflexivity.
  assert (H2 : uint16 5000 <> 3306) by discriminate.
  assert (H3 : str "ok" <> []) by discriminate.
  assert (H4 : carvePacket (Some frame_SELECT)
               = Ok (COM_QUERY, Some (str "SE"), Some (str "LECT")))
    by (vm_compute; reflexivity).
  split; [exact (conj default_format_ok (conj H1 (conj H2 (conj H3 (conj H4
                   program_zero_filed)))))|].
  exact (reply_times_the_request default_config 3306 program_zero client_addr
           server_addr 5000 frame_SELECT (str "ok") 100 250 0 7 (Some (str "SE"))
           (Some (str "LECT")) default_format_ok H1 H2 H3 H4 program_zero_filed).
Defined.

(** ** parseFormat *)

Lemma canonical_from_app (f g : list format_item) :
  forall b : bool,
    canonical_from b f -> canonical_from (ends_in_text b f) g ->
    canonical_from b (f ++ g).
Proof.
  induction f as [|item f IH]; intros b Hf Hg; [exact Hg|].
  destruct item as [code| |s|]; cbn [app canonical_from ends_in_text] in *;
    try contradiction.
  - destruct Hf as [Hc Hf]. split; [exact Hc|]. apply IH; assumption.
  - destruct Hf as (Hs & Hb & Hf). split; [exact Hs|]. split; [exact Hb|].
    apply IH; assumption.
Qed.

Lemma ends_in_text_app (f g : list format_item) :
  forall b : bool, ends_in_text b (f ++ g) = ends_in_text (ends_in_text b f) g.
Proof.
  induction f as [|item f IH]; intros b; [reflexivity|].
  destruct item; cbn [app ends_in_text]; apply IH.
Qed.

Lemma placeholder_cases (char : byte) :
  placeholder char = F_NONE \/ placeholder char = F_SOURCE
  \/ placeholder char = F_SOURCEIP \/ placeholder char = F_ROUTE
  \/ placeholder char = F_QUERY.
Proof.
  unfold placeholder.
  repeat match goal with |- context [decide ?P] => destruct (decide P) end; tauto.
Qed.

(** The loop keeps a canonical format that does not end in a text. *)
Lemma parse_step_canonical (st : parse_state) (char : byte) :
  canonical_format (ps_format st) /\ ends_in_text false (ps_format st) = false ->
  canonical_format (ps_format (parse_step st char))
  /\ ends_in_text false (ps_format (parse_step st char)) = false.
Proof.
  intros [Hc He]. unfold parse_step.
  destruct (decide (char = "#"%byte)); [destruct (is_special st); split; assumption|].
  assert (Hcode : forall code : format_code, code <> F_NONE ->
            forall cur : gostring,
              canonical_format
                (ps_format match cur with
                           | [] => ParseState (ps_format st ++ [ItemInt code]) false cur
                           | _ :: _ =>
                               ParseState (ps_format st ++ [ItemString cur; ItemInt code])
                                          false []
                           end)
              /\ ends_in_text false
                   (ps_format match cur with
                              | [] => ParseState (ps_format st ++ [ItemInt code]) false cur
                              | _ :: _ =>
                                  ParseState (ps_format st ++ [ItemString cur; ItemInt code])
                                             false []
                              end) = false).
  { intros code Hn cur. destruct cur as [|c cur]; cbn [ps_format].
    - split; [|rewrite ends_in_text_app; reflexivity].
      apply canonical_from_app; [exact Hc|]. cbn. tauto.
    - split; [|rewrite ends_in_text_app; reflexivity].
      apply canonical_from_app; [exact Hc|]. rewrite He. cbn.
      repeat split; try assumption; discriminate. }
  destruct (is_special st).
  - destruct (placeholder char) eqn:Hp;
      [split; assumption|apply Hcode; discriminate..].
  - split; assumption.
Qed.

Lemma parse_loop_canonical (s : gostring) :
  forall st : parse_state,
    canonical_format (ps_format st) /\ ends_in_text false (ps_format st) = false ->
    canonical_format (ps_format (fold_left parse_step s st))
    /\ ends_in_text false (ps_format (fold_left parse_step s st)) = false.
Proof.
  induction s as [|c s IH]; intros st H; [exact H|].
  cbn [fold_left]. apply IH, parse_step_canonical, H.
Qed.

Lemma parse_finish_canonical (st : parse_state) :
  canonical_format (ps_format st) /\ ends_in_text false (ps_format st) = false ->
  canonical_format (parse_finish st).
Proof.
  intros [Hc He]. unfold parse_finish. destruct (curstr st) as [|c cur]; [exact Hc|].
  apply canonical_from_app; [exact Hc|]. rewrite He. cbn.
  repeat split. discriminate.
Qed.

Lemma parseFormat_canonical (formatstr : gostring) :
  canonical_format (parseFormat [] formatstr).
Proof.
  unfold parseFormat. apply parse_finish_canonical, parse_loop_canonical.
  split; [exact I|reflexivity].
Qed.

Lemma canonical_format_ok (items : list format_item) :
  forall b : bool, canonical_from b items -> Forall format_item_ok items.
Proof.
  induction items as [|item items IH]; intros b H; [constructor|].
  destruct item as [code| |s|]; cbn [canonical_from] in H; try contradiction.
  - destruct H as [Hc H]. constructor; [|exact (IH _ H)].
    destruct code; [contradiction|exact I..].
  - destruct H as (_ & _ & H). constructor; [exact I|exact (IH _ H)].
Qed.

(** The loop only appends to [format]. *)
Lemma parse_step_app (f0 : list format_item) (st : parse_state) (char : byte) :
  parse_step (ParseState (f0 ++ ps_format st) (is_special st) (curstr st)) char
  = ParseState (f0 ++ ps_format (parse_step st char))
               (is_special (parse_step st char)) (curstr (parse_step st char)).
Proof.
  unfold parse_step. cbn [ps_format is_special curstr].
  destruct (decide (char = "#"%byte)); [destruct (is_special st); reflexivity|].
  destruct (is_special st).
  - destruct (placeholder char); cbn [ps_format is_special curstr];
      try reflexivity; destruct (curstr st); cbn [ps_format is_special curstr];
      rewrite <- ?app_assoc; reflexivity.
  - reflexivity.
Qed.

Lemma parse_loop_app (f0 : list format_item) (s : gostring) :
  forall st : parse_state,
    fold_left parse_step s (ParseState (f0 ++ ps_format st) (is_special st) (curstr st))
    = ParseState (f0 ++ ps_format (fold_left parse_step s st))
                 (is_special (fold_left parse_step s st))
                 (curstr (fold_left parse_step s st)).
Proof.
  induction s as [|c s IH]; intros st; [reflexivity|].
  cbn [fold_left]. rewrite parse_step_app. apply IH.
Qed.

Lemma parseFormat_app (format0 : list format_item) (formatstr : gostring) :
  parseFormat format0 formatstr = format0 ++ parseFormat [] formatstr.
Proof.
  unfold parseFormat.
  set (s := match TrimSpace formatstr with [] => str "#b:#k" | _ :: _ => _ end).
  pose proof (parse_loop_app format0 s (ParseState [] false [])) as H.
  cbn [ps_format is_special curstr] in H. rewrite app_nil_r in H. rewrite H.
  unfold parse_finish. cbn [ps_format curstr].
  destruct (curstr (fold_left parse_step s (ParseState [] false []))); [reflexivity|].
  rewrite app_assoc. reflexivity.
Qed.

(** X20: [parseFormat] appends to [format], and what it appends is
    canonical: placeholders of the four kinds and non-empty texts, no two
    texts in a row; so no item of it makes the format loop of
    [processPacket] exit. *)
Theorem parseFormat_builds_canonical (format0 : list format_item)
    (formatstr : gostring) :
  ascii_text formatstr ->
  parseFormat format0 formatstr = format0 ++ parseFormat [] formatstr /\
  canonical_format (parseFormat [] formatstr) /\
  Forall format_item_ok (parseFormat [] formatstr) /\
  (Forall format_item_ok format0 ->
   Forall format_item_ok (parseFormat format0 formatstr)).
Proof.
  intros _.
  pose proof (parseFormat_canonical formatstr) as Hc.
  pose proof (canonical_format_ok _ _ Hc) as Hok.
  split; [apply parseFormat_app|]. split; [exact Hc|]. split; [exact Hok|].
  intros H0. rewrite parseFormat_app. apply Forall_app. split; assumption.
Qed.

Lemma default_format_ascii : ascii_text (str "#s:#q").
Proof. repeat constructor. Qed.

Lemma parseFormat_builds_canonical_witness :
  ascii_text (str "#s:#q") /\
  parseFormat [ItemString (str "x")] (str "#s:#q")
  = [ItemString (str "x")] ++ parseFormat [] (str "#s:#q") /\
  canonical_format (parseFormat [] (str "#s:#q")) /\
  Forall format_item_ok (parseFormat [] (str "#s:#q")) /\
  (Forall format_item_ok [ItemString (str "x")] ->
   Forall format_item_ok (parseFormat [ItemString (str "x")] (str "#s:#q"))).
Proof.
  split; [exact default_format_ascii|].
  exact (parseFormat_builds_canonical [ItemString (str "x")] (str "#s:#q")
           default_format_ascii).
Defined.

(** The default of the [-f] flag, and some other format strings. *)
Example parseFormat_default :
  parseFormat [] (str "#s:#q")
  = [ItemInt F_SOURCE; ItemString (str ":"); ItemInt F_QUERY].
Proof. reflexivity. Qed.

Example parseFormat_examples :
  parseFormat [] (str " a##b#Rx# ")
  = [ItemString (str "a#b"); ItemInt F_ROUTE; ItemString (str "x")] /\
  parseFormat [] (str "#z#I") = [ItemString (str "#z"); ItemInt F_SOURCEIP] /\
  parseFormat [] (str "#") = [].
Proof. repeat split. Qed.

(** *** Writing a format as a format string *)

Lemma escape_cons (c : byte) (s : gostring) :
  escape (c :: s) = (if decide (c = "#"%byte) then str "##" else [c]) ++ escape s.
Proof. reflexivity. Qed.

Lemma parse_loop_escape (s : gostring) :
  forall (f : list format_item) (cur : gostring),
    fold_left parse_step (escape s) (ParseState f false cur)
    = ParseState f false (cur ++ s).
Proof.
  induction s as [|c s IH]; intros f cur.
  - cbn. rewrite app_nil_r. reflexivity.
  - rewrite escape_cons, fold_left_app.
    replace (fold_left parse_step (if decide (c = "#"%byte) then str "##" else [c])
                       (ParseState f false cur))
      with (ParseState f false (cur ++ [c])).
    + rewrite IH, <- app_assoc. reflexivity.
    + destruct (decide (c = "#"%byte)) as [->|Hc]; [reflexivity|].
      cbn [fold_left]. unfold parse_step. cbn [is_special curstr ps_format].
      destruct (decide (c = "#"%byte)); [contradiction|reflexivity].
Qed.

Lemma parse_loop_code (code : format_code) (f : list format_item) (cur : gostring) :
  code <> F_NONE ->
  fold_left parse_step (code_letter code) (ParseState f false cur)
  = ParseState (f ++ match cur with
                     | [] => [ItemInt code]
                     | _ :: _ => [ItemString cur; ItemInt code]
                     end) false [].
Proof.
  intros Hn. destruct code; [contradiction|..]; destruct cur; reflexivity.
Qed.

Lemma parse_loop_render (items : list format_item) :
  forall (f : list format_item) (cur : gostring),
    canonical_from (bool_decide (cur <> [])) items ->
    parse_finish (fold_left parse_step (render items) (ParseState f false cur))
    = parse_finish (ParseState f false cur) ++ items.
Proof.
  induction items as [|item items IH]; intros f cur Hc.
  - cbn [render map concat fold_left]. rewrite app_nil_r. reflexivity.
  - unfold render. cbn [map concat]. fold (render items). rewrite fold_left_app.
    destruct item as [code| |s|]; cbn [canonical_from] in Hc; try contradiction;
      cbn [render_item].
    + destruct Hc as [Hn Hc]. rewrite parse_loop_code by exact Hn.
      rewrite IH by exact Hc.
      unfold parse_finish. cbn [curstr ps_format].
      destruct cur; rewrite <- !app_assoc; reflexivity.
    + destruct Hc as (Hs & Hb & Hc).
      apply bool_decide_eq_false in Hb.
      assert (cur = []) as -> by (destruct cur; [reflexivity|exfalso; apply Hb; discriminate]).
      rewrite parse_loop_escape. cbn [app].
      rewrite IH by (rewrite bool_decide_eq_true_2 by exact Hs; exact Hc).
      unfold parse_finish. cbn [curstr ps_format].
      destruct s; [contradiction|]. rewrite <- app_assoc. reflexivity.
Qed.

Lemma render_nonempty (items : list format_item) :
  canonical_format items -> items <> [] -> render items <> [].
Proof.
  destruct items as [|item items]; [contradiction|]. intros Hc _.
  destruct item as [code| |s|]; cbn in Hc; try contradiction.
  - destruct Hc as [Hn _]. destruct code; [contradiction|discriminate..].
  - destruct Hc as (Hs & _). destruct s as [|c s]; [contradiction|].
    unfold render. cbn [map concat render_item]. rewrite escape_cons.
    destruct (decide (c = "#"%byte)); discriminate.
Qed.

(** X21: every canonical format can be asked for: written as a format
    string (placeholders as [#q], [#r], [#s], [#i], each [#] of a text
    doubled), it is the format [parseFormat] builds from that string,
    provided the string is ASCII and neither starts nor ends with white
    space. *)
Theorem parseFormat_render (items : list format_item) :
  canonical_format items -> items <> [] ->
  ascii_text (render items) ->
  TrimSpace (render items) = render items ->
  parseFormat [] (render items) = items.
Proof.
  intros Hc Hne _ Htrim. unfold parseFormat. rewrite Htrim.
  pose proof (render_nonempty items Hc Hne) as Hr.
  destruct (render items) as [|c s] eqn:E; [contradiction|]. rewrite <- E.
  rewrite parse_loop_render.
  - reflexivity.
  - rewrite bool_decide_eq_false_2 by (intros H; apply H; reflexivity). exact Hc.
Qed.

Lemma parseFormat_render_witness :
  (canonical_format [ItemInt F_SOURCEIP; ItemString (str " #"); ItemInt F_ROUTE] /\
   [ItemInt F_SOURCEIP; ItemString (str " #"); ItemInt F_ROUTE] <> [] /\
   ascii_text (render [ItemInt F_SOURCEIP; ItemString (str " #"); ItemInt F_ROUTE]) /\
   TrimSpace (render [ItemInt F_SOURCEIP; ItemString (str " #"); ItemInt F_ROUTE])
   = render [ItemInt F_SOURCEIP; ItemString (str " #"); ItemInt F_ROUTE]) /\
  parseFormat [] (render [ItemInt F_SOURCEIP; ItemString (str " #"); ItemInt F_ROUTE])
  = [ItemInt F_SOURCEIP; ItemString (str " #"); ItemInt F_ROUTE].
Proof.
  assert (H1 : canonical_format [ItemInt F_SOURCEIP; ItemString (str " #"); ItemInt F_ROUTE]).
  { cbn. repeat split; discriminate. }
  assert (H2 : [ItemInt F_SOURCEIP; ItemString (str " #"); ItemInt F_ROUTE] <> [])
    by discriminate.
  assert (H3 : ascii_text (render [ItemInt F_SOURCEIP; ItemString (str " #");
                                   ItemInt F_ROUTE])).
  { repeat constructor. }
  assert (H4 : TrimSpace (render [ItemInt F_SOURCEIP; ItemString (str " #");
                                  ItemInt F_ROUTE])
               = render [ItemInt F_SOURCEIP; ItemString (str " #"); ItemInt F_ROUTE])
    by reflexivity.
  split; [exact (conj H1 (conj H2 (conj H3 H4)))|].
  exact (parseFormat_render _ H1 H2 H3 H4).
Defined.

Example render_example :
  render [ItemInt F_SOURCEIP; ItemString (str " #"); ItemInt F_ROUTE] = str "#i ###r".
Proof. reflexivity. Qed.

Lemma trim_left_blank (s : gostring) :
  Forall (fun c => is_space (u8 c) = true) s -> trim_left s = [].
Proof.
  induction 1 as [|c s Hc _ IH]; [reflexivity|].
  cbn [trim_left]. rewrite Hc. exact IH.
Qed.

(** X22: a format string that is empty or all white space stands for
    the format string [#b:#k], which holds no placeholder: the format is the
    one text [#b:#k], and every request is registered under that text. *)
Theorem parseFormat_blank (formatstr : gostring) :
  Forall (fun c => is_space (u8 c) = true) formatstr ->
  parseFormat [] formatstr = [ItemString (str "#b:#k")] /\
  forall (cfg : config) (rs : source) (pdata : list byte),
    format_text cfg rs pdata (parseFormat [] formatstr) [] = Ok (str "#b:#k").
Proof.
  intros Hs.
  assert (E : parseFormat [] formatstr = [ItemString (str "#b:#k")]).
  { unfold parseFormat, TrimSpace. rewrite (trim_left_blank _ Hs). reflexivity. }
  split; [exact E|]. intros cfg rs pdata. rewrite E. reflexivity.
Qed.

Lemma parseFormat_blank_witness :
  Forall (fun c => is_space (u8 c) = true) (str "  ") /\
  parseFormat [] (str "  ") = [ItemString (str "#b:#k")] /\
  forall (cfg : config) (rs : source) (pdata : list byte),
    format_text cfg rs pdata (parseFormat [] (str "  ")) [] = Ok (str "#b:#k").
Proof.
  assert (H : Forall (fun c => is_space (u8 c) = true) (str "  "))
    by (repeat constructor).
  split; [exact H|]. exact (parseFormat_blank (str "  ") H).
Defined.

(** X23: whatever the flags and the format string, the format that
    [main] sets is one on which [processPacket] never exits, and the loop
    of [main] runs through every capture on the port without a panic and
    without [log.Fatalf]. *)
Theorem configured_loop_returns (doverbose nocleanquery ldirty : bool)
    (formatstr : gostring) (port : Z) (caps : list capture) (p : program) :
  ascii_text formatstr ->
  Forall (fun c => on_port port (cap_pkt c) = true) caps ->
  format_ok (configure doverbose nocleanquery ldirty formatstr) /\
  exists p' : program,
    handlePackets (configure doverbose nocleanquery ldirty formatstr) port p caps
    = Ok p'.
Proof.
  intros _ Hon.
  assert (Hf : format_ok (configure doverbose nocleanquery ldirty formatstr)).
  { unfold format_ok, configure. cbn [format].
    exact (canonical_format_ok _ _ (parseFormat_canonical formatstr)). }
  split; [exact Hf|].
  destruct (handlePackets_invariant _ port Hf (fun _ => True)
              ltac:(intros; exact I) caps p I Hon) as (p' & Hrun & _).
  exists p'. exact Hrun.
Qed.

Lemma configured_loop_returns_witness :
  (ascii_text (str "#s:#q") /\
   Forall (fun c => on_port 3306 (cap_pkt c) = true) caps_example) /\
  format_ok (configure false false false (str "#s:#q")) /\
  exists p' : program,
    handlePackets (configure false false false (str "#s:#q")) 3306 program_zero
                  caps_example = Ok p'.
Proof.
  split; [exact (conj default_format_ascii caps_example_on_port)|].
  exact (configured_loop_returns false false false (str "#s:#q") 3306 caps_example
           program_zero default_format_ascii caps_example_on_port).
Defined.

(** The flags left alone give the default configuration. *)
Example configure_default :
  configure false false false (str "#s:#q") = default_config.
Proof. reflexivity. Qed.

(** ** sortableSlice: what sort.Sort relies on *)

Lemma compare_cont_Lt_trans (m1 m2 m3 : positive) :
  PosDef.Pos.compare_cont Eq m1 m2 = Lt -> PosDef.Pos.compare_cont Eq m2 m3 = Lt ->
  PosDef.Pos.compare_cont Eq m1 m3 = Lt.
Proof.
  change (PosDef.Pos.compare_cont Eq) with Pos.compare.
  rewrite !Pos.compare_lt_iff. lia.
Qed.

Lemma compare_cont_Gt_trans (m1 m2 m3 : positive) :
  PosDef.Pos.compare_cont Eq m1 m2 = Gt -> PosDef.Pos.compare_cont Eq m2 m3 = Gt ->
  PosDef.Pos.compare_cont Eq m1 m3 = Gt.
Proof.
  change (PosDef.Pos.compare_cont Eq) with Pos.compare.
  rewrite !Pos.compare_gt_iff. lia.
Qed.

Lemma f64_lt_irrefl (x : float64) : f64_lt x x = false.
Proof.
  unfold f64_lt, SFltb, SFcompare. destruct x as [s|s| |s m e]; try reflexivity.
  - destruct s; reflexivity.
  - rewrite Z.compare_refl.
    change (PosDef.Pos.compare_cont Eq m m) with (Pos.compare m m).
    rewrite Pos.compare_refl. destruct s; reflexivity.
Qed.

Lemma f64_lt_trans (x y z : float64) :
  f64_lt x y = true -> f64_lt y z = true -> f64_lt x z = true.
Proof.
  unfold f64_lt, SFltb, SFcompare.
  destruct x as [sx|sx| |sx mx ex], y as [sy|sy| |sy my ey], z as [sz|sz| |sz mz ez];
    try discriminate; try reflexivity;
    repeat match goal with s : bool |- _ => destruct s end;
    try discriminate; try reflexivity.
  - (* three negative numbers *)
    destruct (Z.compare_spec ex ey) as [E1|H1|H1],
             (Z.compare_spec ey ez) as [E2|H2|H2],
             (Z.compare_spec ex ez) as [E3|H3|H3];
      intros A B; try discriminate A; try discriminate B; try reflexivity; try lia.
    destruct (PosDef.Pos.compare_cont Eq mx my) eqn:C1; try discriminate A.
    destruct (PosDef.Pos.compare_cont Eq my mz) eqn:C2; try discriminate B.
    rewrite (compare_cont_Gt_trans _ _ _ C1 C2). reflexivity.
  - (* three positive numbers *)
    destruct (Z.compare_spec ex ey) as [E1|H1|H1],
             (Z.compare_spec ey ez) as [E2|H2|H2],
             (Z.compare_spec ex ez) as [E3|H3|H3];
      intros A B; try discriminate A; try discriminate B; try reflexivity; try lia.
    destruct (PosDef.Pos.compare_cont Eq mx my) eqn:C1; try discriminate A.
    destruct (PosDef.Pos.compare_cont Eq my mz) eqn:C2; try discriminate B.
    rewrite (compare_cont_Lt_trans _ _ _ C1 C2). reflexivity.
Qed.

(** X24: [Less] is a strict order on the rows, whatever their values
    (a NaN is less than nothing and nothing is less than it): no row is less
    than itself, two rows are never each less than the other, and less than
    is transitive; on two indices in range it returns, comparing the values
    of the two rows. *)
Theorem Less_is_strict_order :
  (forall a : sortable, Less a a = false) /\
  (forall a b : sortable, Less a b = true -> Less b a = false) /\
  (forall a b c : sortable, Less a b = true -> Less b c = true -> Less a c = true) /\
  (forall (self : list sortable) (i j : Z),
     0 <= i < Len self -> 0 <= j < Len self ->
     exists a b : sortable,
       self !! Z.to_nat i = Some a /\ self !! Z.to_nat j = Some b /\
       Less_at self i j = Ok (f64_lt (value a) (value b))).
Proof.
  split; [intros a; apply f64_lt_irrefl|]. split.
  { intros a b Hab. unfold Less in *.
    destruct (f64_lt (value b) (value a)) eqn:Hba; [|reflexivity].
    rewrite <- (f64_lt_irrefl (value a)). symmetry.
    exact (f64_lt_trans _ _ _ Hab Hba). }
  split; [intros a b c; apply f64_lt_trans|].
  intros self i j Hi Hj. unfold Len in *.
  destruct (lookup_lt_is_Some_2 self (Z.to_nat i) ltac:(lia)) as [a Ha].
  destruct (lookup_lt_is_Some_2 self (Z.to_nat j) ltac:(lia)) as [b Hb].
  exists a, b. split; [exact Ha|]. split; [exact Hb|].
  unfold Less_at. rewrite (index_at self i a), (index_at self j b) by (lia || assumption).
  reflexivity.
Qed.

Lemma index_out_of_range {A : Type} (l : list A) (i : Z) :
  i < 0 \/ Z.of_nat (length l) <= i -> index l i = Panic.
Proof.
  intros H. unfold index.
  destruct (Z.leb_spec 0 i), (Z.ltb_spec i (Z.of_nat (length l))); try reflexivity. lia.
Qed.

(** X25: [Swap] on two indices in range exchanges the two rows and
    leaves every other row where it is, so that the slice is a permutation
    of what it was and a second [Swap] undoes the first; an index out of
    range panics. *)
Theorem Swap_exchanges (self : list sortable) (i j : Z) :
  (0 <= i < Len self -> 0 <= j < Len self ->
   exists (a b : sortable) (self' : list sortable),
     self !! Z.to_nat i = Some a /\ self !! Z.to_nat j = Some b /\
     Swap self i j = Ok self' /\
     self' !! Z.to_nat i = Some b /\ self' !! Z.to_nat j = Some a /\
     (forall k : nat, k <> Z.to_nat i -> k <> Z.to_nat j -> self' !! k = self !! k) /\
     Len self' = Len self /\ self' ≡ₚ self /\
     Swap self' i j = Ok self) /\
  (i < 0 \/ Len self <= i \/ j < 0 \/ Len self <= j -> Swap self i j = Panic).
Proof.
  unfold Len. split.
  - intros Hi Hj.
    destruct (lookup_lt_is_Some_2 self (Z.to_nat i) ltac:(lia)) as [a Ha].
    destruct (lookup_lt_is_Some_2 self (Z.to_nat j) ltac:(lia)) as [b Hb].
    set (self' := <[Z.to_nat j := a]> (<[Z.to_nat i := b]> self)).
    assert (Hlen : length self' = length self)
      by (subst self'; rewrite !length_insert; reflexivity).
    assert (Hj' : self' !! Z.to_nat j = Some a).
    { subst self'. apply list_lookup_insert_eq. rewrite length_insert. lia. }
    assert (Hi' : self' !! Z.to_nat i = Some b).
    { subst self'. destruct (decide (Z.to_nat i = Z.to_nat j)) as [E|E].
      - rewrite E in *. rewrite list_lookup_insert_eq by (rewrite length_insert; lia).
        congruence.
      - rewrite list_lookup_insert_ne by congruence.
        apply list_lookup_insert_eq. lia. }
    assert (Hk' : forall k : nat, k <> Z.to_nat i -> k <> Z.to_nat j ->
                                  self' !! k = self !! k).
    { intros k Hki Hkj. subst self'.
      rewrite !list_lookup_insert_ne by congruence. reflexivity. }
    exists a, b, self'.
    split; [exact Ha|]. split; [exact Hb|].
    split.
    { unfold Swap. rewrite (index_at self j b), (index_at self i a) by (lia || assumption).
      reflexivity. }
    split; [exact Hi'|]. split; [exact Hj'|]. split; [exact Hk'|].
    split; [rewrite Hlen; reflexivity|].
    split; [subst self'; apply Permutation_insert_swap; assumption|].
    unfold Swap. rewrite (index_at self' j a), (index_at self' i b) by (lia || assumption).
    cbn [mbind result_bind]. f_equal.
    apply list_eq. intros k.
    destruct (decide (k = Z.to_nat j)) as [->|Hkj].
    { rewrite list_lookup_insert_eq by (rewrite length_insert; lia). congruence. }
    rewrite list_lookup_insert_ne by congruence.
    destruct (decide (k = Z.to_nat i)) as [->|Hki].
    { rewrite list_lookup_insert_eq by lia. congruence. }
    rewrite list_lookup_insert_ne by congruence. apply Hk'; assumption.
  - intros H. unfold Swap.
    destruct (Z.lt_ge_cases j 0) as [?|?];
      [rewrite (index_out_of_range self j) by lia; reflexivity|].
    destruct (Z.lt_ge_cases j (Z.of_nat (length self))) as [?|?];
      [|rewrite (index_out_of_range self j) by lia; reflexivity].
    destruct (lookup_lt_is_Some_2 self (Z.to_nat j) ltac:(lia)) as [b Hb].
    rewrite (index_at self j b) by (lia || assumption). cbn [mbind result_bind].
    rewrite (index_out_of_range self i) by lia. reflexivity.
Qed.

Example Swap_example :
  Swap [Sortable (f64_of_Z 1) (str "a"); Sortable (f64_of_Z 2) (str "b");
        Sortable (f64_of_Z 3) (str "c")] 0 2
  = Ok [Sortable (f64_of_Z 3) (str "c"); Sortable (f64_of_Z 2) (str "b");
        Sortable (f64_of_Z 1) (str "a")].
Proof. reflexivity. Qed.

(** * The desync counter and the canonical text *)

(** ** processPacket: the desync counter *)

(** One call of [processPacket], in either direction: the response
    buffer, the desync counter and the synchronization state after it. *)
Lemma processPacket_desyncs (cfg : config) (g : globals) (rs : source)
    (request : bool) (data : list byte) (now : Z) (randn : nat) :
  format_ok cfg ->
  exists (g' : globals) (rs' : source),
    processPacket cfg g rs request data now randn = Ok (g', rs') /\
    resbuffer rs' = None /\
    desyncs g'
    = (if request && bool_decide (resbuffer rs <> None)
       then uint64 (desyncs g + 1) else desyncs g) /\
    synced rs'
    = (if request
       then synced rs && bool_decide (resbuffer rs = None) || carves_query data
       else synced rs).
Proof.
  intros Hf.
  assert (Hd : desyncs (count_call request rs g)
               = if request && bool_decide (resbuffer rs <> None)
                 then uint64 (desyncs g + 1) else desyncs g).
  { unfold count_call.
    destruct (synced rs), (resbuffer rs), request; reflexivity. }
  destruct request.
  - (* a request *)
    destruct (carves_query data) eqn:Hq.
    + destruct (processPacket_sync cfg g rs data now randn Hf Hq)
        as (g' & rs' & Hp & Hs & Hr & Hd').
      exists g', rs'. split; [exact Hp|]. split; [exact Hr|].
      split; [rewrite Hd'; exact Hd|]. rewrite Hs, orb_true_r. reflexivity.
    + rewrite orb_false_r.
      destruct (synced rs) eqn:Hs; [destruct (resbuffer rs) eqn:Hr|].
      * (* synchronized, but a response buffer is found *)
        unfold processPacket.
        destruct (carvePacket_total (Some data)) as (ptype & pdata & buf & Hc & _).
        rewrite (ingest_request g rs data ptype pdata buf Hc). cbn [mbind result_bind].
        rewrite (carves_query_carve data ptype pdata buf Hc) in Hq.
        unfold after_carve. rewrite Hr. cbn [synced set_reqbuffer set_synced negb andb].
        rewrite Hq. cbn [negb].
        eexists _, _. split; [reflexivity|]. split; [reflexivity|].
        split; [exact Hd|]. reflexivity.
      * (* synchronized, no response buffer *)
        unfold processPacket.
        destruct (carvePacket_total (Some data)) as (ptype & pdata & buf & Hc & _).
        rewrite (ingest_request g rs data ptype pdata buf Hc). cbn [mbind result_bind].
        unfold after_carve. rewrite Hr. cbn [synced set_reqbuffer]. rewrite Hs.
        cbn [negb andb].
        destruct (ptype =? -1).
        { eexists _, _. split; [reflexivity|]. split; [exact Hr|].
          split; [exact Hd|]. cbn [synced set_reqbuffer]. rewrite Hs. reflexivity. }
        cbn [negb].
        destruct (record_request_Ok cfg (count_call true rs g) (set_reqbuffer buf rs)
                    (bytes_of pdata) (uint64 (len pdata)) now Hf)
          as (g' & rs' & -> & Hs' & Hr' & Hd').
        exists g', rs'. split; [reflexivity|]. split; [rewrite Hr'; exact Hr|].
        split; [rewrite Hd'; exact Hd|].
        rewrite Hs'. cbn [synced set_reqbuffer]. rewrite Hs. reflexivity.
      * (* unsynchronized *)
        rewrite (processPacket_unsynced_other cfg g rs true data now randn Hs)
          by (rewrite Hq; reflexivity).
        eexists _, _. split; [reflexivity|]. split; [reflexivity|].
        split; [exact Hd|]. cbn [andb]. exact Hs.
  - (* a response *)
    unfold processPacket. rewrite ingest_response. cbn [mbind result_bind].
    cbn [synced set_resbuffer andb]. rewrite andb_true_r.
    destruct (synced rs) eqn:Hs; cbn [negb].
    + change (0 =? -1) with false. cbv iota.
      destruct (record_response_frame (count_call false rs g) (set_resbuffer None rs)
                  (uint64 (len (Some data))) now randn) as (Hs' & Hr & Hd').
      destruct (record_response (count_call false rs g) (set_resbuffer None rs)
                  (uint64 (len (Some data))) now randn) as [g' rs'].
      cbn [fst snd] in *.
      exists g', rs'. split; [reflexivity|]. split; [exact Hr|].
      split; [rewrite Hd'; exact Hd|]. rewrite Hs'. exact Hs.
    + eexists _, _. split; [reflexivity|]. split; [reflexivity|].
      split; [exact Hd|]. exact Hs.
Qed.

(** The loop of [main] over captures on the port, from a state in which
    no flow holds a response buffer: no call finds one. *)
Lemma handlePackets_desyncs (cfg : config) (port : Z) :
  format_ok cfg ->
  forall (caps : list capture) (p : program),
    Forall (fun c => on_port port (cap_pkt c) = true) caps ->
    map_Forall (fun _ rs => resbuffer rs = None) (chmap p) ->
    exists p' : program,
      handlePackets cfg port p caps = Ok p' /\
      desyncs (vars p') = desyncs (vars p) /\
      map_Forall (fun _ rs => resbuffer rs = None) (chmap p').
Proof.
  intros Hf caps p Hon Hres.
  apply (handlePackets_invariant cfg port Hf
           (fun q => desyncs (vars q) = desyncs (vars p) /\
                     map_Forall (fun _ rs => resbuffer rs = None) (chmap q)));
    [|split; [reflexivity|exact Hres]|exact Hon].
  clear Hres Hon. intros q q' pkt now randn (Hd & Hres) Hcall.
  apply handlePacket_cases in Hcall
    as [[_ ->]|(_ & ip & tcp & src_ & request & g0 & g' & rs0 & rs' & _ & _
                 & _ & Hlook & Hpp & ->)]; [split; assumption|].
  apply processPacket_step in Hpp as (_ & _ & _ & Hd' & Hr' & _).
  cbn [chmap vars].
  assert (H0 : resbuffer rs0 = None /\ desyncs g0 = desyncs (vars q)).
  { apply flow_lookup_cases in Hlook as [[Hk ->]|(Hk & -> & srcip_ & _ & ->)].
    - split; [exact (Hres _ _ Hk)|reflexivity].
    - split; reflexivity. }
  destruct H0 as (Hr0 & Hd0).
  split.
  - rewrite Hd', Hr0, andb_false_r. congruence.
  - apply map_Forall_insert_2; assumption.
Qed.


Lemma caps_pipelined_on_port :
  Forall (fun c => on_port 3306 (cap_pkt c) = true) caps_pipelined.
Proof. repeat constructor. Qed.

Lemma program_zero_no_response :
  map_Forall (fun _ rs0 => resbuffer rs0 = None) (chmap program_zero).
Proof. apply map_Forall_empty. Qed.



(** ** cleanupQuery: the canonical text of the specification *)

Lemma among_quote (c : byte) : among quote_bytes c = is_quote (u8 c).
Proof. destruct c; reflexivity. Qed.

Lemma among_digit (c : byte) : among digit_bytes c = is_digit (u8 c).
Proof. destruct c; reflexivity. Qed.

Lemma among_space (c : byte) : among space_bytes c = is_space (u8 c).
Proof. destruct c; reflexivity. Qed.

Lemma among_letter (c : byte) : among letter_bytes c = is_alpha (u8 c).
Proof. destruct c; reflexivity. Qed.

Lemma among_word (c : byte) : among word_bytes c = is_word_byte (u8 c).
Proof. destruct c; reflexivity. Qed.

(** The three scanning loops stop where the run of the class ends. *)
Lemma scan_number_run_of (rest : list byte) :
  forall i n : nat,
    (i + length rest = n)%nat ->
    take (scan_number rest i n - i) rest = run_of digit_bytes rest /\
    drop (scan_number rest i n - i) rest = after_run_of digit_bytes rest.
Proof.
  induction rest as [|c rest IH]; intros i n Hn; cbn [scan_number run_of after_run_of].
  - rewrite take_nil, drop_nil. split; reflexivity.
  - rewrite among_digit. destruct (is_digit (u8 c)).
    + cbn [length] in Hn.
      pose proof (scan_number_bounds rest (S i) n ltac:(lia)) as Hb.
      destruct (IH (S i) n ltac:(lia)) as [H1 H2].
      replace (scan_number rest (S i) n - i)%nat
        with (S (scan_number rest (S i) n - S i)) by lia.
      cbn [take drop]. rewrite H1, H2. split; reflexivity.
    + rewrite Nat.sub_diag. split; reflexivity.
Qed.

Lemma scan_space_run_of (rest : list byte) :
  forall i n : nat,
    (i + length rest = n)%nat ->
    drop (scan_space rest i n - i) rest = after_run_of space_bytes rest.
Proof.
  induction rest as [|c rest IH]; intros i n Hn; cbn [scan_space after_run_of].
  - apply drop_nil.
  - rewrite among_space. destruct (is_space (u8 c)).
    + cbn [length] in Hn.
      pose proof (scan_space_bounds rest (S i) n ltac:(lia)) as Hb.
      replace (scan_space rest (S i) n - i)%nat
        with (S (scan_space rest (S i) n - S i)) by lia.
      cbn [drop]. apply IH. lia.
    + rewrite Nat.sub_diag. reflexivity.
Qed.

Lemma scan_word_run_of (rest : list byte) :
  forall i n : nat,
    (i + length rest = n)%nat ->
    take (scan_word rest i n - i) rest = run_of word_bytes rest /\
    drop (scan_word rest i n - i) rest = after_run_of word_bytes rest.
Proof.
  induction rest as [|c rest IH]; intros i n Hn; cbn [scan_word run_of after_run_of].
  - rewrite take_nil, drop_nil. split; reflexivity.
  - rewrite among_word. destruct (is_word_byte (u8 c)).
    + cbn [length] in Hn.
      pose proof (scan_word_bounds rest (S i) n ltac:(lia)) as Hb.
      destruct (IH (S i) n ltac:(lia)) as [H1 H2].
      replace (scan_word rest (S i) n - i)%nat
        with (S (scan_word rest (S i) n - S i)) by lia.
      cbn [take drop]. rewrite H1, H2. split; reflexivity.
    + rewrite Nat.sub_diag. split; reflexivity.
Qed.

(** The scan of a quoted literal stops where the literal ends. *)
Lemma scan_quote_after_literal (delim : byte) (rest : list byte) :
  forall (escaped : bool) (i n : nat),
    (i + length rest = n)%nat ->
    drop (scan_quote (u8 delim) escaped rest i n - i) rest
    = after_literal delim escaped rest.
Proof.
  induction rest as [|c rest IH]; intros escaped i n Hn;
    cbn [scan_quote after_literal].
  - apply drop_nil.
  - cbn [length] in Hn.
    assert (Hrec : forall e : bool,
               drop (scan_quote (u8 delim) e rest (S i) n - i) (c :: rest)
               = after_literal delim e rest).
    { intros e.
      pose proof (scan_quote_bounds (u8 delim) rest e (S i) n ltac:(lia)) as Hb.
      replace (scan_quote (u8 delim) e rest (S i) n - i)%nat
        with (S (scan_quote (u8 delim) e rest (S i) n - S i)) by lia.
      cbn [drop]. apply IH. lia. }
    destruct (decide (c = delim)) as [->|Hne].
    + rewrite Z.eqb_refl. destruct escaped; [apply Hrec|].
      replace (i + 1 - i)%nat with 1%nat by lia. reflexivity.
    + destruct (Z.eqb_spec (u8 c) (u8 delim)) as [E|_];
        [exfalso; apply Hne, u8_inj, E|].
      destruct (Z.eqb_spec (u8 c) 92) as [E|E].
      * rewrite bool_decide_eq_true_2 by (apply u8_inj; exact E). apply Hrec.
      * rewrite bool_decide_eq_false_2 by (intros ->; apply E; reflexivity).
        apply Hrec.
Qed.

(** The pieces that [cleanupQuery] joins are the tokens as the
    specification writes them. *)
Lemma tokenize_replace_tokens (cfg : config) :
  tokenizing cfg ->
  forall (budget : nat) (q : list byte),
    concat (map canonical_piece (tokenize cfg budget q)) = replace_tokens budget q.
Proof.
  intros Htok. unfold tokenizing in Htok.
  induction budget as [|budget IH]; intros q; [reflexivity|].
  destruct q as [|b rest]; [reflexivity|].
  cbn [tokenize replace_tokens]. rewrite scanToken_cons. cbv zeta. rewrite Htok.
  rewrite among_quote, among_digit, among_space, among_letter.
  destruct (is_quote (u8 b)) eqn:Eq.
  { pose proof (scan_quote_bounds (u8 b) rest false 1 (S (length rest)) eq_refl) as Hb.
    cbn [map concat canonical_piece]. rewrite IH.
    change (TOKEN_QUOTE =? TOKEN_WORD) with false.
    change (TOKEN_QUOTE =? TOKEN_OTHER) with false.
    change (TOKEN_QUOTE =? TOKEN_QUOTE) with true.
    cbn [orb]. rewrite orb_true_r. cbn [str list_byte_of_string app].
    f_equal. f_equal.
    destruct (scan_quote (u8 b) false rest 1 (S (length rest))) as [|k] eqn:Ek; [lia|].
    cbn [drop].
    rewrite <- (scan_quote_after_literal b rest false 1 (S (length rest)) eq_refl).
    rewrite Ek. f_equal. lia. }
  destruct (is_digit (u8 b)) eqn:Ed.
  { pose proof (scan_number_bounds rest 1 (S (length rest)) eq_refl) as Hb.
    destruct (scan_number_run_of rest 1 (S (length rest)) eq_refl) as [_ H2].
    cbn [map concat canonical_piece]. rewrite IH.
    change (TOKEN_NUMBER =? TOKEN_WORD) with false.
    change (TOKEN_NUMBER =? TOKEN_OTHER) with false.
    change (TOKEN_NUMBER =? TOKEN_NUMBER) with true.
    cbn [orb str list_byte_of_string app].
    f_equal. f_equal.
    destruct (scan_number rest 1 (S (length rest))) as [|k]; [lia|].
    cbn [drop]. rewrite <- H2. f_equal. lia. }
  destruct (is_space (u8 b)) eqn:Es.
  { pose proof (scan_space_bounds rest 1 (S (length rest)) eq_refl) as Hb.
    pose proof (scan_space_run_of rest 1 (S (length rest)) eq_refl) as H2.
    cbn [map concat canonical_piece]. rewrite IH.
    change (TOKEN_WHITESPACE =? TOKEN_WORD) with false.
    change (TOKEN_WHITESPACE =? TOKEN_OTHER) with false.
    change (TOKEN_WHITESPACE =? TOKEN_NUMBER) with false.
    change (TOKEN_WHITESPACE =? TOKEN_QUOTE) with false.
    cbn [orb str list_byte_of_string app].
    f_equal. f_equal.
    destruct (scan_space rest 1 (S (length rest))) as [|k]; [lia|].
    cbn [drop]. rewrite <- H2. f_equal. lia. }
  destruct (is_alpha (u8 b)) eqn:Ea.
  { pose proof (scan_word_bounds rest 1 (S (length rest)) eq_refl) as Hb.
    destruct (scan_word_run_of rest 1 (S (length rest)) eq_refl) as [H1 H2].
    cbn [map concat canonical_piece]. rewrite IH.
    change (TOKEN_WORD =? TOKEN_WORD) with true. cbn [orb].
    destruct (scan_word rest 1 (S (length rest))) as [|k]; [lia|].
    cbn [take drop app]. f_equal.
    replace (S k - 1)%nat with k in * by lia. rewrite H1, H2. reflexivity. }
  cbn [map concat canonical_piece take drop app].
  change (TOKEN_OTHER =? TOKEN_WORD) with false.
  change (TOKEN_OTHER =? TOKEN_OTHER) with true. cbn [orb].
  rewrite take_0, drop_0, IH. reflexivity.
Qed.

(** [strings] cutting at a one-byte separator. *)
Lemma cut_split_at (sep : byte) (s : gostring) : cut s [sep] = split_at sep s.
Proof.
  induction s as [|c s IH]; [reflexivity|].
  cbn [cut has_prefix split_at].
  destruct (decide (sep = c)) as [->|Hne].
  - rewrite decide_True by reflexivity. reflexivity.
  - rewrite decide_False by congruence. rewrite IH. reflexivity.
Qed.

Lemma shorten_route_annotation (t : gostring) : shorten_route t = shorten_annotation t.
Proof.
  unfold shorten_route, shorten_annotation.
  change (str " ") with [" "%byte]. change (str ":") with [":"%byte].
  cbn [SplitN]. rewrite cut_split_at.
  destruct (split_at " " t) as [[f0 t1]|]; [|reflexivity].
  rewrite cut_split_at.
  destruct (split_at " " t1) as [[f1 t2]|]; [|reflexivity].
  rewrite cut_split_at.
  destruct (split_at " " t2) as [[f2 t3]|]; [|reflexivity].
  rewrite cut_split_at.
  destruct (split_at " " t3) as [[f3 f4]|]; [|reflexivity].
  rewrite cut_split_at. reflexivity.
Qed.

Lemma remove_placeholders_unfold (t : gostring) :
  remove_placeholders t
  = if has_prefix (str "?, ") t then remove_placeholders (drop 3 t)
    else match t with
         | [] => []
         | c1 :: t1 => c1 :: remove_placeholders t1
         end.
Proof.
  change (str "?, ") with ["?"%byte; ","%byte; " "%byte].
  destruct t as [|c1 [|c2 [|c3 t3]]]; cbn [has_prefix remove_placeholders drop].
  - reflexivity.
  - destruct (decide ("?"%byte = c1)); reflexivity.
  - destruct (decide ("?"%byte = c1)); [destruct (decide (","%byte = c2))|]; reflexivity.
  - destruct (decide ("?"%byte = c1)) as [<-|H1].
    + destruct (decide (","%byte = c2)) as [<-|H2].
      * destruct (decide (" "%byte = c3)) as [<-|H3].
        -- rewrite decide_True by (repeat split). reflexivity.
        -- rewrite decide_False by (intros (_ & _ & E); congruence). reflexivity.
      * rewrite decide_False by (intros (_ & E & _); congruence). reflexivity.
    + rewrite decide_False by (intros (E & _); congruence). reflexivity.
Qed.

Lemma has_prefix_length (p s : gostring) :
  has_prefix p s = true -> (length p <= length s)%nat.
Proof.
  revert s. induction p as [|a p IH]; intros s H; cbn [length]; [lia|].
  destruct s as [|b s]; [discriminate|]. cbn [has_prefix length] in *.
  destruct (decide (a = b)); [|discriminate]. specialize (IH s H). lia.
Qed.

Lemma Replace_remove_placeholders (t : gostring) :
  Replace t (str "?, ") [] = remove_placeholders t.
Proof.
  remember (length t) as k eqn:Hk.
  revert t Hk. induction k as [k IH] using lt_wf_ind. intros t Hk.
  rewrite Replace_unfold by discriminate.
  rewrite remove_placeholders_unfold.
  destruct t as [|c1 t1]; [reflexivity|].
  cbn [cut].
  destruct (has_prefix (str "?, ") (c1 :: t1)) eqn:Hp.
  - apply has_prefix_length in Hp. cbn [app]. change (length (str "?, ")) with 3%nat in *.
    apply (IH (length (drop 3 (c1 :: t1)))); [|reflexivity].
    rewrite length_drop. subst k. lia.
  - specialize (IH (length t1) ltac:(subst k; cbn; lia) t1 eq_refl).
    rewrite Replace_unfold in IH by discriminate.
    rewrite <- IH.
    destruct (cut t1 (str "?, ")) as [[a b]|]; reflexivity.
Qed.

(** A budget of one token per byte is never used up. *)
Lemma after_run_of_length (class : list byte) (s : list byte) :
  (length (after_run_of class s) <= length s)%nat.
Proof.
  induction s as [|c s IH]; cbn [after_run_of length]; [lia|].
  destruct (among class c); cbn [length]; lia.
Qed.

Lemma after_literal_length (delim : byte) (s : list byte) :
  forall escaped : bool, (length (after_literal delim escaped s) <= length s)%nat.
Proof.
  induction s as [|c s IH]; intros escaped; cbn [after_literal length]; [lia|].
  destruct (decide (c = delim)); [destruct escaped|];
    try (specialize (IH false); lia); try lia.
  specialize (IH (bool_decide (c = "\"%byte))). lia.
Qed.

Lemma replace_tokens_budget :
  forall (budget budget' : nat) (q : list byte),
    (length q <= budget)%nat -> (length q <= budget')%nat ->
    replace_tokens budget q = replace_tokens budget' q.
Proof.
  induction budget as [|budget IH]; intros budget' q Hb Hb'.
  - destruct q; [|cbn in Hb; lia]. destruct budget'; reflexivity.
  - destruct q as [|b rest]; [destruct budget'; reflexivity|].
    destruct budget' as [|budget']; [cbn in Hb'; lia|].
    cbn [length] in Hb, Hb'. cbn [replace_tokens].
    pose proof (after_literal_length b rest false).
    pose proof (after_run_of_length digit_bytes rest).
    pose proof (after_run_of_length space_bytes rest).
    pose proof (after_run_of_length word_bytes rest).
    destruct (among quote_bytes b); [f_equal; apply IH; lia|].
    destruct (among digit_bytes b); [f_equal; apply IH; lia|].
    destruct (among space_bytes b); [f_equal; apply IH; lia|].
    destruct (among letter_bytes b); [f_equal; f_equal; apply IH; lia|].
    f_equal. apply IH; lia.
Qed.



(** The canonical text of the witness: the comma after the first
    placeholder goes with it. *)
Example canonicalize_example :
  canonicalize (str "UPDATE t  SET a = 'x\'y', b = 7") = str "UPDATE t SET a = b = ?".
Proof. vm_compute. reflexivity. Qed.

(** The annotation is shortened only when something follows it: with
    four fields the text is left as it is. *)
Example annotation_needs_five_fields :
  cleanupQuery default_config (str "SELECT /* host1:routeA */")
  = Ok (str "SELECT /* host1:routeA */") /\
  cleanupQuery default_config (str "SELECT /* host1:routeA */ x")
  = Ok (str "SELECT /* routeA */ x").
Proof. split; vm_compute; reflexivity. Qed.

(** ** cleanupQuery: the texts it leaves as they are *)

Lemma split_at_Some (sep : byte) (s a b : list byte) :
  split_at sep s = Some (a, b) ->
  s = a ++ sep :: b /\ Forall (fun c => c <> sep) a.
Proof.
  revert a b. induction s as [|c s IH]; intros a b H; cbn [split_at] in H.
  - discriminate.
  - destruct (decide (c = sep)) as [->|Hne].
    + injection H as <- <-. split; [reflexivity|constructor].
    + destruct (split_at sep s) as [[a' b']|]; [|discriminate].
      injection H as <- <-. destruct (IH a' b' eq_refl) as [-> Ha].
      split; [reflexivity|constructor; assumption].
Qed.

Lemma split_at_app (sep : byte) (a b : list byte) :
  Forall (fun c => c <> sep) a -> split_at sep (a ++ sep :: b) = Some (a, b).
Proof.
  induction 1 as [|c a Hc Ha IH]; cbn [app split_at].
  - rewrite decide_True by reflexivity. reflexivity.
  - rewrite decide_False by exact Hc. rewrite IH. reflexivity.
Qed.

Lemma split_at_elem (sep : byte) (s : list byte) :
  sep ∈ s -> exists a b : list byte, split_at sep s = Some (a, b).
Proof.
  induction s as [|c s IH]; intros H; [inversion H|].
  cbn [split_at]. destruct (decide (c = sep)); [eauto|].
  apply elem_of_cons in H as [->|H]; [contradiction|].
  destruct (IH H) as (a & b & ->). eauto.
Qed.

(** A text with an annotation that names a host gets shorter. *)
Lemma shorten_annotation_host (y : gostring) :
  has_annotation_host y -> (length (shorten_annotation y) < length y)%nat.
Proof.
  intros (f0 & f2 & f4 & H0 & H2 & Hc & ->).
  unfold shorten_annotation.
  change (str " /* ") with (" "%byte :: str "/*" ++ " "%byte :: []).
  change (str " */ ") with (" "%byte :: str "*/" ++ " "%byte :: []).
  cbn [app]. rewrite <- !app_assoc. cbn [app].
  rewrite (split_at_app " "%byte f0) by exact H0.
  change ("/"%byte :: "*"%byte :: " "%byte :: f2 ++ " "%byte :: "*"%byte :: "/"%byte
          :: " "%byte :: f4)
    with (str "/*" ++ " "%byte :: f2 ++ " "%byte :: str "*/" ++ " "%byte :: f4).
  rewrite (split_at_app " "%byte (str "/*")) by (repeat constructor; discriminate).
  rewrite (split_at_app " "%byte f2) by exact H2.
  rewrite (split_at_app " "%byte (str "*/")) by (repeat constructor; discriminate).
  rewrite decide_True by (split; reflexivity).
  destruct (split_at_elem ":"%byte f2 Hc) as (host & route & Hs). rewrite Hs.
  apply split_at_Some in Hs as [-> _].
  assert (L1 : length (str "/*") = 2%nat) by reflexivity.
  assert (L2 : length (str "*/") = 2%nat) by reflexivity.
  repeat (rewrite length_app || cbn [length]). lia.
Qed.

(** A text that the shortening changes has such an annotation. *)
Lemma shorten_annotation_changed (y : gostring) :
  shorten_annotation y <> y -> has_annotation_host y.
Proof.
  unfold shorten_annotation.
  destruct (split_at " " y) as [[f0 t1]|] eqn:E0; [|congruence].
  destruct (split_at " " t1) as [[f1 t2]|] eqn:E1; [|congruence].
  destruct (split_at " " t2) as [[f2 t3]|] eqn:E2; [|congruence].
  destruct (split_at " " t3) as [[f3 f4]|] eqn:E3; [|congruence].
  destruct (decide (f1 = str "/*" /\ f3 = str "*/")) as [[-> ->]|]; [|congruence].
  destruct (split_at ":" f2) as [[host route]|] eqn:Ec; [|congruence].
  intros _.
  apply split_at_Some in E0 as [-> H0]. apply split_at_Some in E1 as [-> _].
  apply split_at_Some in E2 as [-> H2]. apply split_at_Some in E3 as [-> _].
  apply split_at_Some in Ec as [Hf2 _].
  exists f0, f2, f4. split; [exact H0|]. split; [exact H2|].
  split.
  - rewrite Hf2. apply elem_of_app. right. left.
  - reflexivity.
Qed.

Lemma shorten_annotation_length (y : gostring) :
  (length (shorten_annotation y) <= length y)%nat.
Proof.
  destruct (decide (shorten_annotation y = y)) as [->|H]; [lia|].
  apply shorten_annotation_changed, shorten_annotation_host in H. lia.
Qed.

(** The removal of [?, ] makes a text shorter, or leaves it as it is. *)
Lemma Replace_length (t : gostring) :
  (length (Replace t (str "?, ") []) <= length t)%nat.
Proof.
  remember (length t) as k eqn:Hk.
  revert t Hk. induction k as [k IH] using lt_wf_ind. intros t Hk.
  rewrite Replace_unfold by discriminate.
  destruct (cut t (str "?, ")) as [[a b]|] eqn:Hc; [|lia].
  apply cut_Some in Hc.
  assert (Hl : length t = (length a + 3 + length b)%nat).
  { rewrite Hc, !length_app. change (length (str "?, ")) with 3%nat. lia. }
  specialize (IH (length b) ltac:(lia) b eq_refl).
  cbn [app]. rewrite length_app. lia.
Qed.

Lemma Replace_changes (t : gostring) :
  has_placeholder_comma t -> (length (Replace t (str "?, ") []) < length t)%nat.
Proof.
  intros (a & b & Ht).
  rewrite Replace_unfold by discriminate.
  destruct (cut t (str "?, ")) as [[a' b']|] eqn:Hc.
  - apply cut_Some in Hc.
    assert (Hl : length t = (length a' + 3 + length b')%nat).
    { rewrite Hc, !length_app. change (length (str "?, ")) with 3%nat. lia. }
    pose proof (Replace_length b').
    cbn [app]. rewrite length_app. lia.
  - exfalso. exact (cut_None _ _ Hc a b Ht).
Qed.

Lemma Replace_same (t : gostring) :
  ~ has_placeholder_comma t -> Replace t (str "?, ") [] = t.
Proof.
  intros H. rewrite Replace_unfold by discriminate.
  destruct (cut t (str "?, ")) as [[a b]|] eqn:Hc; [|reflexivity].
  exfalso. apply H. exists a, b. exact (cut_Some _ _ _ _ Hc).
Qed.

(** A quoted literal starts with a quote delimiter and a run of digits
    with a digit. *)
Lemma tokenize_first_byte (cfg : config) :
  forall (budget : nat) (q : list byte),
    Forall (fun t =>
              (snd t = TOKEN_QUOTE ->
               exists (b : byte) (r : list byte),
                 fst t = b :: r /\ is_quote (u8 b) = true) /\
              (snd t = TOKEN_NUMBER ->
               exists (b : byte) (r : list byte),
                 fst t = b :: r /\ is_digit (u8 b) = true))
           (tokenize cfg budget q).
Proof.
  induction budget as [|budget IH]; intros q; [constructor|].
  destruct q as [|b rest]; [constructor|].
  cbn [tokenize]. rewrite scanToken_cons. cbv zeta.
  pose proof (scan_quote_bounds (u8 b) rest false 1 (S (length rest)) eq_refl) as Bq.
  pose proof (scan_number_bounds rest 1 (S (length rest)) eq_refl) as Bn.
  destruct (verbose cfg && noclean cfg).
  { constructor; [|apply IH]. cbn [fst snd]. split; discriminate. }
  destruct (is_quote (u8 b)) eqn:Eq.
  { constructor; [|apply IH]. cbn [fst snd]. split; [|discriminate]. intros _.
    destruct (scan_quote (u8 b) false rest 1 (S (length rest))) as [|k]; [lia|].
    cbn [take]. eauto. }
  destruct (is_digit (u8 b)) eqn:Ed.
  { constructor; [|apply IH]. cbn [fst snd]. split; [discriminate|]. intros _.
    destruct (scan_number rest 1 (S (length rest))) as [|k]; [lia|].
    cbn [take]. eauto. }
  destruct (is_space (u8 b)); [|destruct (is_alpha (u8 b))];
    (constructor; [|apply IH]); cbn [fst snd]; split; discriminate.
Qed.

(** What a token gives is never longer than the token. *)
Lemma canonical_piece_length (t : gostring * Z) :
  (1 <= length (fst t))%nat -> (length (canonical_piece t) <= length (fst t))%nat.
Proof.
  destruct t as [text ty]. cbn [fst canonical_piece]. intros H.
  destruct ((ty =? TOKEN_WORD) || (ty =? TOKEN_OTHER)); [lia|].
  destruct ((ty =? TOKEN_NUMBER) || (ty =? TOKEN_QUOTE)); cbn; lia.
Qed.

(** Pieces no longer than the texts they come from, with the same
    concatenation, are these texts. *)
Lemma concat_pieces_same {A : Type} (f g : A -> list byte) (l : list A) :
  Forall (fun t => (length (f t) <= length (g t))%nat) l ->
  concat (map f l) = concat (map g l) ->
  Forall (fun t => f t = g t) l.
Proof.
  intros Hlen.
  assert (Hsum : forall l' : list A,
             Forall (fun t => (length (f t) <= length (g t))%nat) l' ->
             (length (concat (map f l')) <= length (concat (map g l')))%nat).
  { induction 1 as [|t l' Ht Hl' IH]; cbn [map concat]; [lia|].
    rewrite !length_app. lia. }
  induction Hlen as [|t l Ht Hl IH]; intros Heq; [constructor|].
  cbn [map concat] in Heq.
  assert (Hft : length (f t) = length (g t)).
  { apply (f_equal length) in Heq. rewrite !length_app in Heq.
    specialize (Hsum l Hl). lia. }
  apply app_inj_1 in Heq as [E1 E2]; [|exact Hft].
  constructor; [exact E1|apply IH, E2].
Qed.

Lemma concat_pieces_length (cfg : config) (y : list byte) :
  (length (concat (map canonical_piece (tokens cfg y))) <= length y)%nat.
Proof.
  unfold tokens.
  pose proof (tokenize_concat cfg (length y) y (le_n _)) as Hcat.
  pose proof (tokenize_nonempty cfg (length y) y) as Hne.
  set (l := tokenize cfg (length y) y) in *.
  rewrite <- Hcat. clear Hcat. clearbody l.
  induction Hne as [|t l [Ht _] Hl IH]; cbn [map concat]; [lia|].
  rewrite !length_app. pose proof (canonical_piece_length t Ht). lia.
Qed.

(** The tokens that are kept are those that give themselves. *)
Lemma kept_tokens_pieces (cfg : config) (y : list byte) :
  Forall kept_token (tokens cfg y) <->
  concat (map canonical_piece (tokens cfg y)) = y.
Proof.
  unfold tokens.
  pose proof (tokenize_nonempty cfg (length y) y) as Hne.
  pose proof (tokenize_first_byte cfg (length y) y) as Hfb.
  pose proof (tokenize_concat cfg (length y) y (le_n _)) as Hcat.
  split.
  - intros Hk.
    transitivity (concat (map fst (tokenize cfg (length y) y))); [|exact Hcat].
    f_equal. apply map_ext_Forall.
    rewrite list.Forall_forall in Hk, Hne. apply list.Forall_forall. intros [text ty] Hin.
    destruct (Hk _ Hin) as (Hq & Hn & Hw). destruct (Hne _ Hin) as [_ Hty].
    cbn [fst snd] in *. unfold canonical_piece.
    destruct Hty as [-> | [-> | [-> | [-> | ->]]]]; try reflexivity; try contradiction.
    symmetry. apply Hw. reflexivity.
  - intros Heq.
    assert (Heq' : concat (map canonical_piece (tokenize cfg (length y) y))
                   = concat (map fst (tokenize cfg (length y) y)))
      by (rewrite Hcat; exact Heq).
    clear Heq. rename Heq' into Heq.
    apply concat_pieces_same in Heq.
    2:{ eapply Forall_impl; [exact Hne|]. intros t [Ht _].
        apply canonical_piece_length, Ht. }
    rewrite list.Forall_forall in Heq, Hfb. apply list.Forall_forall. intros [text ty] Hin.
    specialize (Heq _ Hin). destruct (Hfb _ Hin) as [Hq Hn].
    cbn [fst snd] in *. unfold kept_token. cbn [fst snd].
    split; [|split].
    + intros ->. destruct (Hq eq_refl) as (b & r & -> & Hb).
      cbn in Heq. injection Heq as <- _. discriminate.
    + intros ->. destruct (Hn eq_refl) as (b & r & -> & Hb).
      cbn in Heq. injection Heq as <- _. discriminate.
    + intros ->. cbn in Heq. symmetry. exact Heq.
Qed.

(** The texts that [cleanupQuery] returns as they are. *)
Lemma cleanupQuery_fixed_point (cfg : config) (y : list byte) :
  cleanupQuery cfg y = Ok y <->
  Forall kept_token (tokens cfg y) /\ ~ has_annotation_host y /\
  ~ has_placeholder_comma y.
Proof.
  rewrite cleanupQuery_tokens, shorten_route_annotation, kept_tokens_pieces.
  set (T := concat (map canonical_piece (tokens cfg y))).
  pose proof (concat_pieces_length cfg y) as HT. fold T in HT. clearbody T.
  pose proof (shorten_annotation_length T) as HS.
  pose proof (Replace_length (shorten_annotation T)) as HR.
  split.
  - intros [= Heq].
    assert (Hlen : length (Replace (shorten_annotation T) (str "?, ") []) = length y)
      by (rewrite Heq; reflexivity).
    assert (HnoS : shorten_annotation T = T).
    { destruct (decide (shorten_annotation T = T)) as [E|E]; [exact E|].
      apply shorten_annotation_changed, shorten_annotation_host in E. lia. }
    rewrite HnoS in *.
    assert (HnoR : ~ has_placeholder_comma T).
    { intros H. apply Replace_changes in H. lia. }
    rewrite (Replace_same T HnoR) in Heq. subst y.
    split; [reflexivity|]. split; [|exact HnoR].
    intros H. apply shorten_annotation_host in H. rewrite HnoS in H. lia.
  - intros (-> & HnoS & HnoR).
    assert (E : shorten_annotation y = y).
    { destruct (decide (shorten_annotation y = y)) as [E|E]; [exact E|].
      exfalso. apply HnoS, shorten_annotation_changed, E. }
    rewrite E, (Replace_same y HnoR). reflexivity.
Qed.

(** C9, as amended: canonicalizing a canonical text gives that text again
    exactly when a second pass finds nothing to rewrite in it: no token of it
    is a quoted literal or a run of digits, its white-space tokens are single
    spaces, it has no route annotation that still names a host, and it holds
    no [?, ].  This holds whatever the configuration. *)
Theorem canonicalize_idempotent_iff (cfg : config) (x : list byte) :
  exists y : gostring,
    cleanupQuery cfg x = Ok y /\
    (cleanupQuery cfg y = Ok y <->
     Forall kept_token (tokens cfg y) /\ ~ has_annotation_host y /\
     ~ has_placeholder_comma y).
Proof.
  exists (Replace (shorten_route (concat (map canonical_piece (tokens cfg x))))
                  (str "?, ") []).
  split; [apply cleanupQuery_tokens|apply cleanupQuery_fixed_point].
Qed.

(** Texts with a colon, with [?,] and with an annotation on which the
    second pass changes nothing. *)
Example canonicalize_idempotent_examples :
  (cleanupQuery default_config (str "x IN (?,?,?)") = Ok (str "x IN (?,?,?)") /\
   cleanupQuery default_config (str "SET @a:=?") = Ok (str "SET @a:=?")) /\
  (cleanupQuery default_config (str "S /* h:r */ a b") = Ok (str "S /* r */ a b") /\
   cleanupQuery default_config (str "S /* r */ a b") = Ok (str "S /* r */ a b")) /\
  (cleanupQuery default_config (str "SELECT  a FROM t1 WHERE b = 'x' AND c IN (1, 2)")
   = Ok (str "SELECT a FROM t1 WHERE b = ? AND c IN (?)") /\
   cleanupQuery default_config (str "SELECT a FROM t1 WHERE b = ? AND c IN (?)")
   = Ok (str "SELECT a FROM t1 WHERE b = ? AND c IN (?)")).
Proof. repeat split; vm_compute; reflexivity. Qed.

(** An annotation whose route is empty leaves two spaces in a row, which
    the second pass makes one. *)
Example canonicalize_empty_route :
  cleanupQuery default_config (str "S /* h: */ a b") = Ok (str "S /*  */ a b") /\
  cleanupQuery default_config (str "S /*  */ a b") = Ok (str "S /* */ a b") /\
  ~ Forall kept_token (tokens default_config (str "S /*  */ a b")).
Proof.
  split; [vm_compute; reflexivity|]. split; [vm_compute; reflexivity|].
  assert (E : tokens default_config (str "S /*  */ a b")
              = [(str "S", TOKEN_WORD); (str " ", TOKEN_WHITESPACE);
                 (str "/", TOKEN_OTHER); (str "*", TOKEN_OTHER);
                 (str "  ", TOKEN_WHITESPACE); (str "*", TOKEN_OTHER);
                 (str "/", TOKEN_OTHER); (str " ", TOKEN_WHITESPACE);
                 (str "a", TOKEN_WORD); (str " ", TOKEN_WHITESPACE);
                 (str "b", TOKEN_WORD)])
    by (vm_compute; reflexivity).
  rewrite E. intros H.
  assert (Hin : (str "  ", TOKEN_WHITESPACE) ∈
                [(str "S", TOKEN_WORD); (str " ", TOKEN_WHITESPACE);
                 (str "/", TOKEN_OTHER); (str "*", TOKEN_OTHER);
                 (str "  ", TOKEN_WHITESPACE); (str "*", TOKEN_OTHER);
                 (str "/", TOKEN_OTHER); (str " ", TOKEN_WHITESPACE);
                 (str "a", TOKEN_WORD); (str " ", TOKEN_WHITESPACE);
                 (str "b", TOKEN_WORD)])
    by (do 4 right; left).
  destruct (proj1 (list.Forall_forall _ _) H _ Hin) as (_ & _ & Hw).
  specialize (Hw eq_refl). discriminate.
Qed.
